(** * cloud-machine-testing: the dependent-test engine and the readiness pollers

    A shallow embedding of [FormatTestOutput] (section / it / allowAssertion /
    startBypass / resumeBypass) and of [TestMachine] (ensureStarted /
    ensureServiceStarted), with the properties of the specification stated
    and settled over it.

    Promises are modelled sequentially: the engine is single threaded and the
    callers chain every call, so a promise is represented by the outcome it
    settles to together with the state reached at that moment.

    A thrown value is an object, known by the properties the engine reads
    ([name], [stack], [code]) and by its reference, or any other value, of
    which [undefined] and [null] have no properties to read.  The console,
    the listeners of the ["error"] event and the clock are part of the state,
    so that what a call writes, whom it notifies and how long it waits can be
    stated. *)

From Stdlib Require Import ZArith List String Ascii Bool Lia DecimalString.
Import ListNotations.
Local Open Scope string_scope.
Local Open Scope Z_scope.

(* ===================================================================== *)
(** ** JavaScript values *)
(* ===================================================================== *)

(** A JavaScript number, as far as [===] and string conversion observe it:
    NaN, the two infinities, and the integer values (a single zero, since
    [0 === -0]). *)
Inductive JsNumber : Type :=
| NaN
| Infinity (negative : bool)
| Finite (z : Z).

(** How the conversion of a value to a string ends: with the string, or by
    throwing an error of the given name and message. *)
Inductive Conversion : Type :=
| Converts (text : string)
| Raises (name message : string).

(** Values used as bypass codes and as results.  A Symbol is known by its
    reference; an object, or a function, by its reference and by how its own
    conversion to a string ends. *)
Inductive JsVal : Type :=
| VUndefined
| VNull
| VBool (b : bool)
| VNum (n : JsNumber)
| VStr (s : string)
| VSym (ref : nat)
| VObj (ref : nat) (conv : Conversion).

(** [a === b] on numbers: NaN differs from everything, itself included. *)
Definition number_eq (a b : JsNumber) : bool :=
  match a, b with
  | Finite x, Finite y => x =? y
  | Infinity s, Infinity t => Bool.eqb s t
  | _, _ => false
  end.

(** [a === b]. *)
Definition strict_eq (a b : JsVal) : bool :=
  match a, b with
  | VUndefined, VUndefined => true
  | VNull, VNull => true
  | VBool x, VBool y => Bool.eqb x y
  | VNum x, VNum y => number_eq x y
  | VStr x, VStr y => String.eqb x y
  | VSym x, VSym y => Nat.eqb x y
  | VObj x _, VObj y _ => Nat.eqb x y
  | _, _ => false
  end.

(** [a !== b]. *)
Definition strict_neq (a b : JsVal) : bool := negb (strict_eq a b).

(** Decimal rendering of an integer, as a template literal prints it. *)
Definition show_Z (z : Z) : string := NilZero.string_of_int (Z.to_int z).

(** [`${v}`]: how the conversion inside a template literal ends.  A Symbol
    is not converted, and an object is converted by its own methods. *)
Definition to_string (v : JsVal) : Conversion :=
  match v with
  | VUndefined => Converts "undefined"
  | VNull => Converts "null"
  | VBool true => Converts "true"
  | VBool false => Converts "false"
  | VNum NaN => Converts "NaN"
  | VNum (Infinity false) => Converts "Infinity"
  | VNum (Infinity true) => Converts "-Infinity"
  | VNum (Finite z) => Converts (show_Z z)
  | VStr s => Converts s
  | VSym _ => Raises "TypeError" "Cannot convert a Symbol value to a string"
  | VObj _ conv => conv
  end.

(** An object whose own conversion to a string throws. *)
Definition throws_in_conversion (v : JsVal) : bool :=
  match v with
  | VObj _ (Raises _ _) => true
  | _ => false
  end.

(** The line feed character, as a string. *)
Definition nl : string := String (ascii_of_nat 10) EmptyString.

(** The frames below the header line of a captured stack trace. *)
Definition frames : string := nl ++ "    at <anonymous>".

(** A thrown object that is not a function, with the properties the engine
    reads from it.  [stack = None] stands for a missing (falsy) [stack]
    property; [isError] is [err instanceof Error]. *)
Module Err.
Record t : Type := make {
  ref : nat;
  isError : bool;
  name : string;
  message : string;
  stack : option string;
  code : JsVal
}.
End Err.
Definition JsError : Type := Err.t.

(** A value that is thrown, or that a promise is rejected with: an object
    with the properties above, or any other value, which has none of them: a
    primitive as a rule.  (A function is kept apart: [allowAssertion] takes
    it for a callback.) *)
Inductive Signal : Type :=
| Object (e : Err.t)
| Value (v : JsVal).
Coercion Object : Err.t >-> Signal.

(** [undefined] and [null], of which no property can be read. *)
Definition nullish (s : Signal) : bool :=
  match s with
  | Value VUndefined => true
  | Value VNull => true
  | _ => false
  end.

(** [err.stack] when it is truthy (a non-empty string). *)
Definition truthy_stack (s : Signal) : option string :=
  match s with
  | Object e =>
      match Err.stack e with
      | Some EmptyString => None
      | Some s => Some s
      | None => None
      end
  | Value _ => None
  end.

(** [err.name === name], [err.code] and [err instanceof Error], for a
    signal whose properties can be read. *)
Definition name_is (name : string) (s : Signal) : bool :=
  match s with
  | Object e => String.eqb (Err.name e) name
  | Value _ => false
  end.

Definition code_of (s : Signal) : JsVal :=
  match s with
  | Object e => Err.code e
  | Value _ => VUndefined
  end.

Definition is_error (s : Signal) : bool :=
  match s with
  | Object e => Err.isError e
  | Value _ => false
  end.

(** The three kinds of control signal of the specification, as the handlers
    tell them apart: by [err.name]. *)
Inductive Kind : Type :=
| AssertionFailure
| BypassSignal (code : JsVal)
| FatalFailure.

Definition kind_of (s : Signal) : Kind :=
  if name_is "AssertionError" s then AssertionFailure
  else if name_is "Bypass" s then BypassSignal (code_of s)
  else FatalFailure.

(* ===================================================================== *)
(** ** The world the engine runs in *)
(* ===================================================================== *)

Inductive Stream : Type := Log | Warn | Error.

(** What a console call is given: a string, an object to be inspected, or
    another value. *)
Inductive Printed : Type :=
| Text (s : string)
| Obj (e : JsError)
| Val (v : JsVal).

(** The signal itself, given to the console. *)
Definition shown (s : Signal) : Printed :=
  match s with
  | Object e => Obj e
  | Value (VStr text) => Text text
  | Value v => Val v
  end.

(** Observable events, in the order they happen. *)
Inductive Event : Type :=
| Console (on : Stream) (what : Printed)
| Notified (listener : nat) (e : Signal).

(** A listener registered for the ["error"] event is code outside the engine:
    it is called with the signal and either returns or throws. *)
Definition Listener : Type := Signal -> option Signal.

Record State : Type := mkState {
  indentation : Z;               (* this.indentation *)
  listeners : list Listener;     (* the listeners of the "error" event *)
  trace : list Event;            (* console output and notifications so far *)
  nextRef : nat                  (* the next fresh object reference *)
}.

(** [new FormatTestOutput()]. *)
Definition fresh_engine : State :=
  {| indentation := 0; listeners := []; trace := []; nextRef := 0 |}.

(** [out.on("error", l)]. *)
Definition on_error (l : Listener) (st : State) : State :=
  {| indentation := indentation st; listeners := listeners st ++ [l];
     trace := trace st; nextRef := nextRef st |}.

(* ===================================================================== *)
(** ** Calls, promises and chaining *)
(* ===================================================================== *)

(** How a synchronous call ends. *)
Inductive Outcome (A : Type) : Type :=
| Return (a : A)
| Throw (e : Signal).
Arguments Return {A} a.
Arguments Throw {A} e.

(** A call: it runs on the state and returns or throws. *)
Definition Action (A : Type) : Type := State -> Outcome A * State.

Definition ret {A} (a : A) : Action A := fun st => (Return a, st).
Definition throw {A} (e : Signal) : Action A := fun st => (Throw e, st).
Definition bind {A B} (m : Action A) (k : A -> Action B) : Action B :=
  fun st =>
    match m st with
    | (Return a, st') => k a st'
    | (Throw e, st') => (Throw e, st')
    end.

Declare Scope action_scope.
Delimit Scope action_scope with action.
Notation "x <- m ;; k" := (bind m (fun x => k))
  (at level 61, m at next level, right associativity) : action_scope.
Notation "m ;; k" := (bind m (fun _ => k))
  (at level 61, right associativity) : action_scope.
Local Open Scope action_scope.

(** How a promise settles. *)
Inductive Settled : Type :=
| Fulfilled (v : JsVal)
| Rejected (e : Signal).

(** What a callback hands back: a plain value or a promise. *)
Inductive Ret : Type :=
| Plain (v : JsVal)
| Promise (p : Settled).

(** A call that always returns a promise: the promise's outcome and the state
    when it settles. *)
Definition Async : Type := State -> Settled * State.

(** [Promise.resolve(r)]. *)
Definition Promise_resolve (r : Ret) : Settled :=
  match r with
  | Plain v => Fulfilled v
  | Promise p => p
  end.

(** The promise a [then]/[catch] callback settles: a throw is a rejection,
    a returned value or promise is adopted. *)
Definition adopt (o : Outcome Ret) : Settled :=
  match o with
  | Return r => Promise_resolve r
  | Throw e => Rejected e
  end.

(** The promise of a callback's run. *)
Definition settle (call : Action Ret) : Async :=
  fun st => let (o, st') := call st in (adopt o, st').

(** [p.then(f)]. *)
Definition p_then (p : Async) (f : JsVal -> Action Ret) : Async :=
  fun st =>
    match p st with
    | (Fulfilled v, st') => settle (f v) st'
    | (Rejected e, st') => (Rejected e, st')
    end.

(** [p.catch(h)]. *)
Definition p_catch (p : Async) (h : Signal -> Action Ret) : Async :=
  fun st =>
    match p st with
    | (Fulfilled v, st') => (Fulfilled v, st')
    | (Rejected e, st') => settle (h e) st'
    end.

(** A promise that is already settled. *)
Definition settled (s : Settled) : Async := fun st => (s, st).

(** A callback that returns the promise of an asynchronous call. *)
Definition returning (p : Async) : Action Ret :=
  fun st => let (s, st') := p st in (Return (Promise s), st').

(* ===================================================================== *)
(** ** FormatTestOutput *)
(* ===================================================================== *)

Definition emit_event (ev : Event) : Action unit :=
  fun st =>
    (Return tt,
     {| indentation := indentation st; listeners := listeners st;
        trace := trace st ++ [ev]; nextRef := nextRef st |}).

Definition console_log (p : Printed) : Action unit := emit_event (Console Log p).
Definition console_warn (p : Printed) : Action unit := emit_event (Console Warn p).
Definition console_error (p : Printed) : Action unit := emit_event (Console Error p).

(** [new C(...)]: the object gets the next fresh reference. *)
Definition alloc (mk : nat -> JsError) : Action JsError :=
  fun st =>
    (Return (mk (nextRef st)),
     {| indentation := indentation st; listeners := listeners st;
        trace := trace st; nextRef := S (nextRef st) |}).

(** An instance of [Error] (or of a subclass) built by the runtime or by
    [new]: its stack is captured under the header line of [Error]. *)
Definition new_error (name message : string) (code : JsVal) (r : nat) : JsError :=
  {| Err.ref := r; Err.isError := true; Err.name := name; Err.message := message;
     Err.stack := Some (name ++ ": " ++ message ++ frames); Err.code := code |}.

(** Reading the property [prop] of a signal: a TypeError when the signal is
    [undefined] or [null]. *)
Definition readable (prop : string) (s : Signal) : Action unit :=
  match s with
  | Value VUndefined =>
      e <- alloc (new_error "TypeError"
                    ("Cannot read properties of undefined (reading '" ++ prop ++ "')")
                    VUndefined) ;;
      throw e
  | Value VNull =>
      e <- alloc (new_error "TypeError"
                    ("Cannot read properties of null (reading '" ++ prop ++ "')")
                    VUndefined) ;;
      throw e
  | _ => ret tt
  end.

(** [err.name === name], as the handlers evaluate it. *)
Definition has_name (name : string) (err : Signal) : Action bool :=
  readable "name" err ;; ret (name_is name err).

(** [++this.indentation] and [--this.indentation]; each yields the new value. *)
Definition set_indentation (z : Z) : Action Z :=
  fun st =>
    (Return z,
     {| indentation := z; listeners := listeners st;
        trace := trace st; nextRef := nextRef st |}).
Definition incr : Action Z := fun st => set_indentation (indentation st + 1) st.
Definition decr : Action Z := fun st => set_indentation (indentation st - 1) st.

(** chalk styles: colour escapes are left out, as chalk itself does on an
    output without colour support. *)
Definition chalk_green (s : string) : string := s.
Definition chalk_red (s : string) : string := s.
Definition chalk_gray (s : string) : string := s.
Definition chalk_underline_bold_blue (s : string) : string := s.

(** The marks U+2713 and U+2717 in UTF-8, each followed by three spaces. *)
Definition utf8 (a b c : nat) : string :=
  String (ascii_of_nat a) (String (ascii_of_nat b) (String (ascii_of_nat c) EmptyString)).
Definition check_mark : string := utf8 226 156 147 ++ "   ".
Definition cross_mark : string := utf8 226 156 151 ++ "   ".

Fixpoint repeat_string (s : string) (n : nat) : string :=
  match n with
  | O => EmptyString
  | S n' => s ++ repeat_string s n'
  end.

(** [new Array(len)] throws a RangeError unless [len] is an array length,
    an integer from 0 to 2^32 - 1. *)
Definition array_length_ok (len : Z) : bool := (0 <=? len) && (len <=? 4294967295).

(** [indent()]: [new Array(this.indentation + 1).join("  ")], that is one
    separator between each two of the array's empty slots. *)
Definition indent : Action string :=
  fun st =>
    let len := indentation st + 1 in
    if array_length_ok len
    then (Return (repeat_string "  " (Z.to_nat (len - 1))), st)
    else (e <- alloc (new_error "RangeError" "Invalid array length" VUndefined) ;;
          throw e) st.

(** [msg.replace(/\n/g, by)] on a string. *)
Fixpoint replace_newlines (by_ : string) (msg : string) : string :=
  match msg with
  | EmptyString => EmptyString
  | String c rest =>
      if Ascii.eqb c (ascii_of_nat 10)
      then by_ ++ replace_newlines by_ rest
      else String c (replace_newlines by_ rest)
  end.

(** [indentLines(msg)]: [this.indent() + msg.replace(/\n/g, `\n${this.indent()}`)].
    Only a string has a [replace] method, and calling what is missing is a
    TypeError. *)
Definition indentLines (msg : Printed) : Action string :=
  pre <- indent ;;
  by_ <- indent ;;
  match msg with
  | Text s => ret (pre ++ replace_newlines (nl ++ by_) s)
  | _ =>
      e <- alloc (new_error "TypeError" "msg.replace is not a function" VUndefined) ;;
      throw e
  end.

(** What [err.stack ? err.stack : err] gives when [err.stack] can be read. *)
Definition stack_or_self (err : Signal) : Printed :=
  match truthy_stack err with
  | Some s => Text s
  | None => shown err
  end.

(** [err.stack ? err.stack : err], as the callbacks evaluate it. *)
Definition stack_or_value (err : Signal) : Action Printed :=
  readable "stack" err ;; ret (stack_or_self err).

(** The listeners are called in registration order; one that throws ends the
    emit with its exception. *)
Fixpoint call_listeners (i : nat) (ls : list Listener) (err : Signal) : Action unit :=
  match ls with
  | [] => ret tt
  | l :: rest =>
      emit_event (Notified i err) ;;
      match l err with
      | Some thrown => throw thrown
      | None => call_listeners (S i) rest err
      end
  end.

(** [this.emit("error", err)] of Node's EventEmitter.  With no listener
    registered for ["error"] the emit throws: [err] itself when it is an
    instance of [Error], a fresh [Error] that wraps it otherwise. *)
Definition emit_error (err : Signal) : Action bool :=
  fun st =>
    match listeners st with
    | [] =>
        if is_error err then (Throw err, st)
        else (e <- alloc (new_error "Error" "Unhandled error." (VStr "ERR_UNHANDLED_ERROR")) ;;
              throw e) st
    | ls => (call_listeners 0 ls err ;; ret true) st
    end.

(** [section(name, contents)].  The header is printed and the depth is
    incremented, then [contents()] is called in place: what it returns goes
    through [Promise.resolve], what it throws leaves [section] at once. *)
Definition section (name : string) (contents : Action Ret) : Action Settled :=
  console_log (Text "") ;;
  pre <- indent ;;
  console_log (Text (pre ++ chalk_underline_bold_blue name)) ;;
  console_log (Text "") ;;
  incr ;;
  r <- contents ;;
  fun st =>
    let (s, st') :=
      p_then
        (p_catch (settled (Promise_resolve r))
           (fun err =>
              console_warn (Text (chalk_gray ("Encountered error in section " ++ name ++ "."))) ;;
              what <- stack_or_value err ;;
              console_warn what ;;
              ret (Plain (VBool true))))
        (fun _ => d <- decr ;; ret (Plain (VNum (Finite d))))
        st in
    (Return s, st').

(** The two callbacks of [it]: the one given to [then] after the body, and
    the one given to [catch] at the end of the chain. *)
Definition report_success (name : string) : JsVal -> Action Ret :=
  fun _ =>
    pre <- indent ;;
    console_log (Text (pre ++ chalk_green check_mark ++ name)) ;;
    ret (Plain VUndefined).

Definition report_failure (name : string) : Signal -> Action Ret :=
  fun err =>
    emit_error err ;;
    pre <- indent ;;
    console_warn (Text (pre ++ chalk_red cross_mark ++ name)) ;;
    incr ;;
    what <- stack_or_value err ;;
    lines <- indentLines what ;;
    console_log (Text lines) ;;
    decr ;;
    throw err.

(** [it(name, contents)]:
    [Promise.resolve().then(() => contents()).then(success).catch(failure)]. *)
Definition it (name : string) (contents : Action Ret) : Async :=
  p_catch
    (p_then
       (p_then (settled (Fulfilled VUndefined)) (fun _ => contents))
       (report_success name))
    (report_failure name).

(** [_it(...args)]: [() => this.it(...args)]. *)
Definition _it (name : string) (contents : Action Ret) : JsVal -> Action Ret :=
  fun _ => returning (it name contents).

(** A callback given to [allowAssertion]: it is called with the signal, and
    what it returns is ignored. *)
Definition Callback : Type := Signal -> Action unit.

(** The first argument of [allowAssertion]: a function, known by what
    calling it does, or any other value, which is then the signal. *)
Inductive Given : Type :=
| AFunction (cb : Callback)
| ASignal (s : Signal).

(** What [allowAssertion] returns: [true], or the handler
    [(err) => this.allowAssertion(err, cb)], a new function. *)
Inductive Allowed : Type :=
| Absorbed
| Handler (ref : nat) (cb : Callback).

Definition handler_source : string := "(err) => this.allowAssertion(err, cb)".

Definition allowed_value (a : Allowed) : JsVal :=
  match a with
  | Absorbed => VBool true
  | Handler r _ => VObj r (Converts handler_source)
  end.

(** The reference of a new function. *)
Definition fresh : Action nat :=
  fun st =>
    (Return (nextRef st),
     {| indentation := indentation st; listeners := listeners st;
        trace := trace st; nextRef := S (nextRef st) |}).

(** [allowAssertion(err, cb)].  [cb] is [None] when it is missing or not a
    function. *)
Definition allowAssertion (err : Given) (cb : option Callback) : Action Allowed :=
  match err with
  | AFunction f => r <- fresh ;; ret (Handler r f)
  | ASignal s =>
      is_assertion <- has_name "AssertionError" s ;;
      if negb is_assertion then throw s
      else
        match cb with
        | Some f => incr ;; f s ;; decr ;; ret Absorbed
        | None => ret Absorbed
        end
  end.

(** [allowAssertion] as a [catch] callback, [.catch(out.allowAssertion)]: it
    is given the signal, and what it returns fulfils the promise. *)
Definition allowing (cb : option Callback) : Signal -> Action Ret :=
  fun err => a <- allowAssertion (ASignal err) cb ;; ret (Plain (allowed_value a)).


(** The object [new Bypass(code)] makes of a code whose conversion gave
    [text]; its stack is headed by the name of the class. *)
Definition Bypass (text : string) (code : JsVal) (r : nat) : JsError :=
  {| Err.ref := r; Err.isError := true; Err.name := "Bypass";
     Err.message := "Bypass for " ++ text;
     Err.stack := Some ("Bypass: Bypass for " ++ text ++ frames);
     Err.code := code |}.

(** [new Bypass(code)]: the message [`Bypass for ${code}`] is built first,
    and a code that cannot be converted ends the construction with the error
    of the conversion. *)
Definition new_Bypass (code : JsVal) : Action JsError :=
  match to_string code with
  | Converts text => alloc (Bypass text code)
  | Raises name message =>
      e <- alloc (new_error name message VUndefined) ;;
      throw e
  end.

(** [startBypass(code)], the handler it returns. *)
Definition startBypass (code : JsVal) : Signal -> Action Ret :=
  fun err =>
    is_assertion <- has_name "AssertionError" err ;;
    if negb is_assertion
    then
      console_warn (Text "Refusing to bypass non-AssertionError") ;;
      console_error (shown err) ;;
      throw err
    else
      b <- new_Bypass code ;;
      throw b.

(** [resumeBypass(code)], the handler it returns:
    [err.name !== "Bypass" || err.code !== code]. *)
Definition resumeBypass (code : JsVal) : Signal -> Action Ret :=
  fun err =>
    is_bypass <- has_name "Bypass" err ;;
    if negb is_bypass || strict_neq (code_of err) code
    then throw err
    else ret (Plain (VBool true)).

(* ===================================================================== *)
(** ** Callers: chains of checks and nests of sections *)
(* ===================================================================== *)

(** A call made inside a [then] callback: the promise it returns is handed
    on, and a throw rejects the callback's promise. *)
Definition in_callback (call : Action Settled) : Action Ret :=
  s <- call ;; ret (Promise s).

(** [p.then(_it(n1, b1)).then(_it(n2, b2))...]: checks chained after [p]. *)
Fixpoint then_checks (p : Async) (checks : list (string * Action Ret)) : Async :=
  match checks with
  | [] => p
  | (name, contents) :: rest => then_checks (p_then p (_it name contents)) rest
  end.

(** Section bodies that return promises: an innermost body whose promise
    settles as given, a body that returns the promise of a nested section,
    and a body that chains a second one after a first with [then]. *)
Inductive Nest : Type :=
| Leaf (s : Settled)
| Sect (name : string) (inner : Nest)
| AndThen (first second : Nest).

Fixpoint run_nest (n : Nest) : Action Ret :=
  match n with
  | Leaf s => ret (Promise s)
  | Sect name inner => in_callback (section name (run_nest inner))
  | AndThen first second =>
      r <- run_nest first ;;
      returning (p_then (settled (Promise_resolve r)) (fun _ => run_nest second))
  end.

(** How many sections are open at once, at most. *)
Fixpoint nest_depth (n : Nest) : Z :=
  match n with
  | Leaf _ => 0
  | Sect _ inner => 1 + nest_depth inner
  | AndThen first second => Z.max (nest_depth first) (nest_depth second)
  end.

(** A promise rejected with [undefined] or [null]: a value of which no
    property can be read. *)
Definition unreadable (s : Settled) : bool :=
  match s with
  | Fulfilled _ => false
  | Rejected err => nullish err
  end.

(** No innermost body of the nest returns such a promise. *)
Fixpoint readable_leaves (n : Nest) : bool :=
  match n with
  | Leaf s => negb (unreadable s)
  | Sect _ inner => readable_leaves inner
  | AndThen first second => readable_leaves first && readable_leaves second
  end.

(** What [section] writes when the promise of its body has settled. *)
Definition absorbed_log (name : string) (s : Settled) : list Event :=
  match s with
  | Fulfilled _ => []
  | Rejected err =>
      [Console Warn (Text (chalk_gray ("Encountered error in section " ++ name ++ ".")));
       Console Warn (stack_or_self err)]
  end.

(** The state in which [section] calls its body: header printed, one level
    deeper. *)
Definition section_entry (name : string) (prefix : string) (st : State) : State :=
  {| indentation := indentation st + 1; listeners := listeners st;
     trace := trace st ++ [Console Log (Text "");
                           Console Log (Text (prefix ++ chalk_underline_bold_blue name));
                           Console Log (Text "")];
     nextRef := nextRef st |}.

(** The state in which [section]'s promise is fulfilled, when its body
    returned [r] in state [st1]: what was absorbed is on the console and the
    depth is one less. *)
Definition section_exit (name : string) (r : Ret) (st1 : State) : State :=
  {| indentation := indentation st1 - 1; listeners := listeners st1;
     trace := trace st1 ++ absorbed_log name (Promise_resolve r);
     nextRef := nextRef st1 |}.

(** The notifications an emit makes when no listener throws. *)
Fixpoint notifications (i : nat) (ls : list Listener) (err : Signal) : list Event :=
  match ls with
  | [] => []
  | _ :: rest => Notified i err :: notifications (S i) rest err
  end.

(** Sample signals and bodies. *)
Definition assertion_error (r : nat) : JsError :=
  new_error "AssertionError" "expected 1 to equal 2" VUndefined r.

(** A rejection value that is a plain object: [{ name: "AssertionError" }]. *)
Definition bare_assertion (r : nat) : JsError :=
  {| Err.ref := r; Err.isError := false; Err.name := "AssertionError";
     Err.message := ""; Err.stack := None; Err.code := VUndefined |}.

(** [() => { throw e; }] and [() => Promise.reject(e)]. *)
Definition throwing (e : Signal) : Action Ret := throw e.
Definition rejecting (e : Signal) : Action Ret := ret (Promise (Rejected e)).

(** [() => undefined]: a body that completes. *)
Definition passing : Action Ret := ret (Plain VUndefined).

(** The chain
    [out.it("A", pass).then(out._it("B", fail)).catch(out.startBypass("skip-b"))
       .then(out._it("C", fail)).catch(out.resumeBypass("skip-b"))
       .then(out._it("E", pass))]. *)
Definition bypass_scenario : Async :=
  p_then
    (p_catch
       (p_then
          (p_catch
             (p_then (it "A" passing) (_it "B" (throwing (assertion_error 0))))
             (startBypass (VStr "skip-b")))
          (_it "C" (throwing (assertion_error 5))))
       (resumeBypass (VStr "skip-b")))
    (_it "E" passing).

(** A listener that only takes note. *)
Definition quiet : Listener := fun _ => None.


(** A new engine, [n] objects having been created elsewhere before. *)
Definition engine_after (n : nat) : State :=
  {| indentation := 0; listeners := []; trace := []; nextRef := n |}.

(* ===================================================================== *)
(** ** TestError and TestMachine *)
(* ===================================================================== *)

Module TestError.
Record t : Type := make {
  message : string;
  exitCode : Z;
  name : string
}.
End TestError.

(** [new TestError(msg, exitCode)]: [exitCode || 1]. *)
Definition new_TestError (msg : string) (exitCode : option Z) : TestError.t :=
  {| TestError.message := msg;
     TestError.exitCode :=
       match exitCode with
       | Some c => if c =? 0 then 1 else c
       | None => 1
       end;
     TestError.name := "TestError" |}.

(** One call of [this.ssh(command)]: the promise it returns settles after
    [takes] milliseconds, fulfilled when [succeeds].  Every call settles: a
    connection that hangs for ever has no [Attempt], only ones that take as
    long as one likes. *)
Record Attempt : Type := mkAttempt {
  takes : N;
  succeeds : bool
}.

(** The machine's surroundings: the clock [new Date()] reads (milliseconds),
    the number of [ssh] calls made so far, and the console. *)
Record World : Type := mkWorld {
  clock : Z;
  connections : nat;
  output : list string
}.

(** The [started] argument: missing, a number, or a [Date]. *)
Inductive Started : Type :=
| NotGiven
| Timestamp (t : Z)
| Date (t : Z).

(** [!started]. *)
Definition not_started (s : Started) : bool :=
  match s with
  | NotGiven => true
  | Timestamp t => t =? 0
  | Date _ => false
  end.

(** The number [started] stands for in [new Date() - started]. *)
Definition time_of (s : Started) : Z :=
  match s with
  | NotGiven => 0
  | Timestamp t => t
  | Date t => t
  end.

(** How a call of a poller ends: it throws, or it returns a promise that is
    fulfilled or rejected. *)
Inductive Poll : Type :=
| Thrown (e : TestError.t)
| Resolved
| RejectedWith (e : TestError.t).

(** [.then(() => call)]: a throw inside the callback is a rejection. *)
Definition inside_then (r : option (Poll * World)) : option (Poll * World) :=
  match r with
  | Some (Thrown e, w) => Some (RejectedWith e, w)
  | other => other
  end.

(** Time passes. *)
Definition advance (ms : Z) (w : World) : World :=
  {| clock := clock w + ms; connections := connections w; output := output w |}.

(** [sleep(100)] and the like: the promise is fulfilled after [ms]
    milliseconds on the clock, the delay the timer is set to.  (A real timer
    may fire later; what it adds can be counted to the attempt before, which
    may take any time.) *)
Definition sleep (ms : Z) (w : World) : World := advance ms w.

Definition world_log (line : string) (w : World) : World :=
  {| clock := clock w; connections := connections w; output := output w ++ [line] |}.

(** The delay a timer set with [setTimeout(f, ms)] waits for: [ms], but 1 ms
    for a delay over 2^31 - 1 ms, which does not fit the timer. *)
Definition timer_delay (ms : Z) : Z := if ms >? 2147483647 then 1 else ms.

(** [promiseTimeout(p, ms)]: [p] when it settles before the timer, a rejection
    (TimeoutError) when the timer fires otherwise; a tie goes to the
    timer. *)
Definition promiseTimeout (a : Attempt) (ms : Z) : Attempt :=
  if Z.of_N (takes a) <? timer_delay ms then a
  else {| takes := Z.to_N (timer_delay ms); succeeds := false |}.

(** The time from one deadline test to the next over [k] failed attempts,
    from call number [from] on: what each attempt took plus the 100 ms of the
    backoff after it. *)
Fixpoint retry_time (probe : nat -> Attempt) (from : nat) (k : nat) : Z :=
  match k with
  | O => 0
  | S k' => Z.of_N (takes (probe from)) + 100 + retry_time probe (S from) k'
  end.

Section TestMachine.

(** [this.ssh(command)], by the command and the number of calls made before. *)
Variable ssh : string -> nat -> Attempt.
(** [this.opts.sshTimeout]. *)
Variable sshTimeout : Z.

(** The call [this.ssh(command)] and the wait for its promise. *)
Definition call_ssh (a : Attempt) (w : World) : World :=
  {| clock := clock w + Z.of_N (takes a); connections := S (connections w);
     output := output w |}.

(** [promiseTimeout(this.ssh("echo 'Test'"), this.opts.sshTimeout)], when [n]
    calls of [ssh] were made before.  (The earlier copy of the class calls
    [ssh] without this bound.) *)
Definition probe_machine (n : nat) : Attempt :=
  promiseTimeout (ssh "echo 'Test'" n) sshTimeout.

(** [this.ssh(`systemctl is-active ${service}`)], when [n] calls of [ssh]
    were made before. *)
Definition probe_service (service : string) (n : nat) : Attempt :=
  ssh ("systemctl is-active " ++ service) n.

Definition ensureStarted_message (timeout failures : Z) : string :=
  "Machine has not responded to SSH in " ++ show_Z timeout ++
  "ms (Attempted " ++ show_Z failures ++ " connections)".

(** [ensureStarted(timeout, started, failures)].  The recursion is the retry
    in the [catch] callback; [fuel] bounds the number of calls. *)
Fixpoint ensureStarted (fuel : nat) (timeout : Z) (started : Started)
    (failures : option Z) (w : World) : option (Poll * World) :=
  match fuel with
  | O => None
  | S fuel' =>
      let started := if not_started started then Date (clock w) else started in
      let failures := match failures with Some n => n | None => 0 end in
      if clock w - time_of started >? timeout
      then Some (Thrown (new_TestError (ensureStarted_message timeout failures) None), w)
      else
        let a := probe_machine (connections w) in
        let w1 := call_ssh a w in
        if succeeds a
        then Some (Resolved,
                   world_log ("Machine responded to SSH connections in " ++
                              show_Z (clock w1 - time_of started) ++ "ms") w1)
        else inside_then
               (ensureStarted fuel' timeout started (Some (failures + 1)) (sleep 100 w1))
  end.

Definition ensureServiceStarted_message (service : string) (timeout : Z) : string :=
  "Service " ++ service ++ " has not started after " ++ show_Z timeout ++ "ms.".

(** [ensureServiceStarted(service, timeout, started)]. *)
Fixpoint ensureServiceStarted (fuel : nat) (service : string) (timeout : Z)
    (started : Started) (w : World) : option (Poll * World) :=
  match fuel with
  | O => None
  | S fuel' =>
      let started := if not_started started then Date (clock w) else started in
      if clock w - time_of started >? timeout
      then Some (Thrown (new_TestError (ensureServiceStarted_message service timeout) None), w)
      else
        let a := probe_service service (connections w) in
        let w1 := call_ssh a w in
        if succeeds a
        then Some (Resolved, w1)
        else inside_then
               (ensureServiceStarted fuel' service timeout started (sleep 100 w1))
  end.

End TestMachine.

(** A poller's fatal failure, thrown or as a rejection. *)
Definition fatal (p : Poll) : option TestError.t :=
  match p with
  | Thrown e => Some e
  | RejectedWith e => Some e
  | Resolved => None
  end.

(** [s.includes(sub)]. *)
Fixpoint includes (sub s : string) : bool :=
  if prefix sub s then true
  else
    match s with
    | EmptyString => false
    | String _ rest => includes sub rest
    end.

(** Sample machines: one that never answers and fails at once, one whose
    first connection is refused after a minute and a half and whose second is
    accepted, and one that refuses two quick connections. *)
Definition never_up : string -> nat -> Attempt :=
  fun _ _ => {| takes := 0; succeeds := false |}.
Definition slow_refusal : string -> nat -> Attempt :=
  fun _ n =>
    match n with
    | O => {| takes := 90000; succeeds := false |}
    | S _ => {| takes := 20; succeeds := true |}
    end.
Definition up_at_third : string -> nat -> Attempt :=
  fun _ n => {| takes := 20; succeeds := Nat.leb 2 n |}.
Definition epoch : World := {| clock := 0; connections := 0; output := [] |}.

(* ===================================================================== *)
(** ** Callers: chains with handlers, and lines of text *)
(* ===================================================================== *)

(** One more call on a promise chain. *)
Inductive Link : Type :=
| ThenCheck (name : string) (contents : Action Ret)   (* .then(out._it(name, contents)) *)
| CatchAllow (cb : option Callback)                   (* .catch(out.allowAssertion), or with a callback *)
| CatchStart (code : JsVal)                           (* .catch(out.startBypass(code)) *)
| CatchResume (code : JsVal).                         (* .catch(out.resumeBypass(code)) *)

Definition link (p : Async) (l : Link) : Async :=
  match l with
  | ThenCheck name contents => p_then p (_it name contents)
  | CatchAllow cb => p_catch p (allowing cb)
  | CatchStart code => p_catch p (startBypass code)
  | CatchResume code => p_catch p (resumeBypass code)
  end.

Fixpoint chain (p : Async) (links : list Link) : Async :=
  match links with
  | [] => p
  | l :: rest => chain (link p l) rest
  end.

(** Whether a link hands the signal [b] on: all do but the resume handler
    of a code that is [===] to the signal's. *)
Definition lets_through (b : JsError) (l : Link) : bool :=
  match l with
  | CatchResume code => strict_neq (Err.code b) code
  | _ => true
  end.

(** What a link writes when it is given a signal that is not an
    AssertionError. *)
Definition refusal (b : JsError) (l : Link) : list Event :=
  match l with
  | CatchStart _ =>
      [Console Warn (Text "Refusing to bypass non-AssertionError"); Console Error (Obj b)]
  | _ => []
  end.

(** [.then(out._it(n, b)).catch(out.allowAssertion)] for each check. *)
Definition tolerant_links (checks : list (string * Action Ret)) : list Link :=
  flat_map (fun c => [ThenCheck (fst c) (snd c); CatchAllow None]) checks.

(** A body known by the promise it returns. *)
Definition settling (s : Settled) : Action Ret := ret (Promise s).

(** What a check writes, by how its body settles, at depth [d] with the
    listeners [ls] (none of which throws). *)
Definition check_report (ls : list Listener) (d : Z) (c : string * Settled) : list Event :=
  match snd c with
  | Fulfilled _ =>
      [Console Log (Text (repeat_string "  " (Z.to_nat d) ++ check_mark ++ fst c))]
  | Rejected f =>
      match ls with
      | [] => []
      | _ :: _ =>
          (notifications 0 ls f
           ++ [Console Warn (Text (repeat_string "  " (Z.to_nat d) ++ cross_mark ++ fst c));
               Console Log
                 (Text (repeat_string "  " (Z.to_nat (d + 1))
                        ++ replace_newlines (nl ++ repeat_string "  " (Z.to_nat (d + 1)))
                             (match truthy_stack f with Some s => s | None => "" end)))])%list
      end
  end.

(** The lines of a text: the pieces between line feeds. *)
Fixpoint lines_of (s : string) : list string :=
  match s with
  | EmptyString => [EmptyString]
  | String c rest =>
      if Ascii.eqb c (ascii_of_nat 10) then EmptyString :: lines_of rest
      else
        match lines_of rest with
        | l :: ls => String c l :: ls
        | [] => [String c EmptyString]
        end
  end.

(** Whether a text holds a line feed. *)
Fixpoint has_newline (s : string) : bool :=
  match s with
  | EmptyString => false
  | String c rest => Ascii.eqb c (ascii_of_nat 10) || has_newline rest
  end.

(** The links of the second documented example between the start handler
    of ["no-text"] and its resume handler. *)
Definition few_words_block : list Link :=
  [ThenCheck "should have at least three words" (throwing (assertion_error 7));
   CatchStart (VStr "few-words");
   ThenCheck "depends on three words" passing;
   CatchAllow None;
   CatchResume (VStr "few-words");
   ThenCheck "needs text" passing;
   CatchAllow None].

(* ===================================================================== *)
(** ** TestMachine: the abstract class and the earlier copy *)
(* ===================================================================== *)

(** [ssh(command)] of the abstract class: [Promise.reject(new Error(...))],
    a promise that is rejected at once. *)
Definition abstract_ssh : string -> nat -> Attempt :=
  fun _ _ => {| takes := 0; succeeds := false |}.

(** [ensureStarted(timeout, started, failures)] of the earlier copy of the
    class, which waits for [this.ssh("echo 'Test'")] itself, without
    [promiseTimeout]. *)
Fixpoint ensureStarted_unbounded (ssh : string -> nat -> Attempt) (fuel : nat)
    (timeout : Z) (started : Started) (failures : option Z) (w : World)
    : option (Poll * World) :=
  match fuel with
  | O => None
  | S fuel' =>
      let started := if not_started started then Date (clock w) else started in
      let failures := match failures with Some n => n | None => 0 end in
      if clock w - time_of started >? timeout
      then Some (Thrown (new_TestError (ensureStarted_message timeout failures) None), w)
      else
        let a := ssh "echo 'Test'" (connections w) in
        let w1 := call_ssh a w in
        if succeeds a
        then Some (Resolved,
                   world_log ("Machine responded to SSH connections in " ++
                              show_Z (clock w1 - time_of started) ++ "ms") w1)
        else inside_then
               (ensureStarted_unbounded ssh fuel' timeout started (Some (failures + 1))
                  (sleep 100 w1))
  end.

(* ===================================================================== *)
(** ** IO: the yes/no questions *)
(* ===================================================================== *)

Definition is_y (c : ascii) : bool := Ascii.eqb c "y" || Ascii.eqb c "Y".
Definition is_e (c : ascii) : bool := Ascii.eqb c "e" || Ascii.eqb c "E".
Definition is_s (c : ascii) : bool := Ascii.eqb c "s" || Ascii.eqb c "S".

(** The alternatives of [/^([yY][eE][sS]|[yY])+$/]: a word of the group. *)
Inductive YesWord : string -> Prop :=
| word_yes (y e s : ascii) :
    is_y y = true -> is_e e = true -> is_s s = true ->
    YesWord (String y (String e (String s EmptyString)))
| word_y (y : ascii) :
    is_y y = true -> YesWord (String y EmptyString).

(** The strings the regular expression matches: one word of the group or
    more, from the start of the string to its end. *)
Inductive YesWords : string -> Prop :=
| words_one (w : string) : YesWord w -> YesWords w
| words_more (w rest : string) : YesWord w -> YesWords rest -> YesWords (w ++ rest).

(** A matcher for words of the group up to the end of the string, none
    included. *)
Fixpoint yes_words (s : string) : bool :=
  match s with
  | EmptyString => true
  | String c rest =>
      is_y c &&
      match rest with
      | String e (String x rest') =>
          if is_e e then is_s x && yes_words rest' else yes_words rest
      | _ => yes_words rest
      end
  end.

(** [this.yesRegex.test(s)]. *)
Definition yesRegex_test (s : string) : bool :=
  match s with
  | EmptyString => false
  | String _ _ => yes_words s
  end.

(** chalk styles of [IO], as the ones above. *)
Definition statusFormat (s : string) : string := s.
Definition questionFormat (s : string) : string := s.
Definition ciAnswerFormat (s : string) : string := s.
Definition formatDefault (s : string) : string := s.

(** [formatYesNo(defaultVal)]: the pair [{ y, n }]. *)
Definition formatYesNo (defaultVal : string) : string * string :=
  (if yesRegex_test defaultVal then formatDefault "Y" else "y",
   if yesRegex_test defaultVal then "n" else formatDefault "N").

(* ===================================================================== *)
(** ** CloudMachineTest: the run of a test *)
(* ===================================================================== *)

(** What a promise of the run is rejected with. *)
Inductive Failure : Type :=
| TestFailure (e : TestError.t)
| OtherFailure (message : string).

Inductive Result (A : Type) : Type :=
| Ok (a : A)
| Failed (f : Failure).
Arguments Ok {A} a.
Arguments Failed {A} f.

(** What is seen of a run, in order. *)
Inductive Step : Type :=
| Said (line : string)        (* console.log of a string *)
| Shown (f : Failure)         (* console.log(err) *)
| Rang                        (* the bell *)
| Asked (prompt : string)     (* a question put through readline *)
| Listed                      (* machine.getInstances() *)
| Created                     (* machine.createInstance() *)
| Tested                      (* automatedTests() *)
| Session                     (* machine.ssh() *)
| Destroyed                   (* machine.destroyInstance() *)
| Exited (code : Z).          (* process.exit(code) *)

(** A running instance, as the run reads it: the time
    [new Date(i.creationTimestamp)] stands for, if the timestamp parses. *)
Record Instance : Type := mkInstance {
  creation : option Z
}.

(** What the run is given: the environment variables it reads, the lines
    typed at its questions, the string functions of the runtime, the
    machine, the tests, the clock and the two limits. *)
Module Env.
Record t : Type := make {
  isCI : bool;                             (* typeof process.env.CI !== "undefined" *)
  noBell : bool;                           (* process.env.CI || process.env.NO_BELL *)
  answers : nat -> string;                 (* the line typed at the n-th question *)
  trim : string -> string;                 (* String.prototype.trim *)
  toUpperCase : string -> string;          (* String.prototype.toUpperCase *)
  getInstances : Result (list Instance);   (* how machine.getInstances() settles *)
  createInstance : Result unit;            (* how machine.createInstance() settles *)
  destroyInstance : Result unit;           (* how machine.destroyInstance() settles *)
  ssh : nat -> Result unit;                (* how the n-th machine.ssh() settles *)
  automatedTests : Result unit;            (* how automatedTests() settles *)
  now : Z;                                 (* new Date(), in milliseconds *)
  maxInstances : Z;
  maxInstanceAge : Z
}.
End Env.

(** The state of a run: [this.exitCode], what happened so far, and how many
    lines were read and how many sessions opened. *)
Record Run : Type := mkRun {
  exitCode : Z;
  steps : list Step;
  typed : nat;
  sessions : nat
}.

(** [new CloudMachineTest()], before [test()]. *)
Definition new_run : Run := {| exitCode := 0; steps := []; typed := 0; sessions := 0 |}.

(** A promise of the run: none when the model runs out of fuel, else how it
    settles and the state then. *)
Definition Job (A : Type) : Type := Run -> option (Result A * Run).

Definition job_ret {A} (a : A) : Job A := fun r => Some (Ok a, r).
Definition job_fail {A} (f : Failure) : Job A := fun r => Some (Failed f, r).

(** [p.then(k)]. *)
Definition job_then {A B} (p : Job A) (k : A -> Job B) : Job B :=
  fun r =>
    match p r with
    | Some (Ok a, r') => k a r'
    | Some (Failed f, r') => Some (Failed f, r')
    | None => None
    end.

(** [p.catch(h)]. *)
Definition job_catch {A} (p : Job A) (h : Failure -> Job A) : Job A :=
  fun r =>
    match p r with
    | Some (Ok a, r') => Some (Ok a, r')
    | Some (Failed f, r') => h f r'
    | None => None
    end.

Declare Scope job_scope.
Delimit Scope job_scope with job.
Notation "x <- m ;; k" := (job_then m (fun x => k))
  (at level 61, m at next level, right associativity) : job_scope.
Notation "m ;; k" := (job_then m (fun _ => k))
  (at level 61, right associativity) : job_scope.

Definition step (s : Step) : Job unit :=
  fun r =>
    Some (Ok tt, {| exitCode := exitCode r; steps := steps r ++ [s];
                    typed := typed r; sessions := sessions r |}).

(** A call of the outside that settles as [res]. *)
Definition settles {A} (res : Result A) : Job A := fun r => Some (res, r).

(** [io.status(msg)]: the message on a line of its own, indented. *)
Definition status (msg : string) : Job unit :=
  step (Said (nl ++ "      " ++ statusFormat msg ++ nl ++ "    ")).

(** The minute, the hour and the day, in milliseconds. *)
Definition minute : Z := 60 * 1000.
Definition hour : Z := 60 * minute.
Definition day : Z := 24 * hour.

(** The [desc] of [preventRunawayServers], for [this.maxInstanceAge]. *)
Definition age_description (age : Z) : string :=
  if age >? day then show_Z (age / day) ++ " days"
  else if age >? hour then show_Z (age / hour) ++ " hours"
  else if age >? minute then show_Z (age / minute) ++ " minutes"
  else show_Z age ++ "ms".

(** [new Date() - new Date(i.creationTimestamp) > this.maxInstanceAge]; a
    timestamp that does not parse gives NaN, which is greater than nothing.
    The clock is read once for the whole list: the filter is over within
    the millisecond. *)
Definition is_old (now maxInstanceAge : Z) (i : Instance) : bool :=
  match creation i with
  | Some t => now - t >? maxInstanceAge
  | None => false
  end.

Section CloudMachineTest.

Variable env : Env.t.

(** [io.bell()]: the sound is started and not waited for. *)
Definition bell : Job unit :=
  fun r => if Env.noBell env then Some (Ok tt, r) else step Rang r.

(** A question through readline: the prompt is written and the next line
    typed is the answer. *)
Definition askQuestion (text : string) : Job string :=
  fun r =>
    Some (Ok (Env.answers env (typed r)),
          {| exitCode := exitCode r; steps := steps r ++ [Asked text];
             typed := S (typed r); sessions := sessions r |}).

(** [io.yesNo(question, consoleDefault, ciDefault)]. *)
Definition yesNo (question consoleDefault ciDefault : string) : Job bool :=
  if Env.isCI env
  then
    (step (Said (questionFormat (question ++ " (" ++ fst (formatYesNo ciDefault) ++ "/"
                                 ++ snd (formatYesNo ciDefault) ++ ") ")
                 ++ ciAnswerFormat (Env.toUpperCase env ciDefault))) ;;
     job_ret (yesRegex_test ciDefault))%job
  else
    (bell ;;
     answer <- askQuestion (questionFormat
                              (question ++ " (" ++ fst (formatYesNo consoleDefault) ++ "/"
                               ++ snd (formatYesNo consoleDefault) ++ ") ")) ;;
     job_ret (yesRegex_test
                (if (0 <? String.length (Env.trim env answer))%nat
                 then Env.trim env answer else consoleDefault)))%job.

(** The question of [preventRunawayServers] and what follows a no. *)
Definition confirm_another : Job unit :=
  (answer <- yesNo "Might have runaway servers.  Create another?" "Y" "N" ;;
   if answer then job_ret tt
   else job_fail (TestFailure (new_TestError "Runaway servers detected." None)))%job.

(** [preventRunawayServers()]. *)
Definition preventRunawayServers : Job unit :=
  (step Listed ;;
   instances <- settles (Env.getInstances env) ;;
   status (show_Z (Z.of_nat (List.length instances)) ++ " machine instances already running.") ;;
   (if Z.of_nat (List.length instances) >? Env.maxInstances env
    then confirm_another else job_ret tt) ;;
   status (show_Z (Z.of_nat (List.length (filter (is_old (Env.now env) (Env.maxInstanceAge env))
                                       instances)))
           ++ " machine instances have been running for longer than "
           ++ age_description (Env.maxInstanceAge env)) ;;
   if Z.of_nat (List.length (filter (is_old (Env.now env) (Env.maxInstanceAge env)) instances))
      >? 0
   then confirm_another else job_ret tt)%job.

(** [ensureCredentials()]. *)
Definition ensureCredentials : Job unit := job_ret tt.

(** [prepareEnvironment()]. *)
Definition prepareEnvironment : Job unit :=
  (ensureCredentials ;; preventRunawayServers)%job.

(** [createInstance()]. *)
Definition createInstance : Job unit :=
  (status "Creating a new machine instance." ;;
   step Created ;;
   settles (Env.createInstance env))%job.

(** [setup()]. *)
Definition setup : Job unit := createInstance.

(** [runTests()]. *)
Definition runTests : Job unit :=
  (answer <- yesNo "Run automated tests?" "Y" "Y" ;;
   if answer then (step Tested ;; settles (Env.automatedTests env))
   else job_ret tt)%job.

(** [machine.ssh()], the next session. *)
Definition open_session : Job unit :=
  fun r =>
    Some (Env.ssh env (sessions r),
          {| exitCode := exitCode r; steps := steps r ++ [Session];
             typed := typed r; sessions := S (sessions r) |}).

(** [manualSSH()]: the recursion is the call after a session; [fuel] bounds
    the number of questions. *)
Fixpoint manualSSH (fuel : nat) : Job unit :=
  match fuel with
  | O => fun _ => None
  | S fuel' =>
      (answer <- yesNo "SSH into running machine?" "N" "N" ;;
       if answer then (open_session ;; manualSSH fuel') else job_ret tt)%job
  end.

(** [manualSteps()]. *)
Definition manualSteps (fuel : nat) : Job unit := manualSSH fuel.

(** [destroyInstance()]. *)
Definition destroyInstance : Job unit :=
  (answer <- yesNo "Destroy the machine instance?" "Y" "Y" ;;
   if answer
   then (status "Destroying the machine instance." ;;
         step Destroyed ;;
         settles (Env.destroyInstance env))
   else job_ret tt)%job.

(** [cleanup()]. *)
Definition cleanup : Job unit := destroyInstance.

(** The handler of both [catch] calls of [test()]; what it returns is not
    looked at. *)
Definition note_failure (err : Failure) : Job unit :=
  fun r =>
    Some (Ok tt,
          {| exitCode := if exitCode r =? 0 then 1 else exitCode r;
             steps := steps r ++ [Shown err];
             typed := typed r; sessions := sessions r |}).

(** The last callback of [test()]. *)
Definition exit_process : Job unit :=
  fun r =>
    (step (Said ("Exiting with code " ++ show_Z (exitCode r))) ;;
     step (Exited (exitCode r)))%job r.

(** The stages of [test()] before the first [catch]. *)
Definition stages (fuel : nat) : Job unit :=
  (prepareEnvironment ;; setup ;; runTests ;; manualSteps fuel)%job.

(** [test()]. *)
Definition test (fuel : nat) : Job unit :=
  (job_catch (job_catch (stages fuel) note_failure ;; cleanup) note_failure ;;
   exit_process)%job.

End CloudMachineTest.

(** A run in CI against [n] instances, none of them old, with a machine and
    tests that work. *)
Definition ci_env (n : nat) : Env.t :=
  {| Env.isCI := true; Env.noBell := true;
     Env.answers := fun _ => EmptyString;
     Env.trim := fun s => s; Env.toUpperCase := fun s => s;
     Env.getInstances := Ok (repeat {| creation := Some 0 |} n);
     Env.createInstance := Ok tt; Env.destroyInstance := Ok tt;
     Env.ssh := fun _ => Ok tt; Env.automatedTests := Ok tt;
     Env.now := 1000; Env.maxInstances := 10; Env.maxInstanceAge := 4 * hour |}.

(** A run at a terminal where the lines typed are the given ones, then
    empty lines. *)
Definition terminal_env (lines : list string) : Env.t :=
  {| Env.isCI := false; Env.noBell := true;
     Env.answers := fun n => nth n lines EmptyString;
     Env.trim := fun s => s; Env.toUpperCase := fun s => s;
     Env.getInstances := Ok [];
     Env.createInstance := Ok tt; Env.destroyInstance := Ok tt;
     Env.ssh := fun _ => Ok tt; Env.automatedTests := Ok tt;
     Env.now := 1000; Env.maxInstances := 10; Env.maxInstanceAge := 4 * hour |}.

(* ===================================================================== *)
(** ** What a run leaves behind *)
(* ===================================================================== *)

(** The run [r] with the steps [l] after its own. *)
Definition add_steps (l : list Step) (r : Run) : Run :=
  {| exitCode := exitCode r; steps := steps r ++ l;
     typed := typed r; sessions := sessions r |}.

Definition is_shown (s : Step) : bool :=
  match s with Shown _ => true | _ => false end.

Definition is_exit (s : Step) : bool :=
  match s with Exited _ => true | _ => false end.

(** Neither an error written to the console nor the end of the process. *)
Definition calm (s : Step) : bool := negb (is_shown s) && negb (is_exit s).

(** A line or a prompt that starts with [q]. *)
Definition mentions (q : string) (s : Step) : bool :=
  match s with
  | Said line => prefix q line
  | Asked line => prefix q line
  | _ => false
  end.

(** The exit code after a handler ran: zero becomes one, another code stays. *)
Definition failed_code (code : Z) : Z := if code =? 0 then 1 else code.

(** A job is calm when it only adds calm steps and leaves the exit code. *)
Definition calm_job {A} (j : Job A) : Prop :=
  forall r res r',
    j r = Some (res, r') ->
    exitCode r' = exitCode r
    /\ exists l, steps r' = (steps r ++ l)%list /\ forallb calm l = true.

(** The run [r] after the steps [l], [lines] more lines read and [opened]
    more sessions. *)
Definition after (l : list Step) (lines opened : nat) (r : Run) : Run :=
  {| exitCode := exitCode r; steps := steps r ++ l;
     typed := lines + typed r; sessions := opened + sessions r |}.

(** The calls of the machine among the steps. *)
Definition is_machine (s : Step) : bool :=
  match s with
  | Listed | Created | Tested | Session | Destroyed => true
  | _ => false
  end.

Definition machine_steps (l : list Step) : list Step := filter is_machine l.

(** The answer [yesNo] gives when the next line to read is the [n]-th. *)
Definition says_yes (env : Env.t) (consoleDefault ciDefault : string) (n : nat) : bool :=
  if Env.isCI env then yesRegex_test ciDefault
  else yesRegex_test
         (if (0 <? String.length (Env.trim env (Env.answers env n)))%nat
          then Env.trim env (Env.answers env n) else consoleDefault).

(** The two tests of [preventRunawayServers]. *)
Definition too_many (env : Env.t) (instances : list Instance) : bool :=
  Z.of_nat (List.length instances) >? Env.maxInstances env.

Definition stale (env : Env.t) (instances : list Instance) : bool :=
  Z.of_nat (List.length (filter (is_old (Env.now env) (Env.maxInstanceAge env)) instances)) >? 0.

(** The lines a question reads when it is put: one at a terminal, none in
    CI. *)
Definition lines_read (env : Env.t) (asked : bool) : nat :=
  if asked && negb (Env.isCI env) then 1 else 0.

(** What [preventRunawayServers] is rejected with after a no. *)
Definition runaway : Failure := TestFailure (new_TestError "Runaway servers detected." None).

Definition is_ok {A} (res : Result A) : bool :=
  match res with Ok _ => true | Failed _ => false end.

(** In CI, whether the run gets past [preventRunawayServers]: the list of
    instances was read, it is not longer than the limit, and none of the
    instances is old. *)
Definition guard_passes (env : Env.t) : bool :=
  match Env.getInstances env with
  | Ok instances => negb (too_many env instances) && negb (stale env instances)
  | Failed _ => false
  end.

(** The machine [new CloudMachineTest()] is given: the three methods of the
    abstract [TestMachine]. *)
Definition abstract_getInstances : Result (list Instance) := Ok [].
Definition abstract_createInstance : Result unit :=
  Failed (OtherFailure "Abstract TestMachine#createInstance not implemented.").
Definition abstract_destroyInstance : Result unit :=
  Failed (OtherFailure "Abstract TestMachine#destroyInstance not implemented.").

(** A run of [new CloudMachineTest()] as it is, at a terminal where the
    lines typed are the given ones, then empty lines. *)
Definition out_of_the_box (lines : list string) : Env.t :=
  {| Env.isCI := false; Env.noBell := true;
     Env.answers := fun n => nth n lines EmptyString;
     Env.trim := fun s => s; Env.toUpperCase := fun s => s;
     Env.getInstances := abstract_getInstances;
     Env.createInstance := abstract_createInstance;
     Env.destroyInstance := abstract_destroyInstance;
     Env.ssh := fun _ =>
       Failed (OtherFailure "Abstract TestMachine#destroyInstance not implemented.");
     Env.automatedTests := Ok tt;
     Env.now := 1000; Env.maxInstances := 10; Env.maxInstanceAge := 4 * hour |}.

(* ===================================================================== *)
(** ** GCETestMachine *)
(* ===================================================================== *)

(** The double quote of the command lines. *)
Definition dq : string := String (Ascii.ascii_of_nat 34) EmptyString.

(** [this.opts], after the merge with the defaults. *)
Module Opts.
Record t : Type := make {
  prefix : string;
  sshTimeout : Z;
  sshUser : option string
}.
End Opts.

(** The [opts] a caller gives; [None] where a property is left out. *)
Record GivenOpts : Type := mkGivenOpts {
  given_prefix : option string;
  given_sshTimeout : option Z;
  given_sshUser : option string
}.

(** The constructor of [TestMachine]: [merge({}, defaults, opts)], where
    [ci] is whether [process.env.CI] is set to a string that is not empty. *)
Definition merge_opts (ci : bool) (given : GivenOpts) : Opts.t :=
  {| Opts.prefix := match given_prefix given with Some p => p | None => "test-" end;
     Opts.sshTimeout :=
       match given_sshTimeout given with Some t => t | None => 2 * 60 * 1000 end;
     Opts.sshUser :=
       match given_sshUser given with
       | Some u => Some u
       | None => if ci then Some "ci" else None
       end |}.

(** How a command of the machine ends: the promise is fulfilled, the poller
    gave up, or [exec] rejected it for the command line given. *)
Inductive Command : Type :=
| Completed
| GaveUp (e : TestError.t)
| CommandFailed (line : string).

(** A property that may be undefined, inside a template literal. *)
Definition text_of (o : option string) : string :=
  match o with Some s => s | None => "undefined" end.

(** Whether a property that may be undefined is truthy. *)
Definition is_set (o : option string) : bool :=
  match o with
  | Some (String _ _) => true
  | _ => false
  end.

Module GCETestMachine.

Record t : Type := make {
  opts : Opts.t;
  zone : string;
  ensureStartedTimeout : Z;
  _salt : option string;
  _image : option string
}.

(** [new GCETestMachine(opts)]. *)
Definition new (ci : bool) (given : GivenOpts) : t :=
  {| opts := merge_opts ci given;
     zone := "us-east1-d";
     ensureStartedTimeout := 60 * 1000;
     _salt := None;
     _image := None |}.

(** The [machine] of [ssh(command)]. *)
Definition machine_name (m : t) : string :=
  if is_set (Opts.sshUser (opts m))
  then text_of (Opts.sshUser (opts m)) ++ "@" ++ text_of (_image m)
  else text_of (_image m).

Definition ssh_command_line (m : t) (command : string) : string :=
  "gcloud compute ssh " ++ dq ++ machine_name m ++ dq ++ " --quiet --zone " ++ dq
  ++ zone m ++ dq ++ " --command " ++ dq ++ command ++ dq.

(** The line [ssh()] writes without a command; the quote after the zone is
    the one of the source. *)
Definition ssh_hint (m : t) : string :=
  "Run 'gcloud compute ssh " ++ dq ++ machine_name m ++ dq ++ " --zone " ++ dq
  ++ zone m ++ "'.".

(** The template of [createInstance]: a backslash at the end of a line joins
    it to the next, whose indentation stays. *)
Definition create_command_line (m : t) : string :=
  "gcloud compute instances create " ++ dq ++ text_of (_image m) ++ dq ++ " "
  ++ "      --image-family ubuntu-1604-lts "
  ++ "      --image-project ubuntu-os-cloud "
  ++ "      --preemptible "
  ++ "      --zone " ++ dq ++ zone m ++ dq ++ " "
  ++ "      --machine-type n1-standard-1 "
  ++ "      --metadata production=false "
  ++ "      --metadata-from-file user-data=cloud-config.yaml".

Definition delete_command_line (m : t) : string :=
  "gcloud compute instances delete " ++ dq ++ text_of (_image m) ++ dq ++ " --zone " ++ dq
  ++ zone m ++ dq ++ " -q".

Section GCE.

(** [exec(line)]: how the command runs, by its line and the number of [ssh]
    calls made before. *)
Variable exec : string -> nat -> Attempt.
(** How long the user takes to press enter at [ssh()] without a command. *)
Variable enter : nat -> N.

(** [ssh(command)]: the attempt, and what is written to the console before
    it.  [None] is a call without a command. *)
Definition ssh (m : t) (command : option string) (n : nat)
    : Attempt * list string :=
  if is_set command
  then (exec (ssh_command_line m (text_of command)) n, [])
  else ({| takes := enter n; succeeds := true |}, [ssh_hint m]).

(** [this.ssh] as the pollers of [TestMachine] call it, with a command. *)
Definition ssh_of (m : t) : string -> nat -> Attempt :=
  fun command n => fst (ssh m (Some command) n).

(** The machine after the first two lines of [createInstance]; [salt] is
    what [this.salt()] returned. *)
Definition named (salt : string) (m : t) : t :=
  {| opts := opts m; zone := zone m; ensureStartedTimeout := ensureStartedTimeout m;
     _salt := Some salt;
     _image := Some (Opts.prefix (opts m) ++ salt) |}.

(** [createInstance()]: the machine after the call, and how the promise
    settles.  [fuel] is the one of [ensureStarted]. *)
Definition createInstance (salt : string) (fuel : nat) (m : t) (w : World)
    : t * option (Command * World) :=
  let m' := named salt m in
  let a := exec (create_command_line m') (connections w) in
  let w1 := advance (Z.of_N (takes a)) w in
  (m',
   if succeeds a
   then
     match ensureStarted (ssh_of m') (Opts.sshTimeout (opts m')) fuel
             (ensureStartedTimeout m') NotGiven None
             (world_log "Created machine.  Ensuring SSH connection works." w1) with
     | Some (Resolved, w') => Some (Completed, w')
     | Some (Thrown e, w') => Some (GaveUp e, w')
     | Some (RejectedWith e, w') => Some (GaveUp e, w')
     | None => None
     end
   else Some (CommandFailed (create_command_line m'), w1)).

(** [destroyInstance()]. *)
Definition destroyInstance (m : t) (w : World) : Command * World :=
  if is_set (_image m)
  then
    let a := exec (delete_command_line m) (connections w) in
    (if succeeds a then Completed else CommandFailed (delete_command_line m),
     advance (Z.of_N (takes a)) w)
  else (Completed, w).

End GCE.

End GCETestMachine.

(** A cloud where every command takes a second and works, but for the
    connections before the [n]-th, which are refused. *)
Definition cloud_up_at (n : nat) : string -> nat -> Attempt :=
  fun line k =>
    {| takes := 1000;
       succeeds := if prefix "gcloud compute ssh" line then Nat.leb n k else true |}.

(** The same cloud, but that the instances cannot be deleted. *)
Definition cloud_keeping_instances (n : nat) : string -> nat -> Attempt :=
  fun line k =>
    if prefix "gcloud compute instances delete" line
    then {| takes := 1000; succeeds := false |}
    else cloud_up_at n line k.

(** No options given. *)
Definition no_opts : GivenOpts :=
  {| given_prefix := None; given_sshTimeout := None; given_sshUser := None |}.

(* ===================================================================== *)
(** ** Properties of the control signals *)
(* ===================================================================== *)

Lemma kind_assertion (e : Signal) :
  kind_of e = AssertionFailure <-> name_is "AssertionError" e = true.
Proof.
  unfold kind_of.
  destruct (name_is "AssertionError" e).
  - tauto.
  - destruct (name_is "Bypass" e); split; intro H; discriminate H.
Qed.

Lemma kind_not_assertion (e : Signal) :
  kind_of e <> AssertionFailure <-> name_is "AssertionError" e = false.
Proof.
  rewrite kind_assertion.
  destruct (name_is "AssertionError" e); split; congruence.
Qed.


(** [c === c] holds for every value but NaN. *)
Lemma strict_eq_self (c : JsVal) : strict_eq c c = true <-> c <> VNum NaN.
Proof.
  destruct c as [| | b | n | s | r | r conv]; simpl;
    try (split; [ discriminate | reflexivity ]).
  - split; [ discriminate | intros _; apply eqb_reflx ].
  - destruct n as [| s | z]; simpl.
    + split; [ discriminate | congruence ].
    + split; [ discriminate | intros _; apply eqb_reflx ].
    + split; [ discriminate | intros _; apply Z.eqb_refl ].
  - split; [ discriminate | intros _; apply String.eqb_refl ].
  - split; [ discriminate | intros _; apply Nat.eqb_refl ].
  - split; [ discriminate | intros _; apply Nat.eqb_refl ].
Qed.

(** The properties of a signal that is not [undefined] or [null] can be
    read. *)
Lemma readable_signal (prop : string) (s : Signal) (st : State) :
  nullish s = false -> readable prop s st = (Return tt, st).
Proof.
  destruct s as [e | v]; [ reflexivity | ].
  destruct v; try reflexivity; discriminate.
Qed.

Lemma has_name_signal (name : string) (s : Signal) (st : State) :
  nullish s = false -> has_name name s st = (Return (name_is name s), st).
Proof.
  intro H. unfold has_name, bind. rewrite (readable_signal "name" s st H). reflexivity.
Qed.

(** Reading a property of [undefined] or of [null] throws a new TypeError,
    and nothing else happens. *)
Lemma readable_nullish (prop : string) (s : Signal) (st : State) :
  nullish s = true ->
  exists message,
    readable prop s st
    = (Throw (new_error "TypeError" message VUndefined (nextRef st)),
       {| indentation := indentation st; listeners := listeners st;
          trace := trace st; nextRef := S (nextRef st) |}).
Proof.
  destruct s as [e | v]; [ discriminate | ].
  destruct v; try discriminate; intros _; eexists; reflexivity.
Qed.

(** A rejected promise passes every [then]: none of the chained checks runs. *)
Lemma then_checks_rejected (checks : list (string * Action Ret)) :
  forall (p : Async) (st st' : State) (e : Signal),
    p st = (Rejected e, st') ->
    then_checks p checks st = (Rejected e, st').
Proof.
  induction checks as [| [name contents] rest IH]; intros p st st' e Hp; simpl.
  - exact Hp.
  - apply IH. unfold p_then. rewrite Hp. reflexivity.
Qed.

Lemma startBypass_on_assertion (code : JsVal) (text : string) (err : Signal) (st : State) :
  kind_of err = AssertionFailure ->
  to_string code = Converts text ->
  startBypass code err st =
    (Throw (Bypass text code (nextRef st)),
     {| indentation := indentation st; listeners := listeners st;
        trace := trace st; nextRef := S (nextRef st) |}).
Proof.
  intros H Htext. apply kind_assertion in H.
  assert (Hread : nullish err = false).
  { destruct err as [e | v]; [ reflexivity | discriminate H ]. }
  unfold startBypass, bind. rewrite (has_name_signal _ _ _ Hread), H.
  unfold new_Bypass. rewrite Htext. reflexivity.
Qed.

(** An AssertionFailure and a code that cannot be converted: the error of
    the conversion is raised in the place of a Bypass. *)
Lemma startBypass_unconverted (code : JsVal) (name message : string) (err : Signal)
    (st : State) :
  kind_of err = AssertionFailure ->
  to_string code = Raises name message ->
  startBypass code err st =
    (Throw (new_error name message VUndefined (nextRef st)),
     {| indentation := indentation st; listeners := listeners st;
        trace := trace st; nextRef := S (nextRef st) |}).
Proof.
  intros H Htext. apply kind_assertion in H.
  assert (Hread : nullish err = false).
  { destruct err as [e | v]; [ reflexivity | discriminate H ]. }
  unfold startBypass, bind. rewrite (has_name_signal _ _ _ Hread), H.
  unfold new_Bypass. rewrite Htext. reflexivity.
Qed.

Lemma startBypass_on_other (code : JsVal) (err : Signal) (st : State) :
  nullish err = false ->
  kind_of err <> AssertionFailure ->
  startBypass code err st =
    (Throw err,
     {| indentation := indentation st; listeners := listeners st;
        trace := trace st ++ [Console Warn (Text "Refusing to bypass non-AssertionError");
                              Console Error (shown err)];
        nextRef := nextRef st |}).
Proof.
  intros Hread H. apply kind_not_assertion in H.
  unfold startBypass. unfold bind at 1. rewrite (has_name_signal _ _ _ Hread), H.
  unfold bind, console_warn, console_error, emit_event, throw. simpl.
  rewrite <- app_assoc. reflexivity.
Qed.

(** The handler of [allowAssertion] raises again what is not an
    AssertionFailure, with or without a callback. *)
Lemma allowing_on_other (cb : option Callback) (err : Signal) (st : State) :
  nullish err = false ->
  kind_of err <> AssertionFailure ->
  allowing cb err st = (Throw err, st).
Proof.
  intros Hread H. apply kind_not_assertion in H.
  unfold allowing, allowAssertion. unfold bind at 1. unfold bind at 1.
  rewrite (has_name_signal _ _ _ Hread), H. reflexivity.
Qed.

(** The handler of [resumeBypass(code)] on an object. *)
Lemma resumeBypass_on_object (code : JsVal) (b : JsError) (st : State) :
  resumeBypass code b st
  = if negb (String.eqb (Err.name b) "Bypass") || strict_neq (Err.code b) code
    then (Throw (Object b), st)
    else (Return (Plain (VBool true)), st).
Proof.
  unfold resumeBypass, has_name, readable, bind, ret, throw. cbn [name_is code_of].
  destruct (negb (String.eqb (Err.name b) "Bypass") || strict_neq (Err.code b) code);
    reflexivity.
Qed.








(** C2, as amended.  For a code that is strictly equal to itself and has a
    string form (every code but NaN, a Symbol and an object whose conversion
    throws): the handler of [startBypass(code)] applied to an
    AssertionFailure, then the handler of [resumeBypass(code)], completes,
    and the checks chained in between are passed over without their bodies
    being called.  And for every code, NaN and Symbols included, the handler
    of [resumeBypass(code)] raises again, unchanged, the signal that
    [startBypass(other)] made of an AssertionFailure when [other !== code]
    and [other] is not an object whose conversion throws: the Bypass for
    [other], when [other] has a string form. *)
Theorem bypass_round_trip (code : JsVal) :
  (forall (f : Signal) (text : string) (checks : list (string * Action Ret)) (st : State),
     kind_of f = AssertionFailure ->
     strict_eq code code = true ->
     to_string code = Converts text ->
     p_catch
       (then_checks (p_catch (settled (Rejected f)) (startBypass code)) checks)
       (resumeBypass code) st
     = (Fulfilled (VBool true),
        {| indentation := indentation st; listeners := listeners st;
           trace := trace st; nextRef := S (nextRef st) |}))
  /\ (forall (other : JsVal) (g b : Signal) (st0 st1 st : State),
        strict_neq other code = true ->
        throws_in_conversion other = false ->
        kind_of g = AssertionFailure ->
        startBypass other g st0 = (Throw b, st1) ->
        resumeBypass code b st = (Throw b, st)
        /\ forall text, to_string other = Converts text ->
                        b = Bypass text other (nextRef st0)).
Proof.
  split.
  - intros f text checks st Hf Hcode Htext. unfold p_catch at 1.
    rewrite then_checks_rejected
      with (e := Object (Bypass text code (nextRef st)))
           (st' := {| indentation := indentation st; listeners := listeners st;
                      trace := trace st; nextRef := S (nextRef st) |}).
    + unfold settle. rewrite resumeBypass_on_object. unfold strict_neq. simpl.
      rewrite Hcode. reflexivity.
    + unfold p_catch, settled, settle.
      rewrite (startBypass_on_assertion code text f st Hf Htext). reflexivity.
  - intros other g b st0 st1 st Hneq Hconv Hg Hrun.
    destruct (to_string other) as [text | name message] eqn:Htext.
    + rewrite (startBypass_on_assertion other text g st0 Hg Htext) in Hrun.
      inversion Hrun; subst. split.
      * rewrite resumeBypass_on_object. simpl. rewrite Hneq. reflexivity.
      * intros text' Htext'. inversion Htext'; subst. reflexivity.
    + rewrite (startBypass_unconverted other name message g st0 Hg Htext) in Hrun.
      inversion Hrun; subst. split; [ | intros text' Htext'; discriminate Htext' ].
      destruct other as [| | [|] | [| [|] | z] | x | r | r [x | n m]];
        try discriminate Htext; try discriminate Hconv.
      simpl in Htext. inversion Htext; subst.
      rewrite resumeBypass_on_object. reflexivity.
Qed.

(** The round trip for the code ["should-fail"], with one check chained
    between the two handlers; and the handler of [resumeBypass(NaN)] on the
    signal of [startBypass("should-fail")]. *)
Lemma bypass_round_trip_witness :
  kind_of (assertion_error 0) = AssertionFailure
  /\ strict_eq (VStr "should-fail") (VStr "should-fail") = true
  /\ to_string (VStr "should-fail") = Converts "should-fail"
  /\ p_catch
       (then_checks
          (p_catch (settled (Rejected (assertion_error 0)))
             (startBypass (VStr "should-fail")))
          [("should not run", throwing (assertion_error 7))])
       (resumeBypass (VStr "should-fail")) (engine_after 1)
     = (Fulfilled (VBool true), engine_after 2)
  /\ strict_neq (VStr "should-fail") (VNum NaN) = true
  /\ throws_in_conversion (VStr "should-fail") = false
  /\ startBypass (VStr "should-fail") (assertion_error 0) (engine_after 1)
     = (Throw (Bypass "should-fail" (VStr "should-fail") 1), engine_after 2)
  /\ resumeBypass (VNum NaN) (Bypass "should-fail" (VStr "should-fail") 1) (engine_after 2)
     = (Throw (Bypass "should-fail" (VStr "should-fail") 1), engine_after 2).
Proof.
  split; [ reflexivity | split; [ reflexivity | split; [ reflexivity | ] ] ].
  split.
  - exact (proj1 (bypass_round_trip (VStr "should-fail"))
             (assertion_error 0) "should-fail"
             [("should not run", throwing (assertion_error 7))] (engine_after 1)
             eq_refl eq_refl eq_refl).
  - split; [ reflexivity | split; [ reflexivity | split; [ reflexivity | ] ] ].
    exact (proj1 (proj2 (bypass_round_trip (VNum NaN))
                    (VStr "should-fail") (assertion_error 0)
                    (Bypass "should-fail" (VStr "should-fail") 1)
                    (engine_after 1) (engine_after 2) (engine_after 2)
                    eq_refl eq_refl eq_refl eq_refl)).
Defined.

(** C2 as stated fails for the code NaN, for a Symbol, and for an object
    whose conversion throws.  [NaN !== NaN], so the handler of
    [resumeBypass(NaN)] raises the Bypass made by [startBypass(NaN)] again.
    [startBypass] of a Symbol makes no Bypass: the template literal of the
    message throws a TypeError, which the resume handler of the same Symbol
    raises again.  And when the conversion of [other] throws an error that is
    itself named Bypass, the handler of [resumeBypass(undefined)] takes it
    for a Bypass without a code, and completes. *)
Lemma bypass_round_trip_NaN :
  p_catch
    (p_catch (settled (Rejected (assertion_error 0))) (startBypass (VNum NaN)))
    (resumeBypass (VNum NaN)) (engine_after 1)
  = (Rejected (Bypass "NaN" (VNum NaN) 1), engine_after 2)
  /\ strict_eq (VSym 0) (VSym 0) = true
  /\ p_catch
       (p_catch (settled (Rejected (assertion_error 0))) (startBypass (VSym 0)))
       (resumeBypass (VSym 0)) (engine_after 1)
     = (Rejected (new_error "TypeError" "Cannot convert a Symbol value to a string"
                    VUndefined 1),
        engine_after 2)
  /\ strict_neq (VObj 0 (Raises "Bypass" "no string form")) VUndefined = true
  /\ p_catch
       (p_catch (settled (Rejected (assertion_error 0)))
          (startBypass (VObj 0 (Raises "Bypass" "no string form"))))
       (resumeBypass VUndefined) (engine_after 1)
     = (Fulfilled (VBool true), engine_after 2).
Proof. repeat split; reflexivity. Qed.

(* ===================================================================== *)
(** ** Sections *)
(* ===================================================================== *)

Lemma indent_in_range (st : State) :
  array_length_ok (indentation st + 1) = true ->
  indent st = (Return (repeat_string "  " (Z.to_nat (indentation st))), st).
Proof.
  intro H. unfold indent. rewrite H.
  replace (indentation st + 1 - 1) with (indentation st) by lia. reflexivity.
Qed.

Lemma state_eta (st : State) :
  {| indentation := indentation st; listeners := listeners st;
     trace := trace st; nextRef := nextRef st |} = st.
Proof. destruct st; reflexivity. Qed.

Lemma stack_or_value_signal (s : Signal) (st : State) :
  nullish s = false -> stack_or_value s st = (Return (stack_or_self s), st).
Proof.
  intro H. unfold stack_or_value, bind. rewrite (readable_signal "stack" s st H).
  reflexivity.
Qed.

(** The header of a section, up to the call of its body. *)
Lemma section_enters (name : string) (contents : Action Ret) (st : State) :
  array_length_ok (indentation st + 1) = true ->
  section name contents st
  = match contents (section_entry name (repeat_string "  " (Z.to_nat (indentation st))) st)
    with
    | (Return r, st1) =>
        let (s, st') :=
          p_then
            (p_catch (settled (Promise_resolve r))
               (fun err =>
                  console_warn (Text ("Encountered error in section " ++ name ++ ".")) ;;
                  what <- stack_or_value err ;;
                  console_warn what ;;
                  ret (Plain (VBool true))))
            (fun _ => d <- decr ;; ret (Plain (VNum (Finite d))))
            st1 in
        (Return s, st')
    | (Throw thrown, st1) => (Throw thrown, st1)
    end.
Proof.
  intros Hlen. unfold section, bind at 1, console_log, emit_event.
  unfold bind at 1. unfold indent. simpl. rewrite Hlen.
  replace (indentation st + 1 - 1) with (indentation st) by lia.
  unfold bind at 1 2 3, incr, set_indentation. simpl.
  rewrite <- !app_assoc. simpl.
  unfold section_entry, bind.
  destruct (contents _) as [[r | thrown] st1]; reflexivity.
Qed.

(** A section whose body returns: the promise is fulfilled, whatever the
    body's promise did, unless it was rejected with [undefined] or [null]. *)
Lemma section_run (name : string) (contents : Action Ret) (st : State)
    (r : Ret) (st1 : State) :
  array_length_ok (indentation st + 1) = true ->
  contents (section_entry name (repeat_string "  " (Z.to_nat (indentation st))) st)
    = (Return r, st1) ->
  unreadable (Promise_resolve r) = false ->
  section name contents st
  = (Return (Fulfilled (VNum (Finite (indentation st1 - 1)))), section_exit name r st1).
Proof.
  intros Hlen Hbody Hread. rewrite (section_enters name contents st Hlen), Hbody.
  unfold section_exit, p_then, p_catch, settled, settle.
  destruct (Promise_resolve r) as [v | err]; simpl.
  - rewrite app_nil_r. reflexivity.
  - simpl in Hread.
    unfold bind at 1, console_warn at 1, emit_event. unfold bind at 1.
    rewrite (stack_or_value_signal err _ Hread).
    unfold console_warn, emit_event, decr, set_indentation, ret, bind. simpl.
    rewrite <- app_assoc. reflexivity.
Qed.

(** A section whose body throws: the exception leaves [section] as it is,
    in the state the body left, one level deeper than the call. *)
Lemma section_body_throws (name : string) (contents : Action Ret) (st : State)
    (thrown : Signal) (st1 : State) :
  array_length_ok (indentation st + 1) = true ->
  contents (section_entry name (repeat_string "  " (Z.to_nat (indentation st))) st)
    = (Throw thrown, st1) ->
  section name contents st = (Throw thrown, st1).
Proof.
  intros Hlen Hbody. rewrite (section_enters name contents st Hlen), Hbody. reflexivity.
Qed.

(** A section whose body's promise is rejected with [undefined] or [null]:
    the [catch] callback throws when it reads [err.stack], after its first
    warning, and [section]'s promise is rejected with that TypeError; the
    decrement is skipped. *)
Lemma section_unreadable (name : string) (contents : Action Ret) (st : State)
    (r : Ret) (err : Signal) (st1 : State) :
  array_length_ok (indentation st + 1) = true ->
  contents (section_entry name (repeat_string "  " (Z.to_nat (indentation st))) st)
    = (Return r, st1) ->
  Promise_resolve r = Rejected err ->
  nullish err = true ->
  exists message,
    section name contents st
    = (Return (Rejected (new_error "TypeError" message VUndefined (nextRef st1))),
       {| indentation := indentation st1; listeners := listeners st1;
          trace := trace st1
                   ++ [Console Warn (Text ("Encountered error in section " ++ name ++ "."))];
          nextRef := S (nextRef st1) |}).
Proof.
  intros Hlen Hbody Hr Hnull. rewrite (section_enters name contents st Hlen), Hbody.
  unfold p_then, p_catch, settled, settle. rewrite Hr.
  unfold bind at 1, console_warn at 1, emit_event. unfold bind at 1.
  unfold stack_or_value. unfold bind at 1.
  destruct (readable_nullish "stack" err
              {| indentation := indentation st1; listeners := listeners st1;
                 trace := trace st1
                          ++ [Console Warn
                                (Text ("Encountered error in section " ++ name ++ "."))];
                 nextRef := nextRef st1 |} Hnull) as [message Hm].
  exists message. cbn [fst snd]. unfold chalk_gray. rewrite Hm. reflexivity.
Qed.

(** C3.  [section] does not absorb everything that escapes its body.  A
    body that throws an AssertionError makes [section] throw it: nothing is
    written but the header, and the depth stays one level deeper.  Called in
    a chain before a second section, the first then rejects the chain and
    the second is never run.  And a body whose promise is rejected with
    [undefined] makes [section] return a rejected promise: its [catch]
    callback throws a TypeError when it reads [err.stack]. *)
Theorem section_lets_failures_out :
  section "Root User" (throwing (assertion_error 0)) (engine_after 1)
  = (Throw (assertion_error 0), section_entry "Root User" "" (engine_after 1))
  /\ p_then
       (p_then (settled (Fulfilled VUndefined))
          (fun _ => in_callback (section "Root User" (throwing (assertion_error 0)))))
       (fun _ => in_callback (section "Directory Existence" (ret (Plain VUndefined))))
       (engine_after 1)
     = (Rejected (assertion_error 0), section_entry "Root User" "" (engine_after 1))
  /\ section "Root User" (rejecting (Value VUndefined)) (engine_after 1)
     = (Return (Rejected (new_error "TypeError"
                            "Cannot read properties of undefined (reading 'stack')"
                            VUndefined 1)),
        {| indentation := 1; listeners := [];
           trace := [Console Log (Text ""); Console Log (Text "Root User");
                     Console Log (Text "");
                     Console Warn (Text "Encountered error in section Root User.")];
           nextRef := 2 |}).
Proof. repeat split; reflexivity. Qed.

(** When the body returns (a value or a promise, which may reject, though
    not with [undefined] or [null]) and the depth is one [indent()] can
    print, [section] returns a fulfilled promise: a rejection of the body's
    promise, of any kind, is written to the console as two warnings and goes
    no further, and the caller's next [then] callback runs. *)
Theorem section_absorbs (name : string) (contents : Action Ret) (st : State)
    (r : Ret) (st1 : State)
    (Hdepth : array_length_ok (indentation st + 1) = true)
    (Hbody : contents (section_entry name
                         (repeat_string "  " (Z.to_nat (indentation st))) st)
             = (Return r, st1))
    (Hread : unreadable (Promise_resolve r) = false) :
  section name contents st
  = (Return (Fulfilled (VNum (Finite (indentation st1 - 1)))), section_exit name r st1)
  /\ (forall err, Promise_resolve r = Rejected err ->
        trace (section_exit name r st1)
        = (trace st1
           ++ [Console Warn (Text ("Encountered error in section " ++ name ++ "."));
               Console Warn (stack_or_self err)])%list)
  /\ (forall next : JsVal -> Action Ret,
        p_then
          (p_then (settled (Fulfilled VUndefined))
             (fun _ => in_callback (section name contents)))
          next st
        = settle (next (VNum (Finite (indentation st1 - 1)))) (section_exit name r st1)).
Proof.
  pose proof (section_run name contents st r st1 Hdepth Hbody Hread) as Hrun.
  split; [ exact Hrun | split ].
  - intros err Herr. unfold section_exit. simpl. rewrite Herr. reflexivity.
  - intro next. unfold p_then, settled, settle, in_callback, bind. rewrite Hrun.
    reflexivity.
Qed.

(** A section whose body returns a promise rejected with an AssertionError. *)
Lemma section_absorbs_witness :
  array_length_ok (indentation (engine_after 1) + 1) = true
  /\ rejecting (assertion_error 0)
       (section_entry "Root User"
          (repeat_string "  " (Z.to_nat (indentation (engine_after 1))))
          (engine_after 1))
     = (Return (Promise (Rejected (assertion_error 0))),
        section_entry "Root User" "" (engine_after 1))
  /\ unreadable (Promise_resolve (Promise (Rejected (assertion_error 0)))) = false
  /\ section "Root User" (rejecting (assertion_error 0)) (engine_after 1)
     = (Return (Fulfilled (VNum (Finite 0))),
        section_exit "Root User" (Promise (Rejected (assertion_error 0)))
          (section_entry "Root User" "" (engine_after 1))).
Proof.
  split; [ reflexivity | split; [ reflexivity | split; [ reflexivity | ] ] ].
  exact (proj1 (section_absorbs "Root User" (rejecting (assertion_error 0))
                  (engine_after 1) (Promise (Rejected (assertion_error 0)))
                  (section_entry "Root User" "" (engine_after 1))
                  eq_refl eq_refl eq_refl)).
Defined.

Lemma nest_depth_nonneg (n : Nest) : 0 <= nest_depth n.
Proof. induction n; cbn [nest_depth]; lia. Qed.

(** A nest of sections returns, at the depth it was called at, and what it
    returns is not a promise rejected with [undefined] or [null]. *)
Lemma run_nest_returns (n : Nest) :
  forall st : State,
    readable_leaves n = true ->
    -1 <= indentation st ->
    indentation st + nest_depth n <= 4294967295 ->
    exists r st',
      run_nest n st = (Return r, st')
      /\ indentation st' = indentation st
      /\ unreadable (Promise_resolve r) = false.
Proof.
  induction n as [s | name inner IH | first IH1 second IH2];
    intros st Hleaves Hlow Hhigh; cbn [run_nest nest_depth readable_leaves] in *.
  - exists (Promise s), st. repeat split.
    cbn [Promise_resolve]. destruct (unreadable s); [ discriminate Hleaves | reflexivity ].
  - pose proof (nest_depth_nonneg inner) as Hd.
    assert (Hlen : array_length_ok (indentation st + 1) = true).
    { unfold array_length_ok. apply andb_true_iff. split; apply Z.leb_le; lia. }
    destruct (IH (section_entry name (repeat_string "  " (Z.to_nat (indentation st))) st))
      as [r [st1 [Hrun [Hsame Hread]]]]; simpl; try lia; try assumption.
    unfold in_callback, bind.
    rewrite (section_run name (run_nest inner) st r st1 Hlen Hrun Hread).
    eexists. eexists. split; [ reflexivity | split; [ | reflexivity ] ].
    simpl. simpl in Hsame. lia.
  - apply andb_true_iff in Hleaves. destruct Hleaves as [Hl1 Hl2].
    destruct (IH1 st) as [r [st1 [Hrun1 [Hsame1 Hread1]]]]; try lia; try assumption.
    unfold bind. rewrite Hrun1. unfold returning, p_then, settled, settle.
    destruct (Promise_resolve r) as [v | err] eqn:Hr.
    + destruct (IH2 st1) as [r2 [st2 [Hrun2 [Hsame2 Hread2]]]]; try lia; try assumption.
      rewrite Hrun2. eexists. eexists.
      split; [ reflexivity | split; [ lia | exact Hread2 ] ].
    + eexists. eexists. split; [ reflexivity | split; [ lia | exact Hread1 ] ].
Qed.

(** Nests of sections: innermost bodies that return a settled promise,
    bodies that return the promise of a section, and bodies that chain a
    second nest after a first with [then].  When no innermost promise is
    rejected with [undefined] or [null], and the call is made at a depth from
    0 up at which [indent()] can print every level, the outermost call
    returns a fulfilled promise and the depth is then what it was before the
    call, also when innermost promises reject. *)
Theorem nested_sections_restore_depth (name : string) (n : Nest) (st : State)
    (Hleaves : readable_leaves n = true)
    (Hlow : 0 <= indentation st)
    (Hhigh : indentation st + 1 + nest_depth n <= 4294967295) :
  exists v st',
    section name (run_nest n) st = (Return (Fulfilled v), st')
    /\ indentation st' = indentation st.
Proof.
  pose proof (nest_depth_nonneg n) as Hd.
  assert (Hlen : array_length_ok (indentation st + 1) = true).
  { unfold array_length_ok. apply andb_true_iff. split; apply Z.leb_le; lia. }
  destruct (run_nest_returns n
              (section_entry name (repeat_string "  " (Z.to_nat (indentation st))) st))
    as [r [st1 [Hrun [Hsame Hread]]]]; simpl; try lia; try assumption.
  rewrite (section_run name (run_nest n) st r st1 Hlen Hrun Hread).
  eexists. eexists. split; [ reflexivity | ].
  simpl. simpl in Hsame. lia.
Qed.

(** Two sections, the first with a rejected body, inside a third. *)
Lemma nested_sections_restore_depth_witness :
  readable_leaves (AndThen (Sect "a" (Leaf (Rejected (assertion_error 0))))
                           (Sect "b" (Leaf (Fulfilled VNull)))) = true
  /\ 0 <= indentation (engine_after 1)
  /\ indentation (engine_after 1) + 1
     + nest_depth (AndThen (Sect "a" (Leaf (Rejected (assertion_error 0))))
                           (Sect "b" (Leaf (Fulfilled VNull)))) <= 4294967295
  /\ exists v st',
       section "outer"
         (run_nest (AndThen (Sect "a" (Leaf (Rejected (assertion_error 0))))
                            (Sect "b" (Leaf (Fulfilled VNull)))))
         (engine_after 1)
       = (Return (Fulfilled v), st')
       /\ indentation st' = indentation (engine_after 1).
Proof.
  assert (Hlow : 0 <= indentation (engine_after 1)) by (simpl; lia).
  assert (Hhigh : indentation (engine_after 1) + 1
     + nest_depth (AndThen (Sect "a" (Leaf (Rejected (assertion_error 0))))
                           (Sect "b" (Leaf (Fulfilled VNull)))) <= 4294967295)
    by (simpl; lia).
  split; [ reflexivity | split; [ exact Hlow | split; [ exact Hhigh | ] ] ].
  exact (nested_sections_restore_depth "outer"
           (AndThen (Sect "a" (Leaf (Rejected (assertion_error 0))))
                    (Sect "b" (Leaf (Fulfilled VNull))))
           (engine_after 1) eq_refl Hlow Hhigh).
Defined.

(** C4.  The increment of a section is not always taken back.  An inner
    section whose body throws, called in a [then] callback of the outer
    body, leaves before its decrement is chained: the outer section absorbs
    the rejection and returns a fulfilled promise, one level deeper than it
    was called.  And a section whose body's promise is rejected with [null]
    returns a rejected promise, its decrement skipped, one level deeper
    too. *)
Theorem inner_throw_leaves_depth :
  indentation (engine_after 1) = 0
  /\ section "outer"
       (returning
          (p_then (settled (Fulfilled VUndefined))
             (fun _ => in_callback (section "inner" (throwing (assertion_error 0))))))
       (engine_after 1)
     = (Return (Fulfilled (VNum (Finite 1))),
        {| indentation := 1; listeners := [];
           trace := [Console Log (Text ""); Console Log (Text "outer"); Console Log (Text "");
                     Console Log (Text ""); Console Log (Text "  inner"); Console Log (Text "");
                     Console Warn (Text "Encountered error in section outer.");
                     Console Warn (stack_or_self (assertion_error 0))];
           nextRef := 1 |})
  /\ section "outer" (rejecting (Value VNull)) (engine_after 1)
     = (Return (Rejected (new_error "TypeError"
                            "Cannot read properties of null (reading 'stack')"
                            VUndefined 1)),
        {| indentation := 1; listeners := [];
           trace := [Console Log (Text ""); Console Log (Text "outer"); Console Log (Text "");
                     Console Warn (Text "Encountered error in section outer.")];
           nextRef := 2 |}).
Proof. repeat split; reflexivity. Qed.

(* ===================================================================== *)
(** ** Checks *)
(* ===================================================================== *)

Lemma call_listeners_quiet (err : Signal) (ls : list Listener) :
  forall (i : nat) (st : State),
    (forall l, In l ls -> l err = None) ->
    call_listeners i ls err st
    = (Return tt,
       {| indentation := indentation st; listeners := listeners st;
          trace := trace st ++ notifications i ls err; nextRef := nextRef st |}).
Proof.
  induction ls as [| l rest IH]; intros i st Hquiet; simpl.
  - rewrite app_nil_r, state_eta. reflexivity.
  - unfold bind, emit_event. rewrite (Hquiet l (or_introl eq_refl)).
    rewrite IH by (intros l' Hin; apply Hquiet; right; exact Hin).
    simpl. rewrite <- app_assoc. reflexivity.
Qed.

(** A check whose body completes: one success line, nothing raised. *)
Lemma it_passes (name : string) (contents : Action Ret) (st st0 : State) (v : JsVal) :
  settle contents st = (Fulfilled v, st0) ->
  array_length_ok (indentation st0 + 1) = true ->
  it name contents st
  = (Fulfilled VUndefined,
     {| indentation := indentation st0; listeners := listeners st0;
        trace := trace st0
                 ++ [Console Log (Text (repeat_string "  " (Z.to_nat (indentation st0))
                                        ++ check_mark ++ name))];
        nextRef := nextRef st0 |}).
Proof.
  intros Hbody Hlen. unfold it, p_catch, p_then, settled.
  rewrite Hbody. unfold report_success, settle, bind.
  rewrite (indent_in_range st0 Hlen). reflexivity.
Qed.

(** A check whose body fails while nothing listens for ["error"]: the emit
    throws the signal, and the handler ends before it has written a line. *)
Lemma it_fails_unobserved (name : string) (contents : Action Ret) (st st0 : State)
    (f : JsError) :
  settle contents st = (Rejected f, st0) ->
  listeners st0 = [] ->
  Err.isError f = true ->
  it name contents st = (Rejected f, st0).
Proof.
  intros Hbody Hnone Herr. unfold it, p_catch, p_then, settled.
  rewrite Hbody. unfold report_failure, settle, bind, emit_error.
  rewrite Hnone. cbn [is_error]. rewrite Herr. reflexivity.
Qed.

Lemma deeper_prefix (d : Z) :
  0 <= d ->
  repeat_string "  " (Z.to_nat (d + 1)) = "  " ++ repeat_string "  " (Z.to_nat d).
Proof.
  intro H. replace (d + 1) with (Z.succ d) by lia.
  rewrite Z2Nat.inj_succ by lia. reflexivity.
Qed.

(** A check whose body fails while listeners that return are registered, for
    a signal with a stack: the listeners are told, the failure marker and
    the name are written as one warning, the stack follows under the prefix
    of the next depth, and the signal is raised again as it came, at the
    depth of before. *)
Lemma it_fails_observed (name : string) (contents : Action Ret) (st st0 : State)
    (f : JsError) (s : string) :
  settle contents st = (Rejected f, st0) ->
  listeners st0 <> [] ->
  (forall l, In l (listeners st0) -> l f = None) ->
  truthy_stack f = Some s ->
  array_length_ok (indentation st0 + 1) = true ->
  array_length_ok (indentation st0 + 1 + 1) = true ->
  it name contents st
  = (Rejected f,
     {| indentation := indentation st0; listeners := listeners st0;
        trace := trace st0
                 ++ notifications 0 (listeners st0) f
                 ++ [Console Warn (Text (repeat_string "  " (Z.to_nat (indentation st0))
                                         ++ cross_mark ++ name));
                     Console Log
                       (Text (repeat_string "  " (Z.to_nat (indentation st0 + 1))
                              ++ replace_newlines
                                   (nl ++ repeat_string "  " (Z.to_nat (indentation st0 + 1)))
                                   s))];
        nextRef := nextRef st0 |}).
Proof.
  intros Hbody Hsome Hquiet Hstack Hlen1 Hlen2. unfold it, p_catch, p_then, settled.
  rewrite Hbody. unfold report_failure, settle. unfold bind at 1. unfold emit_error.
  destruct (listeners st0) as [| l ls] eqn:Hls; [ congruence | ].
  unfold bind at 1. rewrite call_listeners_quiet by exact Hquiet.
  unfold ret at 1. unfold bind at 1. rewrite indent_in_range by exact Hlen1.
  cbn [indentation]. unfold bind at 1. unfold console_warn, emit_event at 1.
  unfold bind at 1. unfold incr, set_indentation.
  unfold bind at 1. rewrite stack_or_value_signal by reflexivity.
  unfold bind at 1. unfold indentLines, stack_or_self. rewrite Hstack.
  unfold bind. cbn [indentation listeners trace nextRef].
  rewrite !indent_in_range by exact Hlen2.
  unfold ret, console_log, emit_event, decr, set_indentation, throw.
  cbn [indentation listeners trace nextRef adopt].
  replace (indentation st0 + 1 - 1) with (indentation st0) by lia.
  rewrite Hls. rewrite <- !app_assoc. reflexivity.
Qed.

Lemma call_listeners_depth (err : Signal) (ls : list Listener) :
  forall (i : nat) (st : State),
    indentation (snd (call_listeners i ls err st)) = indentation st.
Proof.
  induction ls as [| l rest IH]; intros i st; simpl.
  - reflexivity.
  - unfold bind, emit_event. destruct (l err) as [thrown |].
    + reflexivity.
    + rewrite IH. reflexivity.
Qed.

Lemma emit_error_depth (err : Signal) (st : State) :
  indentation (snd (emit_error err st)) = indentation st.
Proof.
  unfold emit_error. destruct (listeners st) as [| l ls] eqn:Hls.
  - destruct (is_error err); reflexivity.
  - unfold bind.
    pose proof (call_listeners_depth err (l :: ls) 0 st) as H.
    destruct (call_listeners 0 (l :: ls) err st) as [[u | thrown] st']; exact H.
Qed.

Lemma indent_cases (st : State) :
  (array_length_ok (indentation st + 1) = true
   /\ indent st = (Return (repeat_string "  " (Z.to_nat (indentation st))), st))
  \/ (array_length_ok (indentation st + 1) = false
      /\ exists e st', indent st = (Throw e, st') /\ indentation st' = indentation st).
Proof.
  destruct (array_length_ok (indentation st + 1)) eqn:Hlen.
  - left. split; [ reflexivity | apply indent_in_range; exact Hlen ].
  - right. split; [ reflexivity | ]. unfold indent. rewrite Hlen.
    eexists. eexists. split; reflexivity.
Qed.

(** The failure callback of [it], for a signal with a stack, ends at the
    depth it started at. *)
Lemma report_failure_depth (name : string) (err : Signal) (st : State) :
  truthy_stack err <> None ->
  indentation st + 2 <= 4294967295 ->
  indentation (snd (report_failure name err st)) = indentation st.
Proof.
  intros Hstack Hhigh. unfold report_failure. unfold bind at 1.
  pose proof (emit_error_depth err st) as Hemit.
  destruct (emit_error err st) as [[b | thrown] st1]; simpl in Hemit; [ | exact Hemit ].
  unfold bind at 1.
  destruct (indent_cases st1) as [[Hlen Hind] | [Hlen [e [st' [Hind Hsame]]]]];
    rewrite Hind; [ | simpl; lia ].
  unfold bind at 1. unfold console_warn, emit_event at 1.
  unfold bind at 1. unfold incr, set_indentation.
  assert (Hread : nullish err = false).
  { destruct err as [e | v]; [ reflexivity | exfalso; apply Hstack; reflexivity ]. }
  unfold bind at 1. rewrite (stack_or_value_signal err _ Hread).
  unfold bind at 1. unfold indentLines, stack_or_self.
  destruct (truthy_stack err) as [s |]; [ | congruence ].
  assert (Hlen2 : array_length_ok (indentation st1 + 1 + 1) = true).
  { unfold array_length_ok in *. apply andb_true_iff in Hlen. destruct Hlen as [Hlow _].
    apply Z.leb_le in Hlow. apply andb_true_iff. split; apply Z.leb_le; lia. }
  unfold bind. cbn [indentation listeners trace nextRef].
  rewrite !indent_in_range by exact Hlen2.
  unfold ret, console_log, emit_event, decr, set_indentation, throw.
  cbn [indentation snd]. lia.
Qed.

(** A check ends at the depth its body left, on every path on which the
    signal to report has a stack. *)
Lemma it_restores_depth (name : string) (contents : Action Ret) (st st0 : State)
    (s0 : Settled) :
  settle contents st = (s0, st0) ->
  (forall e, s0 = Rejected e -> truthy_stack e <> None) ->
  indentation st0 + 2 <= 4294967295 ->
  indentation (snd (it name contents st)) = indentation st0.
Proof.
  intros Hbody Hstack Hhigh. unfold it, p_catch, p_then, settled.
  rewrite Hbody. destruct s0 as [v | e].
  - unfold settle. unfold report_success. unfold bind at 1.
    destruct (indent_cases st0) as [[Hlen Hind] | [Hlen [e [st' [Hind Hsame]]]]];
      rewrite Hind.
    + reflexivity.
    + cbn [adopt].
      pose proof (report_failure_depth name e st') as Hdepth.
      destruct (report_failure name e st') as [o st2]. simpl in *.
      rewrite <- Hsame. apply Hdepth; [ | lia ].
      unfold indent in Hind. rewrite Hlen in Hind.
      unfold bind, alloc, throw in Hind. inversion Hind; subst. discriminate.
  - unfold settle.
    pose proof (report_failure_depth name e st0 (Hstack e eq_refl) Hhigh) as Hdepth.
    destruct (report_failure name e st0) as [o st2]. exact Hdepth.
Qed.

(** [it_passes] on a new engine, for a body that returns [true]. *)
Lemma it_passes_witness :
  settle (ret (Plain (VBool true))) fresh_engine = (Fulfilled (VBool true), fresh_engine)
  /\ array_length_ok (indentation fresh_engine + 1) = true
  /\ it "adds" (ret (Plain (VBool true))) fresh_engine
     = (Fulfilled VUndefined,
        {| indentation := 0; listeners := [];
           trace := [Console Log (Text (check_mark ++ "adds"))]; nextRef := 0 |}).
Proof.
  split; [ reflexivity | split; [ reflexivity | ] ].
  exact (it_passes "adds" (ret (Plain (VBool true))) fresh_engine fresh_engine
           (VBool true) eq_refl eq_refl).
Defined.

(** [it_fails_unobserved] for a thrown AssertionError on a new engine. *)
Lemma it_fails_unobserved_witness :
  settle (throwing (assertion_error 0)) (engine_after 1)
  = (Rejected (assertion_error 0), engine_after 1)
  /\ listeners (engine_after 1) = []
  /\ Err.isError (assertion_error 0) = true
  /\ it "should have '/dev'" (throwing (assertion_error 0)) (engine_after 1)
     = (Rejected (assertion_error 0), engine_after 1).
Proof.
  split; [ reflexivity | split; [ reflexivity | split; [ reflexivity | ] ] ].
  exact (it_fails_unobserved "should have '/dev'" (throwing (assertion_error 0))
           (engine_after 1) (engine_after 1) (assertion_error 0)
           eq_refl eq_refl eq_refl).
Defined.

(** [it_fails_observed] for a thrown AssertionError and one listener. *)
Lemma it_fails_observed_witness :
  settle (throwing (assertion_error 0)) (on_error quiet (engine_after 1))
  = (Rejected (assertion_error 0), on_error quiet (engine_after 1))
  /\ it "adds" (throwing (assertion_error 0)) (on_error quiet (engine_after 1))
     = (Rejected (assertion_error 0),
        {| indentation := 0; listeners := [quiet];
           trace := [Notified 0 (assertion_error 0);
                     Console Warn (Text (cross_mark ++ "adds"));
                     Console Log (Text ("  AssertionError: expected 1 to equal 2" ++ nl
                                        ++ "      at <anonymous>"))];
           nextRef := 1 |}).
Proof.
  split; [ reflexivity | ].
  refine (it_fails_observed "adds" (throwing (assertion_error 0))
            (on_error quiet (engine_after 1)) (on_error quiet (engine_after 1))
            (assertion_error 0)
            ("AssertionError: expected 1 to equal 2" ++ frames)
            eq_refl _ _ eq_refl eq_refl eq_refl).
  - discriminate.
  - intros l [Hl | []]. subst l. reflexivity.
Defined.

(** [it_restores_depth] for a thrown AssertionError and one listener. *)
Lemma it_restores_depth_witness :
  settle (throwing (assertion_error 0)) (on_error quiet (engine_after 1))
  = (Rejected (assertion_error 0), on_error quiet (engine_after 1))
  /\ indentation
       (snd (it "adds" (throwing (assertion_error 0)) (on_error quiet (engine_after 1))))
     = indentation (on_error quiet (engine_after 1)).
Proof.
  split; [ reflexivity | ].
  refine (it_restores_depth "adds" (throwing (assertion_error 0))
            (on_error quiet (engine_after 1)) (on_error quiet (engine_after 1))
            (Rejected (assertion_error 0)) eq_refl _ _).
  - intros e He. inversion He; subst. discriminate.
  - simpl. lia.
Defined.

(** The scenario of a bypassed block, with one listener registered: A
    passes, B fails and opens the bypass, C is passed over, the bypass is
    resumed, E passes.  The console shows A, the failure of B once, and E. *)
Example bypass_scenario_log :
  bypass_scenario (on_error quiet (engine_after 1))
  = (Fulfilled VUndefined,
     {| indentation := 0; listeners := [quiet];
        trace := [Console Log (Text (check_mark ++ "A"));
                  Notified 0 (assertion_error 0);
                  Console Warn (Text (cross_mark ++ "B"));
                  Console Log (Text ("  AssertionError: expected 1 to equal 2" ++ nl
                                     ++ "      at <anonymous>"));
                  Console Log (Text (check_mark ++ "E"))];
        nextRef := 2 |}).
Proof. reflexivity. Qed.

(** C1, on the engine as [new FormatTestOutput()] leaves it: the body fails
    with an AssertionError, and the check rejects with it without a failure
    line or the detail having been written. *)
Theorem it_failure_line_missing :
  it "adds" (throwing (assertion_error 0)) (engine_after 1)
  = (Rejected (assertion_error 0), engine_after 1).
Proof. reflexivity. Qed.

(** C9, with a listener registered and a body that rejects with an object
    without a stack: the failure callback raises a TypeError between the
    increment and the decrement, and the check ends one level deeper. *)
Theorem it_bare_rejection_leaves_depth :
  it "adds" (rejecting (bare_assertion 0)) (on_error quiet (engine_after 1))
  = (Rejected (new_error "TypeError" "msg.replace is not a function" VUndefined 1),
     {| indentation := 1; listeners := [quiet];
        trace := [Notified 0 (bare_assertion 0);
                  Console Warn (Text (cross_mark ++ "adds"))];
        nextRef := 2 |}).
Proof. reflexivity. Qed.

(* ===================================================================== *)
(** ** The readiness pollers *)
(* ===================================================================== *)

Lemma retry_time_nonneg (probe : nat -> Attempt) (k : nat) :
  forall from, 0 <= retry_time probe from k.
Proof.
  induction k as [| k IH]; intro from; cbn [retry_time].
  - lia.
  - specialize (IH (S from)). lia.
Qed.

Lemma includes_here (sub post : string) : prefix sub (sub ++ post) = true.
Proof.
  induction sub as [| c sub IH]; simpl.
  - destruct post; reflexivity.
  - destruct (ascii_dec c c) as [_ | Hne]; [ exact IH | congruence ].
Qed.

Lemma string_append_assoc (a b c : string) : (a ++ b) ++ c = a ++ b ++ c.
Proof. induction a as [| x a IH]; simpl; [ reflexivity | rewrite IH; reflexivity ]. Qed.

Lemma includes_prefix (sub s : string) : prefix sub s = true -> includes sub s = true.
Proof. intro H. destruct s; cbn [includes]; rewrite H; reflexivity. Qed.

Lemma includes_middle (pre sub post : string) :
  includes sub (pre ++ sub ++ post) = true.
Proof.
  induction pre as [| c pre IH].
  - change ("" ++ sub ++ post) with (sub ++ post). apply includes_prefix, includes_here.
  - cbn [append includes].
    destruct (prefix sub (String c (pre ++ sub ++ post))); [ reflexivity | exact IH ].
Qed.

Section Pollers.

Variable ssh : string -> nat -> Attempt.
Variable sshTimeout : Z.

Lemma ensureStarted_step (fuel : nat) (timeout t0 n : Z) (w : World) :
  ensureStarted ssh sshTimeout (S fuel) timeout (Date t0) (Some n) w
  = if clock w - t0 >? timeout
    then Some (Thrown (new_TestError (ensureStarted_message timeout n) None), w)
    else if succeeds (probe_machine ssh sshTimeout (connections w))
         then Some (Resolved,
                    world_log ("Machine responded to SSH connections in " ++
                               show_Z (clock (call_ssh (probe_machine ssh sshTimeout
                                                          (connections w)) w) - t0)
                               ++ "ms")
                      (call_ssh (probe_machine ssh sshTimeout (connections w)) w))
         else inside_then
                (ensureStarted ssh sshTimeout fuel timeout (Date t0) (Some (n + 1))
                   (sleep 100 (call_ssh (probe_machine ssh sshTimeout (connections w)) w))).
Proof. reflexivity. Qed.

(** The call with [started] and [failures] left out starts the clock now and
    the count at zero. *)
Lemma ensureStarted_defaults (fuel : nat) (timeout : Z) (w : World) :
  ensureStarted ssh sshTimeout fuel timeout NotGiven None w
  = ensureStarted ssh sshTimeout fuel timeout (Date (clock w)) (Some 0) w.
Proof. destruct fuel; reflexivity. Qed.

Lemma inside_then_fatal (res : option (Poll * World)) (r : Poll) (w' : World)
    (e : TestError.t) :
  inside_then res = Some (r, w') ->
  fatal r = Some e ->
  r = RejectedWith e /\ exists r0, res = Some (r0, w') /\ fatal r0 = Some e.
Proof.
  destruct res as [[[e0 | | e0] w0] |]; simpl; intros H Hf; inversion H; subst;
    simpl in Hf; inversion Hf; subst.
  - split; [ reflexivity | exists (Thrown e); split; reflexivity ].
  - split; [ reflexivity | exists (RejectedWith e); split; reflexivity ].
Qed.

(** What a fatal end of [ensureStarted] tells: [m] attempts were made and all
    failed, the deadline test let each of them through, and it is the test
    after the last backoff that found more than [timeout] elapsed; the
    message carries the count. *)
Lemma ensureStarted_fatal (fuel : nat) :
  forall (timeout t0 n : Z) (w w' : World) (r : Poll) (e : TestError.t),
    ensureStarted ssh sshTimeout fuel timeout (Date t0) (Some n) w = Some (r, w') ->
    fatal r = Some e ->
    exists m : nat,
      connections w' = (connections w + m)%nat
      /\ clock w' = clock w + retry_time (probe_machine ssh sshTimeout) (connections w) m
      /\ timeout < clock w' - t0
      /\ (forall j, (j < m)%nat ->
            clock w - t0 + retry_time (probe_machine ssh sshTimeout) (connections w) j
            <= timeout)
      /\ TestError.message e = ensureStarted_message timeout (n + Z.of_nat m)
      /\ output w' = output w
      /\ (m = 0%nat -> r = Thrown e)
      /\ (m <> 0%nat -> r = RejectedWith e).
Proof.
  induction fuel as [| fuel IH]; intros timeout t0 n w w' r e Hrun Hfatal.
  - discriminate Hrun.
  - rewrite ensureStarted_step in Hrun.
    destruct (Z.gtb_spec (clock w - t0) timeout) as [Hlate | Hearly].
    + inversion Hrun; subst. simpl in Hfatal. inversion Hfatal; subst.
      exists 0%nat. cbn [retry_time].
      repeat split; try lia; try reflexivity; try congruence.
      cbn [Z.of_nat TestError.message new_TestError]. rewrite Z.add_0_r. reflexivity.
    + destruct (succeeds (probe_machine ssh sshTimeout (connections w))) eqn:Hup.
      * inversion Hrun; subst. discriminate Hfatal.
      * destruct (inside_then_fatal _ _ _ _ Hrun Hfatal) as [Hr [r0 [Hrec Hf0]]].
        destruct (IH _ _ _ _ _ _ _ Hrec Hf0)
          as [m [Hconn [Hclock [Hpast [Hbefore [Hmsg [Hout _]]]]]]].
        cbn [sleep advance call_ssh clock connections output] in *.
        exists (S m). cbn [retry_time].
        repeat split; try lia; try congruence.
        -- intros j Hj. destruct j as [| j]; cbn [retry_time]; [ lia | ].
           specialize (Hbefore j). lia.
        -- rewrite Hmsg. f_equal. lia.
Qed.

(** [ensureStarted] ends: every retry comes at least 100 ms later, so the
    deadline test stops the recursion. *)
Lemma ensureStarted_ends (fuel : nat) :
  forall (timeout t0 n : Z) (w : World),
    timeout - (clock w - t0) < 100 * Z.of_nat fuel ->
    exists r w',
      ensureStarted ssh sshTimeout (S fuel) timeout (Date t0) (Some n) w = Some (r, w').
Proof.
  induction fuel as [| fuel IH]; intros timeout t0 n w Hfuel;
    rewrite ensureStarted_step;
    destruct (Z.gtb_spec (clock w - t0) timeout) as [Hlate | Hearly];
    try (eexists; eexists; reflexivity); try lia.
  destruct (succeeds (probe_machine ssh sshTimeout (connections w)));
    [ eexists; eexists; reflexivity | ].
  destruct (IH timeout t0 (n + 1)
              (sleep 100 (call_ssh (probe_machine ssh sshTimeout (connections w)) w)))
    as [r [w' Hrec]].
  - cbn [sleep advance call_ssh clock]. lia.
  - rewrite Hrec. destruct r; eexists; eexists; reflexivity.
Qed.

(** While every attempt fails, [ensureStarted] cannot resolve. *)
Lemma ensureStarted_never_up (fuel : nat) :
  forall (timeout t0 n : Z) (w w' : World) (r : Poll),
    (forall i, succeeds (probe_machine ssh sshTimeout i) = false) ->
    ensureStarted ssh sshTimeout fuel timeout (Date t0) (Some n) w = Some (r, w') ->
    exists e, fatal r = Some e.
Proof.
  induction fuel as [| fuel IH]; intros timeout t0 n w w' r Hdown Hrun.
  - discriminate Hrun.
  - rewrite ensureStarted_step in Hrun.
    destruct (clock w - t0 >? timeout).
    + inversion Hrun; subst. eexists; reflexivity.
    + rewrite Hdown in Hrun.
      destruct (ensureStarted ssh sshTimeout fuel timeout (Date t0) (Some (n + 1))
                  (sleep 100 (call_ssh (probe_machine ssh sshTimeout (connections w)) w)))
        as [[r0 w0] |] eqn:Hrec; [ | discriminate Hrun ].
      destruct (IH _ _ _ _ _ _ Hdown Hrec) as [e He].
      destruct r0; simpl in *; inversion Hrun; subst; inversion He; subst;
        eexists; reflexivity.
Qed.

(** [k] failed attempts, each let through by the deadline test, and then one
    that succeeds. *)
Lemma ensureStarted_up_after (k : nat) :
  forall (fuel : nat) (timeout t0 n : Z) (w : World),
    (k < fuel)%nat ->
    (forall i, (i < k)%nat ->
       succeeds (probe_machine ssh sshTimeout (connections w + i)) = false) ->
    succeeds (probe_machine ssh sshTimeout (connections w + k)) = true ->
    clock w - t0 + retry_time (probe_machine ssh sshTimeout) (connections w) k <= timeout ->
    ensureStarted ssh sshTimeout fuel timeout (Date t0) (Some n) w
    = Some (Resolved,
            world_log
              ("Machine responded to SSH connections in " ++
               show_Z (clock w + retry_time (probe_machine ssh sshTimeout) (connections w) k
                       + Z.of_N (takes (probe_machine ssh sshTimeout (connections w + k)))
                       - t0) ++ "ms")
              {| clock := clock w
                          + retry_time (probe_machine ssh sshTimeout) (connections w) k
                          + Z.of_N (takes (probe_machine ssh sshTimeout (connections w + k)));
                 connections := connections w + k + 1;
                 output := output w |}).
Proof.
  induction k as [| k IH]; intros fuel timeout t0 n w Hfuel Hdown Hup Hearly;
    (destruct fuel as [| fuel]; [ lia | ]); rewrite ensureStarted_step;
    cbn [retry_time] in *.
  - destruct (Z.gtb_spec (clock w - t0) timeout) as [Hlate | _]; [ lia | ].
    rewrite Nat.add_0_r in *. rewrite Hup.
    unfold call_ssh. cbn [clock]. rewrite !Z.add_0_r.
    replace (S (connections w)) with (connections w + 1)%nat by lia. reflexivity.
  - pose proof (retry_time_nonneg (probe_machine ssh sshTimeout) k (S (connections w))) as Hpos.
    destruct (Z.gtb_spec (clock w - t0) timeout) as [Hlate | _]; [ lia | ].
    pose proof (Hdown 0%nat ltac:(lia)) as Hfirst. rewrite Nat.add_0_r in Hfirst.
    rewrite Hfirst.
    rewrite (IH fuel timeout t0 (n + 1)
               (sleep 100 (call_ssh (probe_machine ssh sshTimeout (connections w)) w)));
      cbn [sleep advance call_ssh clock connections output]; try lia.
    + cbn [inside_then].
      replace (S (connections w) + k)%nat with (connections w + S k)%nat by lia.
      replace (S (connections w) + k + 1)%nat with (connections w + S k + 1)%nat by lia.
      rewrite !Z.add_assoc. reflexivity.
    + intros i Hi. replace (S (connections w) + i)%nat with (connections w + S i)%nat by lia.
      apply Hdown. lia.
    + replace (S (connections w) + k)%nat with (connections w + S k)%nat by lia. exact Hup.
Qed.


Lemma inside_then_not_thrown (res : option (Poll * World)) (r : Poll) (w' : World) :
  inside_then res = Some (r, w') -> forall e, r <> Thrown e.
Proof.
  destruct res as [[[e0 | | e0] w0] |]; simpl; intros H e; inversion H; subst;
    discriminate.
Qed.

Lemma inside_then_world (res : option (Poll * World)) (r : Poll) (w' : World) :
  inside_then res = Some (r, w') -> exists r0, res = Some (r0, w').
Proof.
  destruct res as [[[e0 | | e0] w0] |]; simpl; intro H; inversion H; subst;
    eexists; reflexivity.
Qed.

Lemma ensureStarted_connections (fuel : nat) :
  forall (timeout t0 n : Z) (w w' : World) (r : Poll),
    ensureStarted ssh sshTimeout fuel timeout (Date t0) (Some n) w = Some (r, w') ->
    (connections w <= connections w')%nat.
Proof.
  induction fuel as [| fuel IH]; intros timeout t0 n w w' r Hrun.
  - discriminate Hrun.
  - rewrite ensureStarted_step in Hrun.
    destruct (clock w - t0 >? timeout).
    + inversion Hrun; subst. lia.
    + destruct (succeeds (probe_machine ssh sshTimeout (connections w))).
      * inversion Hrun; subst. simpl. lia.
      * destruct (inside_then_world _ _ _ Hrun) as [r0 Hrec].
        apply IH in Hrec. simpl in Hrec. lia.
Qed.

Lemma ensureServiceStarted_step (fuel : nat) (service : string) (timeout : Z)
    (started : Started) (w : World) :
  ensureServiceStarted ssh (S fuel) service timeout started w
  = if clock w - time_of (if not_started started then Date (clock w) else started)
       >? timeout
    then Some (Thrown (new_TestError (ensureServiceStarted_message service timeout) None), w)
    else if succeeds (probe_service ssh service (connections w))
         then Some (Resolved, call_ssh (probe_service ssh service (connections w)) w)
         else inside_then
                (ensureServiceStarted ssh fuel service timeout
                   (if not_started started then Date (clock w) else started)
                   (sleep 100 (call_ssh (probe_service ssh service (connections w)) w))).
Proof. reflexivity. Qed.

Lemma ensureServiceStarted_fatal (fuel : nat) :
  forall (service : string) (timeout : Z) (started : Started) (w w' : World)
         (r : Poll) (e : TestError.t),
    ensureServiceStarted ssh fuel service timeout started w = Some (r, w') ->
    fatal r = Some e ->
    TestError.message e = ensureServiceStarted_message service timeout.
Proof.
  induction fuel as [| fuel IH]; intros service timeout started w w' r e Hrun Hfatal.
  - discriminate Hrun.
  - rewrite ensureServiceStarted_step in Hrun.
    destruct (clock w - time_of (if not_started started then Date (clock w) else started)
              >? timeout).
    + inversion Hrun; subst. simpl in Hfatal. inversion Hfatal; subst. reflexivity.
    + destruct (succeeds (probe_service ssh service (connections w))).
      * inversion Hrun; subst. discriminate Hfatal.
      * destruct (inside_then_fatal _ _ _ _ Hrun Hfatal) as [_ [r0 [Hrec Hf0]]].
        exact (IH _ _ _ _ _ _ _ Hrec Hf0).
Qed.

Lemma ensureServiceStarted_connections (fuel : nat) :
  forall (service : string) (timeout : Z) (started : Started) (w w' : World) (r : Poll),
    ensureServiceStarted ssh fuel service timeout started w = Some (r, w') ->
    (connections w <= connections w')%nat.
Proof.
  induction fuel as [| fuel IH]; intros service timeout started w w' r Hrun.
  - discriminate Hrun.
  - rewrite ensureServiceStarted_step in Hrun.
    destruct (clock w - time_of (if not_started started then Date (clock w) else started)
              >? timeout).
    + inversion Hrun; subst. lia.
    + destruct (succeeds (probe_service ssh service (connections w))).
      * inversion Hrun; subst. simpl. lia.
      * destruct (inside_then_world _ _ _ Hrun) as [r0 Hrec].
        apply IH in Hrec. simpl in Hrec. lia.
Qed.

Lemma ensureServiceStarted_ends (fuel : nat) :
  forall (service : string) (timeout t0 : Z) (w : World),
    timeout - (clock w - t0) < 100 * Z.of_nat fuel ->
    exists r w',
      ensureServiceStarted ssh (S fuel) service timeout (Date t0) w = Some (r, w').
Proof.
  induction fuel as [| fuel IH]; intros service timeout t0 w Hfuel;
    rewrite ensureServiceStarted_step; cbn [not_started time_of];
    destruct (Z.gtb_spec (clock w - t0) timeout) as [Hlate | Hearly];
    try (eexists; eexists; reflexivity); try lia.
  destruct (succeeds (probe_service ssh service (connections w)));
    [ eexists; eexists; reflexivity | ].
  destruct (IH service timeout t0
              (sleep 100 (call_ssh (probe_service ssh service (connections w)) w)))
    as [r [w' Hrec]].
  - cbn [sleep advance call_ssh clock]. lia.
  - rewrite Hrec. destruct r; eexists; eexists; reflexivity.
Qed.

(** The calls a poller makes, and the connections: a retry comes at least
    100 ms after the call before it, so [fuel] retries are enough for a
    deadline less than [100 * fuel] ms away, and no retry is left to connect
    when that deadline has passed. *)
Lemma ensureStarted_ends_within (fuel : nat) :
  forall (timeout t0 n : Z) (w : World),
    timeout - (clock w - t0) < 100 * Z.of_nat fuel ->
    exists r w',
      ensureStarted ssh sshTimeout (S fuel) timeout (Date t0) (Some n) w = Some (r, w')
      /\ (connections w' <= connections w + fuel)%nat.
Proof.
  induction fuel as [| fuel IH]; intros timeout t0 n w Hfuel;
    rewrite ensureStarted_step;
    destruct (Z.gtb_spec (clock w - t0) timeout) as [Hlate | Hearly];
    try (eexists; eexists; split; [ reflexivity | lia ]); try lia.
  destruct (succeeds (probe_machine ssh sshTimeout (connections w)));
    [ eexists; eexists; split; [ reflexivity | cbn; lia ] | ].
  destruct (IH timeout t0 (n + 1)
              (sleep 100 (call_ssh (probe_machine ssh sshTimeout (connections w)) w)))
    as [r [w' [Hrec Hconn]]].
  - cbn [sleep advance call_ssh clock]. lia.
  - rewrite Hrec. cbn [sleep advance call_ssh connections] in Hconn.
    destruct r; eexists; eexists; (split; [ reflexivity | lia ]).
Qed.

Lemma ensureServiceStarted_ends_within (fuel : nat) :
  forall (service : string) (timeout t0 : Z) (w : World),
    timeout - (clock w - t0) < 100 * Z.of_nat fuel ->
    exists r w',
      ensureServiceStarted ssh (S fuel) service timeout (Date t0) w = Some (r, w')
      /\ (connections w' <= connections w + fuel)%nat.
Proof.
  induction fuel as [| fuel IH]; intros service timeout t0 w Hfuel;
    rewrite ensureServiceStarted_step; cbn [not_started time_of];
    destruct (Z.gtb_spec (clock w - t0) timeout) as [Hlate | Hearly];
    try (eexists; eexists; split; [ reflexivity | lia ]); try lia.
  destruct (succeeds (probe_service ssh service (connections w)));
    [ eexists; eexists; split; [ reflexivity | cbn; lia ] | ].
  destruct (IH service timeout t0
              (sleep 100 (call_ssh (probe_service ssh service (connections w)) w)))
    as [r [w' [Hrec Hconn]]].
  - cbn [sleep advance call_ssh clock]. lia.
  - rewrite Hrec. cbn [sleep advance call_ssh connections] in Hconn.
    destruct r; eexists; eexists; (split; [ reflexivity | lia ]).
Qed.

Lemma deadline_in_steps (timeout : Z) :
  timeout < 100 * Z.of_nat (Z.to_nat (timeout / 100) + 1).
Proof.
  destruct (Z.lt_ge_cases timeout 0) as [Hneg | Hpos].
  - lia.
  - pose proof (Z.div_pos timeout 100 Hpos ltac:(lia)) as Hq.
    pose proof (Z.mul_succ_div_gt timeout 100 ltac:(lia)) as Hgt.
    rewrite Nat2Z.inj_add, Z2Nat.id by exact Hq. lia.
Qed.

(** Both pollers, called with their defaults on a machine whose connections
    all settle, end: a retry comes at least 100 ms after the call before it,
    so the deadline test stops the retries.  A call with a timeout of
    [timeout] ms is over after [timeout / 100 + 2] calls of the poller at
    most, the last of which finds the deadline passed, and has made no more
    than [timeout / 100 + 1] connections. *)
Theorem pollers_end (service : string) (timeout : Z) (w : World) :
  (exists r w',
     ensureStarted ssh sshTimeout (Z.to_nat (timeout / 100) + 2) timeout NotGiven None w
     = Some (r, w')
     /\ (connections w' <= connections w + Z.to_nat (timeout / 100) + 1)%nat)
  /\ (exists r w',
        ensureServiceStarted ssh (Z.to_nat (timeout / 100) + 2) service timeout NotGiven w
        = Some (r, w')
        /\ (connections w' <= connections w + Z.to_nat (timeout / 100) + 1)%nat).
Proof.
  replace (Z.to_nat (timeout / 100) + 2)%nat with (S (Z.to_nat (timeout / 100) + 1))
    by lia.
  pose proof (deadline_in_steps timeout) as Hsteps.
  split.
  - destruct (ensureStarted_ends_within (Z.to_nat (timeout / 100) + 1) timeout (clock w) 0 w)
      as [r [w' [Hrun Hconn]]]; [ lia | ].
    exists r, w'. rewrite ensureStarted_defaults. split; [ exact Hrun | lia ].
  - destruct (ensureServiceStarted_ends_within (Z.to_nat (timeout / 100) + 1) service
                timeout (clock w) w) as [r [w' [Hrun Hconn]]]; [ lia | ].
    exists r, w'. split; [ exact Hrun | lia ].
Qed.

(** C7, as amended.  The fatal message of [ensureStarted], called with the
    timeout alone, includes the timeout and the number of attempts made; the
    fatal message of [ensureServiceStarted] is made of the service's name and
    the timeout, and includes both, with no count of attempts in it. *)
Theorem fatal_message_contents :
  (forall (fuel : nat) (timeout : Z) (w w' : World) (r : Poll) (e : TestError.t),
     ensureStarted ssh sshTimeout fuel timeout NotGiven None w = Some (r, w') ->
     fatal r = Some e ->
     TestError.message e
     = ensureStarted_message timeout (Z.of_nat (connections w' - connections w))
     /\ includes (show_Z timeout) (TestError.message e) = true
     /\ includes (show_Z (Z.of_nat (connections w' - connections w)))
          (TestError.message e) = true)
  /\ (forall (fuel : nat) (service : string) (timeout : Z) (started : Started)
             (w w' : World) (r : Poll) (e : TestError.t),
        ensureServiceStarted ssh fuel service timeout started w = Some (r, w') ->
        fatal r = Some e ->
        TestError.message e = ensureServiceStarted_message service timeout
        /\ includes (show_Z timeout) (TestError.message e) = true
        /\ includes service (TestError.message e) = true).
Proof.
  split.
  - intros fuel timeout w w' r e Hrun Hfatal.
    rewrite ensureStarted_defaults in Hrun.
    destruct (ensureStarted_fatal _ _ _ _ _ _ _ _ Hrun Hfatal)
      as [m [Hconn [_ [_ [_ [Hmsg _]]]]]].
    replace (connections w' - connections w)%nat with m by lia.
    rewrite Hmsg. cbn [Z.add]. unfold ensureStarted_message.
    split; [ reflexivity | split ].
    + apply includes_middle.
    + rewrite <- (string_append_assoc (show_Z timeout)).
      rewrite <- (string_append_assoc "Machine has not responded to SSH in ").
      apply includes_middle.
  - intros fuel service timeout started w w' r e Hrun Hfatal.
    rewrite (ensureServiceStarted_fatal _ _ _ _ _ _ _ _ Hrun Hfatal).
    unfold ensureServiceStarted_message.
    split; [ reflexivity | split ].
    + rewrite <- (string_append_assoc service).
      rewrite <- (string_append_assoc "Service ").
      apply includes_middle.
    + apply includes_middle.
Qed.

(** C8, as amended.  When the first [k] attempts fail, the next one succeeds,
    and the time up to it (what the [k] failed attempts took, each followed by
    the 100 ms backoff) does not exceed the timeout, [ensureStarted] resolves
    after exactly [k + 1] attempts.  When every attempt fails it rejects with
    the fatal error at the first deadline test at which more than the timeout
    has elapsed. *)
Theorem ensureStarted_retries :
  (forall (k fuel : nat) (timeout : Z) (w : World),
     (k < fuel)%nat ->
     (forall i, (i < k)%nat ->
        succeeds (probe_machine ssh sshTimeout (connections w + i)) = false) ->
     succeeds (probe_machine ssh sshTimeout (connections w + k)) = true ->
     retry_time (probe_machine ssh sshTimeout) (connections w) k <= timeout ->
     exists line,
       ensureStarted ssh sshTimeout fuel timeout NotGiven None w
       = Some (Resolved,
               {| clock := clock w
                           + retry_time (probe_machine ssh sshTimeout) (connections w) k
                           + Z.of_N (takes (probe_machine ssh sshTimeout (connections w + k)));
                  connections := connections w + k + 1;
                  output := output w ++ [line] |}))
  /\ (forall (timeout : Z) (w : World),
        (forall i, succeeds (probe_machine ssh sshTimeout i) = false) ->
        exists (fuel m : nat) (r : Poll) (e : TestError.t) (w' : World),
          ensureStarted ssh sshTimeout fuel timeout NotGiven None w = Some (r, w')
          /\ fatal r = Some e
          /\ connections w' = (connections w + m)%nat
          /\ clock w' = clock w + retry_time (probe_machine ssh sshTimeout) (connections w) m
          /\ timeout < retry_time (probe_machine ssh sshTimeout) (connections w) m
          /\ (forall j, (j < m)%nat ->
                retry_time (probe_machine ssh sshTimeout) (connections w) j <= timeout)
          /\ TestError.message e = ensureStarted_message timeout (Z.of_nat m)).
Proof.
  split.
  - intros k fuel timeout w Hfuel Hdown Hup Hearly.
    rewrite ensureStarted_defaults.
    rewrite (ensureStarted_up_after k fuel timeout (clock w) 0 w Hfuel Hdown Hup)
      by lia.
    eexists. reflexivity.
  - intros timeout w Hdown.
    destruct (ensureStarted_ends (Z.to_nat timeout + 1) timeout (clock w) 0 w)
      as [r [w' Hrun]]; [ lia | ].
    destruct (ensureStarted_never_up _ _ _ _ _ _ _ Hdown Hrun) as [e Hfatal].
    destruct (ensureStarted_fatal _ _ _ _ _ _ _ _ Hrun Hfatal)
      as [m [Hconn [Hclock [Hpast [Hbefore [Hmsg _]]]]]].
    exists (S (Z.to_nat timeout + 1)), m, r, e, w'.
    rewrite ensureStarted_defaults, Hrun.
    repeat split; try assumption; try lia.
    intros j Hj. specialize (Hbefore j Hj). lia.
Qed.

(** C10.  With a timeout that is not negative, the first call finds nothing
    elapsed, so the strict deadline test lets it through to [ssh]: a call
    that ends has made at least one attempt, and it never throws; at worst
    its promise rejects.  The same holds for [ensureServiceStarted]. *)
Theorem first_probe_precedes_fatal (timeout : Z) (Htimeout : 0 <= timeout)
    (fuel : nat) (service : string) (w : World) :
  (ensureStarted ssh sshTimeout (S fuel) timeout NotGiven None w
   = if succeeds (probe_machine ssh sshTimeout (connections w))
     then Some (Resolved,
                world_log ("Machine responded to SSH connections in " ++
                           show_Z (clock (call_ssh (probe_machine ssh sshTimeout
                                                      (connections w)) w) - clock w)
                           ++ "ms")
                  (call_ssh (probe_machine ssh sshTimeout (connections w)) w))
     else inside_then
            (ensureStarted ssh sshTimeout fuel timeout (Date (clock w)) (Some 1)
               (sleep 100 (call_ssh (probe_machine ssh sshTimeout (connections w)) w))))
  /\ (forall r w',
        ensureStarted ssh sshTimeout (S fuel) timeout NotGiven None w = Some (r, w') ->
        (connections w < connections w')%nat /\ forall e, r <> Thrown e)
  /\ (ensureServiceStarted ssh (S fuel) service timeout NotGiven w
      = if succeeds (probe_service ssh service (connections w))
        then Some (Resolved, call_ssh (probe_service ssh service (connections w)) w)
        else inside_then
               (ensureServiceStarted ssh fuel service timeout (Date (clock w))
                  (sleep 100 (call_ssh (probe_service ssh service (connections w)) w))))
  /\ (forall r w',
        ensureServiceStarted ssh (S fuel) service timeout NotGiven w = Some (r, w') ->
        (connections w < connections w')%nat /\ forall e, r <> Thrown e).
Proof.
  assert (Hnow : (clock w - clock w >? timeout) = false).
  { destruct (Z.gtb_spec (clock w - clock w) timeout); [ lia | reflexivity ]. }
  assert (Hfirst : ensureStarted ssh sshTimeout (S fuel) timeout NotGiven None w
   = if succeeds (probe_machine ssh sshTimeout (connections w))
     then Some (Resolved,
                world_log ("Machine responded to SSH connections in " ++
                           show_Z (clock (call_ssh (probe_machine ssh sshTimeout
                                                      (connections w)) w) - clock w)
                           ++ "ms")
                  (call_ssh (probe_machine ssh sshTimeout (connections w)) w))
     else inside_then
            (ensureStarted ssh sshTimeout fuel timeout (Date (clock w)) (Some 1)
               (sleep 100 (call_ssh (probe_machine ssh sshTimeout (connections w)) w)))).
  { rewrite !ensureStarted_defaults, !ensureStarted_step.
    cbn [time_of] in *. rewrite Hnow.
    destruct (succeeds (probe_machine ssh sshTimeout (connections w))); reflexivity. }
  assert (Hsecond : ensureServiceStarted ssh (S fuel) service timeout NotGiven w
      = if succeeds (probe_service ssh service (connections w))
        then Some (Resolved, call_ssh (probe_service ssh service (connections w)) w)
        else inside_then
               (ensureServiceStarted ssh fuel service timeout (Date (clock w))
                  (sleep 100 (call_ssh (probe_service ssh service (connections w)) w)))).
  { rewrite ensureServiceStarted_step. cbn [not_started time_of]. rewrite Hnow.
    reflexivity. }
  split; [ exact Hfirst | split; [ | split; [ exact Hsecond | ] ] ].
  - intros r w' Hrun. rewrite Hfirst in Hrun.
    destruct (succeeds (probe_machine ssh sshTimeout (connections w))) eqn:Hup.
    + inversion Hrun; subst. split; [ simpl; lia | discriminate ].
    + split; [ | exact (inside_then_not_thrown _ _ _ Hrun) ].
      destruct (inside_then_world _ _ _ Hrun) as [r0 Hrec].
      apply ensureStarted_connections in Hrec. simpl in Hrec. lia.
  - intros r w' Hrun. rewrite Hsecond in Hrun.
    destruct (succeeds (probe_service ssh service (connections w))).
    + inversion Hrun; subst. split; [ simpl; lia | discriminate ].
    + split; [ | exact (inside_then_not_thrown _ _ _ Hrun) ].
      destruct (inside_then_world _ _ _ Hrun) as [r0 Hrec].
      apply ensureServiceStarted_connections in Hrec. simpl in Hrec. lia.
Qed.

End Pollers.

(** The message after two failed attempts against a timeout of 150 ms. *)
Lemma fatal_message_contents_witness :
  ensureStarted never_up 120000 3 150 NotGiven None epoch
  = Some (RejectedWith (new_TestError (ensureStarted_message 150 2) None),
          {| clock := 200; connections := 2; output := [] |})
  /\ fatal (RejectedWith (new_TestError (ensureStarted_message 150 2) None))
     = Some (new_TestError (ensureStarted_message 150 2) None)
  /\ TestError.message (new_TestError (ensureStarted_message 150 2) None)
     = "Machine has not responded to SSH in 150ms (Attempted 2 connections)"
  /\ includes "150" (ensureStarted_message 150 2) = true
  /\ includes "2" (ensureStarted_message 150 2) = true.
Proof.
  split; [ reflexivity | split; [ reflexivity | ] ].
  exact (proj1 (fatal_message_contents never_up 120000) 3%nat 150 epoch
           {| clock := 200; connections := 2; output := [] |}
           (RejectedWith (new_TestError (ensureStarted_message 150 2) None))
           (new_TestError (ensureStarted_message 150 2) None)
           eq_refl eq_refl).
Defined.

(** C7 as stated fails for [ensureServiceStarted]: after two attempts its
    fatal message names the service and the timeout, and no count. *)
Lemma service_message_omits_attempts :
  ensureServiceStarted never_up 3 "sshd" 150 NotGiven epoch
  = Some (RejectedWith (new_TestError "Service sshd has not started after 150ms." None),
          {| clock := 200; connections := 2; output := [] |})
  /\ includes (show_Z 2) "Service sshd has not started after 150ms." = false.
Proof. split; reflexivity. Qed.

(** Two refused connections of 20 ms each, then one that is accepted. *)
Lemma ensureStarted_retries_witness :
  (2 < 3)%nat
  /\ (forall i, (i < 2)%nat ->
        succeeds (probe_machine up_at_third 120000 (connections epoch + i)) = false)
  /\ succeeds (probe_machine up_at_third 120000 (connections epoch + 2)) = true
  /\ retry_time (probe_machine up_at_third 120000) (connections epoch) 2 <= 60000
  /\ exists line,
       ensureStarted up_at_third 120000 3 60000 NotGiven None epoch
       = Some (Resolved, {| clock := 260; connections := 3; output := [line] |}).
Proof.
  assert (Hfuel : (2 < 3)%nat) by lia.
  assert (Hdown : forall i, (i < 2)%nat ->
            succeeds (probe_machine up_at_third 120000 (connections epoch + i)) = false).
  { intros i Hi. destruct i as [| [| i]]; [ reflexivity | reflexivity | lia ]. }
  assert (Hup : succeeds (probe_machine up_at_third 120000 (connections epoch + 2)) = true)
    by reflexivity.
  assert (Hearly : retry_time (probe_machine up_at_third 120000) (connections epoch) 2
                   <= 60000) by (vm_compute; discriminate).
  split; [ exact Hfuel | split; [ exact Hdown | split; [ exact Hup | split; [ exact Hearly | ] ] ] ].
  exact (proj1 (ensureStarted_retries up_at_third 120000) 2%nat 3%nat 60000 epoch
           Hfuel Hdown Hup Hearly).
Defined.

(** C8 as stated fails when a failed attempt takes time: the first
    connection is refused after 90 s, the second would be accepted, and
    1 * 100 ms is less than the timeout of 60 s; the deadline test after the
    backoff ends the polling after one attempt. *)
Lemma slow_refusal_exhausts_deadline :
  succeeds (probe_machine slow_refusal 120000 0) = false
  /\ succeeds (probe_machine slow_refusal 120000 1) = true
  /\ 1 * 100 < 60000
  /\ ensureStarted slow_refusal 120000 5 60000 NotGiven None epoch
     = Some (RejectedWith (new_TestError (ensureStarted_message 60000 1) None),
             {| clock := 90100; connections := 1; output := [] |}).
Proof. repeat split; reflexivity. Qed.

(** With a timeout of 0 the first call still goes through to [ssh]. *)
Lemma first_probe_precedes_fatal_witness :
  0 <= 0
  /\ ensureStarted never_up 120000 2 0 NotGiven None epoch
     = inside_then
         (ensureStarted never_up 120000 1 0 (Date 0) (Some 1)
            {| clock := 100; connections := 1; output := [] |})
  /\ ensureServiceStarted never_up 2 "sshd" 0 NotGiven epoch
     = inside_then
         (ensureServiceStarted never_up 1 "sshd" 0 (Date 0)
            {| clock := 100; connections := 1; output := [] |}).
Proof.
  assert (H0 : 0 <= 0) by lia.
  split; [ exact H0 | split ].
  - exact (proj1 (first_probe_precedes_fatal never_up 120000 0 H0 1 "sshd" epoch)).
  - exact (proj1 (proj2 (proj2
             (first_probe_precedes_fatal never_up 120000 0 H0 1 "sshd" epoch)))).
Defined.

(* ===================================================================== *)
(** ** Chains of checks and handlers *)
(* ===================================================================== *)

Lemma chain_app (l1 l2 : list Link) :
  forall p : Async, chain p (l1 ++ l2) = chain (chain p l1) l2.
Proof.
  induction l1 as [| l rest IH]; intro p; simpl.
  - reflexivity.
  - apply IH.
Qed.

Lemma add_nothing (st : State) :
  {| indentation := indentation st; listeners := listeners st;
     trace := trace st ++ []; nextRef := nextRef st |} = st.
Proof. rewrite app_nil_r. apply state_eta. Qed.

(** One link, given a Bypass it does not resume. *)
Lemma link_hands_on (l : Link) (p : Async) (st st' : State) (b : JsError) :
  p st = (Rejected b, st') ->
  Err.name b = "Bypass" ->
  lets_through b l = true ->
  link p l st
  = (Rejected b,
     {| indentation := indentation st'; listeners := listeners st';
        trace := trace st' ++ refusal b l; nextRef := nextRef st' |}).
Proof.
  intros Hp Hname Hthrough.
  assert (Hk : kind_of b <> AssertionFailure).
  { apply kind_not_assertion. cbn [name_is]. rewrite Hname. reflexivity. }
  destruct l as [name contents | cb | code | code]; cbn [link refusal].
  - unfold p_then. rewrite Hp, add_nothing. reflexivity.
  - unfold p_catch, settle. rewrite Hp.
    rewrite (allowing_on_other cb b st' eq_refl Hk), add_nothing. reflexivity.
  - unfold p_catch, settle. rewrite Hp.
    rewrite (startBypass_on_other code b st' eq_refl Hk). reflexivity.
  - unfold p_catch, settle. rewrite Hp, resumeBypass_on_object, Hname.
    cbn [lets_through] in Hthrough. rewrite Hthrough. cbn.
    rewrite add_nothing. reflexivity.
Qed.

(** An open bypass goes through a chain unchanged: checks, [allowAssertion]
    handlers, start handlers and the resume handlers of other codes hand the
    Bypass on, no check body and no callback is run, and only the start
    handlers write (their refusal, with the signal).  The first resume
    handler whose code is [===] to the signal's then completes. *)
Theorem bypass_passes_through (links : list Link) (b : JsError)
    (Hname : Err.name b = "Bypass")
    (Hthrough : forallb (lets_through b) links = true) :
  forall (p : Async) (st st' : State),
    p st = (Rejected b, st') ->
    chain p links st
    = (Rejected b,
       {| indentation := indentation st'; listeners := listeners st';
          trace := trace st' ++ flat_map (refusal b) links; nextRef := nextRef st' |})
    /\ forall code,
         strict_eq (Err.code b) code = true ->
         chain p (links ++ [CatchResume code]) st
         = (Fulfilled (VBool true),
            {| indentation := indentation st'; listeners := listeners st';
               trace := trace st' ++ flat_map (refusal b) links;
               nextRef := nextRef st' |}).
Proof.
  assert (Hgo : forall (p : Async) (st st' : State),
            p st = (Rejected b, st') ->
            chain p links st
            = (Rejected b,
               {| indentation := indentation st'; listeners := listeners st';
                  trace := trace st' ++ flat_map (refusal b) links;
                  nextRef := nextRef st' |})).
  { induction links as [| l rest IH]; intros p st st' Hp; cbn [chain flat_map].
    - rewrite add_nothing. exact Hp.
    - cbn [forallb] in Hthrough. apply andb_true_iff in Hthrough.
      destruct Hthrough as [Hl Hrest].
      rewrite (IH Hrest (link p l) st _ (link_hands_on l p st st' b Hp Hname Hl)).
      cbn [indentation listeners trace nextRef]. rewrite <- app_assoc. reflexivity. }
  intros p st st' Hp. split; [ exact (Hgo p st st' Hp) | ].
  intros code Hcode. rewrite chain_app. cbn [chain link].
  unfold p_catch, settle. rewrite (Hgo p st st' Hp), resumeBypass_on_object, Hname.
  unfold strict_neq. rewrite Hcode. reflexivity.
Qed.

(** The bypass of the second documented example: opened with ["no-text"],
    it goes through a check, the start handler of ["few-words"], two
    [allowAssertion] handlers and the resume handler of ["few-words"]. *)
Lemma bypass_passes_through_witness :
  Err.name (Bypass "no-text" (VStr "no-text") 1) = "Bypass"
  /\ forallb (lets_through (Bypass "no-text" (VStr "no-text") 1)) few_words_block = true
  /\ chain (settled (Rejected (Bypass "no-text" (VStr "no-text") 1)))
       (few_words_block ++ [CatchResume (VStr "no-text")]) (engine_after 2)
     = (Fulfilled (VBool true),
        {| indentation := 0; listeners := [];
           trace := [Console Warn (Text "Refusing to bypass non-AssertionError");
                     Console Error (Obj (Bypass "no-text" (VStr "no-text") 1))];
           nextRef := 2 |}).
Proof.
  split; [ reflexivity | split; [ reflexivity | ] ].
  exact (proj2 (bypass_passes_through few_words_block (Bypass "no-text" (VStr "no-text") 1)
                  eq_refl eq_refl
                  (settled (Rejected (Bypass "no-text" (VStr "no-text") 1)))
                  (engine_after 2) (engine_after 2) eq_refl)
           (VStr "no-text") eq_refl).
Defined.

(* ===================================================================== *)
(** ** More on checks *)
(* ===================================================================== *)

(** The failure callback of [it] never returns: whatever happens in it, it
    ends with a throw. *)
Lemma report_failure_throws (name : string) (err : Signal) (st : State) :
  exists e st', report_failure name err st = (Throw e, st').
Proof.
  unfold report_failure. unfold bind at 1.
  destruct (emit_error err st) as [[b | e] st1]; [ | eexists; eexists; reflexivity ].
  unfold bind at 1.
  destruct (indent st1) as [[pre | e] st2]; [ | eexists; eexists; reflexivity ].
  unfold bind at 1. unfold console_warn, emit_event at 1.
  unfold bind at 1. unfold incr, set_indentation.
  unfold bind at 1.
  match goal with
  | |- context [stack_or_value ?e ?s] => destruct (stack_or_value e s) as [[what | e'] st3]
  end; [ | eexists; eexists; reflexivity ].
  unfold bind at 1.
  destruct (indentLines what st3) as [[lines | e'] st4]; [ | eexists; eexists; reflexivity ].
  eexists; eexists; reflexivity.
Qed.

(** A check is fulfilled only when its body completed, and then exactly the
    success line was written; a body that fails, by a throw or by a rejected
    promise, always gives a rejected check. *)
Theorem it_fulfilled_only_on_success (name : string) (contents : Action Ret) (st : State) :
  (forall f st0,
     settle contents st = (Rejected f, st0) ->
     exists e st', it name contents st = (Rejected e, st'))
  /\ (forall v st',
        it name contents st = (Fulfilled v, st') ->
        exists v0 st0,
          settle contents st = (Fulfilled v0, st0)
          /\ v = VUndefined
          /\ st' = {| indentation := indentation st0; listeners := listeners st0;
                      trace := trace st0
                               ++ [Console Log
                                     (Text (repeat_string "  " (Z.to_nat (indentation st0))
                                            ++ check_mark ++ name))];
                      nextRef := nextRef st0 |}).
Proof.
  unfold it, p_catch, p_then, settled. split.
  - intros f st0 Hbody. rewrite Hbody. unfold settle.
    destruct (report_failure_throws name f st0) as [e [st' Hthrow]].
    rewrite Hthrow. eexists; eexists; reflexivity.
  - intros v st' Hrun.
    destruct (settle contents st) as [[v0 | f] st0] eqn:Hbody.
    + exists v0, st0. split; [ reflexivity | ].
      unfold settle at 1 in Hrun. unfold report_success, bind at 1 in Hrun.
      destruct (indent_cases st0) as [[Hlen Hind] | [Hlen [e [st1 [Hind Hsame]]]]];
        rewrite Hind in Hrun.
      * unfold bind, console_log, emit_event, ret in Hrun. cbn in Hrun.
        inversion Hrun; subst. split; reflexivity.
      * cbn [adopt] in Hrun. unfold settle in Hrun.
        destruct (report_failure_throws name e st1) as [e' [st2 Hthrow]].
        rewrite Hthrow in Hrun. discriminate Hrun.
    + unfold settle in Hrun.
      destruct (report_failure_throws name f st0) as [e [st1 Hthrow]].
      rewrite Hthrow in Hrun. discriminate Hrun.
Qed.

(* ===================================================================== *)
(** ** Indentation of text *)
(* ===================================================================== *)

Lemma spaces_no_newline (n : nat) : has_newline (repeat_string "  " n) = false.
Proof. induction n as [| n IH]; simpl; [ reflexivity | exact IH ]. Qed.

Lemma spaces_length (n : nat) : String.length (repeat_string "  " n) = (2 * n)%nat.
Proof. induction n as [| n IH]; simpl; [ reflexivity | rewrite IH; lia ]. Qed.

Lemma lines_of_cons (s : string) : exists l ls, lines_of s = l :: ls.
Proof.
  induction s as [| c rest [l [ls IH]]]; simpl.
  - eexists; eexists; reflexivity.
  - destruct (Ascii.eqb c (ascii_of_nat 10)).
    + eexists; eexists; reflexivity.
    + rewrite IH. eexists; eexists; reflexivity.
Qed.

(** A prefix without a line feed goes to the first line. *)
Lemma lines_of_prefixed (p x l : string) (ls : list string) :
  has_newline p = false ->
  lines_of x = l :: ls ->
  lines_of (p ++ x) = (p ++ l) :: ls.
Proof.
  induction p as [| c p IH]; intros Hp Hx; cbn [append].
  - exact Hx.
  - cbn [has_newline] in Hp. apply orb_false_iff in Hp. destruct Hp as [Hc Hp].
    cbn [lines_of]. rewrite Hc, (IH Hp Hx). reflexivity.
Qed.

(** Replacing each line feed by a line feed and [p] puts [p] before every
    line but the first. *)
Lemma lines_of_replaced (p : string) (Hp : has_newline p = false) (s : string) :
  forall l ls,
    lines_of s = l :: ls ->
    lines_of (replace_newlines (nl ++ p) s) = l :: map (append p) ls.
Proof.
  induction s as [| c rest IH]; intros l ls Hs; cbn [lines_of replace_newlines] in *.
  - inversion Hs; subst. reflexivity.
  - destruct (Ascii.eqb c (ascii_of_nat 10)) eqn:Hc.
    + inversion Hs; subst.
      destruct (lines_of_cons rest) as [l' [ls' Hrest]].
      change ((nl ++ p) ++ replace_newlines (nl ++ p) rest)
        with (String (ascii_of_nat 10) (p ++ replace_newlines (nl ++ p) rest)).
      cbn [lines_of]. rewrite Ascii.eqb_refl.
      rewrite (lines_of_prefixed p _ l' (map (append p) ls') Hp (IH _ _ Hrest)).
      rewrite Hrest. reflexivity.
    + destruct (lines_of_cons rest) as [l' [ls' Hrest]].
      rewrite Hrest in Hs. inversion Hs; subst.
      cbn [lines_of]. rewrite Hc, (IH _ _ Hrest). reflexivity.
Qed.

(** [indentLines(msg)] on a string, at a depth [indent()] can print: the
    lines of the result are the lines of [msg], each behind the prefix of
    the depth, two spaces a level; nothing else changes. *)
Theorem indentLines_prefixes_every_line (msg : string) (st : State)
    (Hdepth : array_length_ok (indentation st + 1) = true) :
  exists text,
    indentLines (Text msg) st = (Return text, st)
    /\ lines_of text
       = map (append (repeat_string "  " (Z.to_nat (indentation st)))) (lines_of msg)
    /\ String.length (repeat_string "  " (Z.to_nat (indentation st)))
       = (2 * Z.to_nat (indentation st))%nat.
Proof.
  unfold indentLines, bind. rewrite !(indent_in_range st Hdepth).
  eexists. split; [ reflexivity | split; [ | apply spaces_length ] ].
  destruct (lines_of_cons msg) as [l [ls Hmsg]].
  rewrite (lines_of_prefixed _ _ l
             (map (append (repeat_string "  " (Z.to_nat (indentation st)))) ls)
             (spaces_no_newline _)
             (lines_of_replaced _ (spaces_no_newline _) msg l ls Hmsg)).
  rewrite Hmsg. reflexivity.
Qed.

(** A stack of two lines, one level deep. *)
Lemma indentLines_prefixes_every_line_witness :
  array_length_ok
    (indentation {| indentation := 1; listeners := []; trace := []; nextRef := 0 |} + 1)
  = true
  /\ exists text,
       indentLines (Text ("Error: boom" ++ frames))
         {| indentation := 1; listeners := []; trace := []; nextRef := 0 |}
       = (Return text, {| indentation := 1; listeners := []; trace := []; nextRef := 0 |})
       /\ lines_of text = ["  Error: boom"; "      at <anonymous>"].
Proof.
  split; [ reflexivity | ].
  destruct (indentLines_prefixes_every_line ("Error: boom" ++ frames)
              {| indentation := 1; listeners := []; trace := []; nextRef := 0 |} eq_refl)
    as [text [Hrun [Hlines _]]].
  exists text. split; [ exact Hrun | exact Hlines ].
Defined.

(* ===================================================================== *)
(** ** Checks made tolerant with [allowAssertion] *)
(* ===================================================================== *)

Lemma depth_in_range (d : Z) :
  0 <= d -> d <= 4294967293 ->
  array_length_ok (d + 1) = true /\ array_length_ok (d + 1 + 1) = true.
Proof.
  intros Hlow Hhigh. unfold array_length_ok.
  split; apply andb_true_iff; split; apply Z.leb_le; lia.
Qed.

(** What the failure callback does for an instance of [Error] with a stack
    when no listener throws. *)
Lemma report_failure_run (name : string) (f : Signal) (st : State) (s : string) :
  (forall l, In l (listeners st) -> l f = None) ->
  is_error f = true ->
  truthy_stack f = Some s ->
  array_length_ok (indentation st + 1) = true ->
  array_length_ok (indentation st + 1 + 1) = true ->
  report_failure name f st
  = (Throw f,
     {| indentation := indentation st; listeners := listeners st;
        trace := trace st
                 ++ check_report (listeners st) (indentation st) (name, Rejected f);
        nextRef := nextRef st |}).
Proof.
  intros Hquiet Herr Hstack Hlen1 Hlen2.
  unfold report_failure, check_report. cbn [fst snd]. rewrite Hstack.
  unfold bind at 1. unfold emit_error.
  destruct (listeners st) as [| l ls] eqn:Hls.
  - rewrite Herr, app_nil_r, <- Hls, state_eta. reflexivity.
  - unfold bind at 1. rewrite call_listeners_quiet by exact Hquiet.
    unfold ret at 1. unfold bind at 1. rewrite indent_in_range by exact Hlen1.
    cbn [indentation]. unfold bind at 1. unfold console_warn, emit_event at 1.
    unfold bind at 1. unfold incr, set_indentation.
    assert (Hread : nullish f = false).
    { destruct f as [e | x]; [ reflexivity | discriminate Herr ]. }
    unfold bind at 1. rewrite (stack_or_value_signal f _ Hread).
    unfold bind at 1. unfold indentLines, stack_or_self. rewrite Hstack.
    unfold bind. cbn [indentation listeners trace nextRef].
    rewrite !indent_in_range by exact Hlen2.
    unfold ret, console_log, emit_event, decr, set_indentation, throw.
    cbn [indentation listeners trace nextRef].
    replace (indentation st + 1 - 1) with (indentation st) by lia.
    rewrite Hls. rewrite <- !app_assoc. reflexivity.
Qed.

(** One check followed by [.catch(out.allowAssertion)], for a body that
    completes or fails with an AssertionError. *)
Lemma tolerant_step (p : Async) (st st1 : State) (v : JsVal) (c : string * Settled) :
  p st = (Fulfilled v, st1) ->
  (forall l f, In l (listeners st1) -> l f = None) ->
  0 <= indentation st1 -> indentation st1 <= 4294967293 ->
  (forall f : Signal, snd c = Rejected f ->
     kind_of f = AssertionFailure /\ is_error f = true /\ truthy_stack f <> None) ->
  exists v',
    link (link p (ThenCheck (fst c) (settling (snd c)))) (CatchAllow None) st
    = (Fulfilled v',
       {| indentation := indentation st1; listeners := listeners st1;
          trace := trace st1 ++ check_report (listeners st1) (indentation st1) c;
          nextRef := nextRef st1 |}).
Proof.
  intros Hp Hquiet Hlow Hhigh Hfail.
  destruct (depth_in_range _ Hlow Hhigh) as [Hlen1 Hlen2].
  destruct c as [name [v0 | f]]; cbn [fst snd] in *.
  - exists VUndefined. cbn [link]. unfold p_catch, p_then. rewrite Hp.
    unfold _it, returning, settle, it, p_catch, p_then, settled, settle, settling, ret.
    cbn [adopt Promise_resolve]. unfold report_success, bind.
    rewrite (indent_in_range st1 Hlen1). reflexivity.
  - destruct (Hfail f eq_refl) as [Hname [Herr Hstack]].
    destruct (truthy_stack f) as [s |] eqn:Hs; [ | congruence ].
    exists (VBool true). cbn [link]. unfold p_catch, p_then. rewrite Hp.
    unfold _it, returning, settle, it, p_catch, p_then, settled, settle, settling, ret.
    cbn [adopt Promise_resolve].
    rewrite (report_failure_run name f st1 s (fun l Hl => Hquiet l f Hl) Herr Hs Hlen1 Hlen2).
    cbn [adopt Promise_resolve]. apply kind_assertion in Hname.
    assert (Hread : nullish f = false).
    { destruct f as [e | x]; [ reflexivity | discriminate Herr ]. }
    unfold allowing, allowAssertion. unfold bind at 1. unfold bind at 1.
    rewrite (has_name_signal _ _ _ Hread), Hname. reflexivity.
Qed.

(** With [.catch(out.allowAssertion)] after each check no check is skipped:
    when every body completes or fails with an AssertionError (an instance
    of [Error] with a stack) and no listener throws, the chain is fulfilled
    and every check has written its report, in order, at the depth the
    chain started at. *)
Theorem tolerant_chain_runs_every_check (checks : list (string * Settled)) :
  forall (p : Async) (st st1 : State) (v : JsVal),
    p st = (Fulfilled v, st1) ->
    (forall l f, In l (listeners st1) -> l f = None) ->
    0 <= indentation st1 -> indentation st1 <= 4294967293 ->
    (forall name (f : Signal), In (name, Rejected f) checks ->
       kind_of f = AssertionFailure /\ is_error f = true /\ truthy_stack f <> None) ->
    exists v',
      chain p (tolerant_links (map (fun c => (fst c, settling (snd c))) checks)) st
      = (Fulfilled v',
         {| indentation := indentation st1; listeners := listeners st1;
            trace := trace st1
                     ++ flat_map (check_report (listeners st1) (indentation st1)) checks;
            nextRef := nextRef st1 |}).
Proof.
  induction checks as [| c rest IH]; intros p st st1 v Hp Hquiet Hlow Hhigh Hfail.
  - exists v. cbn. rewrite add_nothing. exact Hp.
  - cbn [map tolerant_links flat_map app chain fst snd].
    destruct (tolerant_step p st st1 v c Hp Hquiet Hlow Hhigh) as [v1 Hstep].
    { intros f Hf. apply (Hfail (fst c) f). left. destruct c; cbn in *. congruence. }
    destruct (IH _ st _ v1 Hstep) as [v' Hrest]; cbn [indentation listeners]; try assumption.
    { intros name f Hin. apply (Hfail name f). right. exact Hin. }
    exists v'. unfold tolerant_links in Hrest. rewrite Hrest.
    cbn [indentation listeners trace nextRef]. rewrite <- app_assoc. reflexivity.
Qed.

(** Three checks, the second failing, with one listener. *)
Lemma tolerant_chain_runs_every_check_witness :
  (forall l f, In l (listeners (on_error quiet (engine_after 1))) -> l f = None)
  /\ (forall name (f : Signal),
        In (name, Rejected f)
          [("should have '/dev'", Fulfilled VUndefined);
           ("should have '/var'", Rejected (assertion_error 0));
           ("should have '/root'", Fulfilled VUndefined)] ->
        kind_of f = AssertionFailure /\ is_error f = true /\ truthy_stack f <> None)
  /\ exists v',
       chain (settled (Fulfilled VUndefined))
         (tolerant_links
            [("should have '/dev'", settling (Fulfilled VUndefined));
             ("should have '/var'", settling (Rejected (assertion_error 0)));
             ("should have '/root'", settling (Fulfilled VUndefined))])
         (on_error quiet (engine_after 1))
       = (Fulfilled v',
          {| indentation := 0; listeners := [quiet];
             trace := [Console Log (Text (check_mark ++ "should have '/dev'"));
                       Notified 0 (assertion_error 0);
                       Console Warn (Text (cross_mark ++ "should have '/var'"));
                       Console Log (Text ("  AssertionError: expected 1 to equal 2" ++ nl
                                          ++ "      at <anonymous>"));
                       Console Log (Text (check_mark ++ "should have '/root'"))];
             nextRef := 1 |}).
Proof.
  assert (Hquiet : forall l f, In l (listeners (on_error quiet (engine_after 1))) -> l f = None).
  { intros l f [Hl | []]. subst l. reflexivity. }
  assert (Hfail : forall name (f : Signal),
        In (name, Rejected f)
          [("should have '/dev'", Fulfilled VUndefined);
           ("should have '/var'", Rejected (assertion_error 0));
           ("should have '/root'", Fulfilled VUndefined)] ->
        kind_of f = AssertionFailure /\ is_error f = true /\ truthy_stack f <> None).
  { intros name f [H | [H | [H | []]]]; inversion H; subst.
    split; [ reflexivity | split; [ reflexivity | discriminate ] ]. }
  split; [ exact Hquiet | split; [ exact Hfail | ] ].
  exact (tolerant_chain_runs_every_check
           [("should have '/dev'", Fulfilled VUndefined);
            ("should have '/var'", Rejected (assertion_error 0));
            ("should have '/root'", Fulfilled VUndefined)]
           (settled (Fulfilled VUndefined))
           (on_error quiet (engine_after 1)) (on_error quiet (engine_after 1)) VUndefined
           eq_refl Hquiet ltac:(simpl; lia) ltac:(simpl; lia) Hfail).
Defined.

(* ===================================================================== *)
(** ** More on the readiness pollers *)
(* ===================================================================== *)

Lemma inside_then_resolved (res : option (Poll * World)) (w' : World) :
  inside_then res = Some (Resolved, w') -> res = Some (Resolved, w').
Proof.
  destruct res as [[[e0 | | e0] w0] |]; simpl; intro H; inversion H; subst; reflexivity.
Qed.

Lemma retry_time_lower (probe : nat -> Attempt) (k : nat) :
  forall from, 100 * Z.of_nat k <= retry_time probe from k.
Proof.
  induction k as [| k IH]; intro from; cbn [retry_time].
  - lia.
  - specialize (IH (S from)). lia.
Qed.

Section MorePollers.

Variable ssh : string -> nat -> Attempt.
Variable sshTimeout : Z.

(** What a resolved [ensureStarted] tells: some attempt succeeded, the ones
    before it failed, and the deadline test let each of them through. *)
Lemma ensureStarted_resolved (fuel : nat) :
  forall (timeout t0 n : Z) (w w' : World),
    ensureStarted ssh sshTimeout fuel timeout (Date t0) (Some n) w = Some (Resolved, w') ->
    exists k : nat,
      (forall i, (i < k)%nat ->
         succeeds (probe_machine ssh sshTimeout (connections w + i)) = false)
      /\ succeeds (probe_machine ssh sshTimeout (connections w + k)) = true
      /\ clock w - t0 + retry_time (probe_machine ssh sshTimeout) (connections w) k
         <= timeout
      /\ connections w' = (connections w + k + 1)%nat
      /\ clock w' = clock w + retry_time (probe_machine ssh sshTimeout) (connections w) k
                    + Z.of_N (takes (probe_machine ssh sshTimeout (connections w + k))).
Proof.
  induction fuel as [| fuel IH]; intros timeout t0 n w w' Hrun.
  - discriminate Hrun.
  - rewrite ensureStarted_step in Hrun.
    destruct (Z.gtb_spec (clock w - t0) timeout) as [Hlate | Hearly];
      [ discriminate Hrun | ].
    destruct (succeeds (probe_machine ssh sshTimeout (connections w))) eqn:Hup.
    + inversion Hrun; subst. exists 0%nat. cbn [retry_time].
      rewrite Nat.add_0_r. cbn [world_log call_ssh clock connections].
      repeat split; try lia; try assumption.
    + apply inside_then_resolved in Hrun.
      destruct (IH _ _ _ _ _ Hrun) as [k [Hdown [Hlast [Hearly' [Hconn Hclock]]]]].
      cbn [sleep advance call_ssh clock connections] in *.
      exists (S k). cbn [retry_time].
      replace (connections w + S k)%nat with (S (connections w) + k)%nat by lia.
      repeat split; try lia; try assumption.
      intros i Hi. destruct i as [| i].
      * rewrite Nat.add_0_r. exact Hup.
      * replace (connections w + S i)%nat with (S (connections w) + i)%nat by lia.
        apply Hdown. lia.
Qed.

(** [ensureStarted(timeout)] resolves exactly when some attempt succeeds
    after failures that the deadline test lets through; it has then made
    one attempt more than the failures, and the clock has moved by what the
    attempts took and by 100 ms for each failure. *)
Theorem ensureStarted_resolves_iff (timeout : Z) (w : World) :
  ((exists fuel w',
      ensureStarted ssh sshTimeout fuel timeout NotGiven None w = Some (Resolved, w'))
   <-> (exists k : nat,
          (forall i, (i < k)%nat ->
             succeeds (probe_machine ssh sshTimeout (connections w + i)) = false)
          /\ succeeds (probe_machine ssh sshTimeout (connections w + k)) = true
          /\ retry_time (probe_machine ssh sshTimeout) (connections w) k <= timeout))
  /\ (forall fuel w',
        ensureStarted ssh sshTimeout fuel timeout NotGiven None w = Some (Resolved, w') ->
        exists k : nat,
          connections w' = (connections w + k + 1)%nat
          /\ clock w'
             = clock w + retry_time (probe_machine ssh sshTimeout) (connections w) k
               + Z.of_N (takes (probe_machine ssh sshTimeout (connections w + k)))).
Proof.
  split; [ split | ].
  - intros [fuel [w' Hrun]]. rewrite ensureStarted_defaults in Hrun.
    destruct (ensureStarted_resolved _ _ _ _ _ _ Hrun)
      as [k [Hdown [Hup [Hearly _]]]].
    exists k. repeat split; try assumption. lia.
  - intros [k [Hdown [Hup Hearly]]].
    exists (S k). eexists. rewrite ensureStarted_defaults.
    apply (ensureStarted_up_after ssh sshTimeout k (S k) timeout (clock w) 0 w);
      try assumption; lia.
  - intros fuel w' Hrun. rewrite ensureStarted_defaults in Hrun.
    destruct (ensureStarted_resolved _ _ _ _ _ _ Hrun)
      as [k [_ [_ [_ [Hconn Hclock]]]]].
    exists k. split; assumption.
Qed.

(** The per-attempt bound changes nothing as long as no attempt outlasts it
    and the bound is a delay that fits the timer, 2^31 - 1 ms at most:
    [ensureStarted] then behaves as its earlier copy does. *)
Theorem ensureStarted_bound_unused
    (Hquick : forall i, Z.of_N (takes (ssh "echo 'Test'" i)) < sshTimeout)
    (Hdelay : sshTimeout <= 2147483647) (fuel : nat) :
  forall (timeout : Z) (started : Started) (failures : option Z) (w : World),
    ensureStarted ssh sshTimeout fuel timeout started failures w
    = ensureStarted_unbounded ssh fuel timeout started failures w.
Proof.
  assert (Hprobe : forall i, probe_machine ssh sshTimeout i = ssh "echo 'Test'" i).
  { intro i. unfold probe_machine, promiseTimeout, timer_delay.
    destruct (Z.gtb_spec sshTimeout 2147483647) as [Hlong | _]; [ lia | ].
    destruct (Z.ltb_spec (Z.of_N (takes (ssh "echo 'Test'" i))) sshTimeout) as [_ | Hle];
      [ reflexivity | specialize (Hquick i); lia ]. }
  induction fuel as [| fuel IH]; intros timeout started failures w.
  - reflexivity.
  - cbn [ensureStarted ensureStarted_unbounded]. rewrite Hprobe.
    destruct (clock w - time_of (if not_started started then Date (clock w) else started)
              >? timeout); [ reflexivity | ].
    destruct (succeeds (ssh "echo 'Test'" (connections w))); [ reflexivity | ].
    rewrite IH. reflexivity.
Qed.

(** When every probe fails, whatever time each of them takes,
    [ensureStarted(timeout)] is rejected, more than [timeout] ms after the
    call: after [n] attempts, one at least and [timeout / 100 + 1] at most,
    since each is followed by a backoff of 100 ms; the message carries [n].
    ([ssh] of the abstract class fails every probe.) *)
Theorem ensureStarted_failing_probes (timeout : Z) (w : World)
    (Htimeout : 0 <= timeout)
    (Hdown : forall i, succeeds (probe_machine ssh sshTimeout i) = false) :
  exists (n : nat) e w',
    ensureStarted ssh sshTimeout (Z.to_nat (timeout / 100) + 2) timeout NotGiven None w
    = Some (RejectedWith e, w')
    /\ 1 <= Z.of_nat n <= timeout / 100 + 1
    /\ connections w' = (connections w + n)%nat
    /\ timeout < clock w' - clock w
    /\ 100 * Z.of_nat n <= clock w' - clock w
    /\ TestError.message e = ensureStarted_message timeout (Z.of_nat n).
Proof.
  pose proof (deadline_in_steps timeout) as Hsteps.
  replace (Z.to_nat (timeout / 100) + 2)%nat with (S (Z.to_nat (timeout / 100) + 1))
    by lia.
  destruct (ensureStarted_ends ssh sshTimeout (Z.to_nat (timeout / 100) + 1) timeout
              (clock w) 0 w) as [r [w' Hrun]]; [ lia | ].
  destruct (ensureStarted_never_up ssh sshTimeout _ _ _ _ _ _ _ Hdown Hrun) as [e Hfatal].
  destruct (ensureStarted_fatal ssh sshTimeout _ _ _ _ _ _ _ _ Hrun Hfatal)
    as [m [Hconn [Hclock [Hpast [Hbefore [Hmsg [_ [_ Hrej]]]]]]]].
  pose proof (retry_time_lower (probe_machine ssh sshTimeout) m (connections w)) as Hlong.
  assert (Hm : 1 <= Z.of_nat m <= timeout / 100 + 1).
  { destruct m as [| m].
    - cbn [retry_time] in Hclock. lia.
    - specialize (Hbefore m (Nat.lt_succ_diag_r m)).
      pose proof (retry_time_lower (probe_machine ssh sshTimeout) m (connections w)) as Hlow.
      assert (Hq : Z.of_nat m <= timeout / 100).
      { apply Z.div_le_lower_bound; lia. }
      lia. }
  exists m, e, w'.
  rewrite ensureStarted_defaults, Hrun.
  rewrite (Hrej ltac:(lia)).
  split; [ reflexivity | split; [ exact Hm | split; [ exact Hconn | ] ] ].
  split; [ lia | split; [ lia | ] ].
  rewrite Hmsg. f_equal.
Qed.

(** What a fatal end of [ensureServiceStarted] tells, as for
    [ensureStarted]. *)
Lemma ensureServiceStarted_fatal_when (fuel : nat) :
  forall (service : string) (timeout t0 : Z) (w w' : World) (r : Poll) (e : TestError.t),
    ensureServiceStarted ssh fuel service timeout (Date t0) w = Some (r, w') ->
    fatal r = Some e ->
    exists m : nat,
      connections w' = (connections w + m)%nat
      /\ clock w' = clock w + retry_time (probe_service ssh service) (connections w) m
      /\ timeout < clock w' - t0
      /\ (forall j, (j < m)%nat ->
            clock w - t0 + retry_time (probe_service ssh service) (connections w) j
            <= timeout).
Proof.
  induction fuel as [| fuel IH]; intros service timeout t0 w w' r e Hrun Hfatal.
  - discriminate Hrun.
  - rewrite ensureServiceStarted_step in Hrun. cbn [not_started time_of] in Hrun.
    destruct (Z.gtb_spec (clock w - t0) timeout) as [Hlate | Hearly].
    + inversion Hrun; subst. exists 0%nat. cbn [retry_time].
      repeat split; try lia.
    + destruct (succeeds (probe_service ssh service (connections w))) eqn:Hup.
      * inversion Hrun; subst. discriminate Hfatal.
      * destruct (inside_then_fatal _ _ _ _ Hrun Hfatal) as [Hr [r0 [Hrec Hf0]]].
        destruct (IH _ _ _ _ _ _ _ Hrec Hf0) as [m [Hconn [Hclock [Hpast Hbefore]]]].
        cbn [sleep advance call_ssh clock connections output] in *.
        exists (S m). cbn [retry_time].
        repeat split; try lia.
        intros j Hj. destruct j as [| j]; cbn [retry_time]; [ lia | ].
        specialize (Hbefore j). lia.
Qed.

Lemma ensureServiceStarted_never_up (fuel : nat) :
  forall (service : string) (timeout t0 : Z) (w w' : World) (r : Poll),
    (forall i, succeeds (probe_service ssh service i) = false) ->
    ensureServiceStarted ssh fuel service timeout (Date t0) w = Some (r, w') ->
    exists e, fatal r = Some e.
Proof.
  induction fuel as [| fuel IH]; intros service timeout t0 w w' r Hdown Hrun.
  - discriminate Hrun.
  - rewrite ensureServiceStarted_step in Hrun. cbn [not_started time_of] in Hrun.
    destruct (clock w - t0 >? timeout).
    + inversion Hrun; subst. eexists; reflexivity.
    + rewrite Hdown in Hrun.
      destruct (ensureServiceStarted ssh fuel service timeout (Date t0)
                  (sleep 100 (call_ssh (probe_service ssh service (connections w)) w)))
        as [[r0 w0] |] eqn:Hrec; [ | discriminate Hrun ].
      destruct (IH _ _ _ _ _ _ Hdown Hrec) as [e He].
      destruct r0; simpl in *; inversion Hrun; subst; inversion He; subst;
        eexists; reflexivity.
Qed.

Lemma ensureServiceStarted_up_after (k : nat) :
  forall (fuel : nat) (service : string) (timeout t0 : Z) (w : World),
    (k < fuel)%nat ->
    (forall i, (i < k)%nat ->
       succeeds (probe_service ssh service (connections w + i)) = false) ->
    succeeds (probe_service ssh service (connections w + k)) = true ->
    clock w - t0 + retry_time (probe_service ssh service) (connections w) k <= timeout ->
    ensureServiceStarted ssh fuel service timeout (Date t0) w
    = Some (Resolved,
            {| clock := clock w
                        + retry_time (probe_service ssh service) (connections w) k
                        + Z.of_N (takes (probe_service ssh service (connections w + k)));
               connections := connections w + k + 1;
               output := output w |}).
Proof.
  induction k as [| k IH]; intros fuel service timeout t0 w Hfuel Hdown Hup Hearly;
    (destruct fuel as [| fuel]; [ lia | ]); rewrite ensureServiceStarted_step;
    cbn [retry_time not_started time_of] in *.
  - destruct (Z.gtb_spec (clock w - t0) timeout) as [Hlate | _]; [ lia | ].
    rewrite Nat.add_0_r in *. rewrite Hup.
    unfold call_ssh. rewrite !Z.add_0_r.
    replace (S (connections w)) with (connections w + 1)%nat by lia. reflexivity.
  - pose proof (retry_time_nonneg (probe_service ssh service) k (S (connections w))) as Hpos.
    destruct (Z.gtb_spec (clock w - t0) timeout) as [Hlate | _]; [ lia | ].
    pose proof (Hdown 0%nat ltac:(lia)) as Hfirst. rewrite Nat.add_0_r in Hfirst.
    rewrite Hfirst.
    rewrite (IH fuel service timeout t0
               (sleep 100 (call_ssh (probe_service ssh service (connections w)) w)));
      cbn [sleep advance call_ssh clock connections output]; try lia.
    + cbn [inside_then].
      replace (S (connections w) + k)%nat with (connections w + S k)%nat by lia.
      replace (S (connections w) + k + 1)%nat with (connections w + S k + 1)%nat by lia.
      rewrite !Z.add_assoc. reflexivity.
    + intros i Hi. replace (S (connections w) + i)%nat with (connections w + S i)%nat by lia.
      apply Hdown. lia.
    + replace (S (connections w) + k)%nat with (connections w + S k)%nat by lia. exact Hup.
Qed.

(** [ensureServiceStarted(service, timeout)]: when the first [k] probes fail,
    the next one succeeds and the time up to it (what the failed probes took,
    with no bound of its own, and 100 ms after each) does not exceed the
    timeout, it resolves after [k + 1] probes and writes nothing; when every
    probe fails it ends fatally at the first deadline test that finds more
    than the timeout elapsed. *)
Theorem ensureServiceStarted_retries (service : string) :
  (forall (k fuel : nat) (timeout : Z) (w : World),
     (k < fuel)%nat ->
     (forall i, (i < k)%nat ->
        succeeds (probe_service ssh service (connections w + i)) = false) ->
     succeeds (probe_service ssh service (connections w + k)) = true ->
     retry_time (probe_service ssh service) (connections w) k <= timeout ->
     ensureServiceStarted ssh fuel service timeout NotGiven w
     = Some (Resolved,
             {| clock := clock w
                         + retry_time (probe_service ssh service) (connections w) k
                         + Z.of_N (takes (probe_service ssh service (connections w + k)));
                connections := connections w + k + 1;
                output := output w |}))
  /\ (forall (timeout : Z) (w : World),
        (forall i, succeeds (probe_service ssh service i) = false) ->
        exists (fuel m : nat) (r : Poll) (e : TestError.t) (w' : World),
          ensureServiceStarted ssh fuel service timeout NotGiven w = Some (r, w')
          /\ fatal r = Some e
          /\ connections w' = (connections w + m)%nat
          /\ clock w' = clock w + retry_time (probe_service ssh service) (connections w) m
          /\ timeout < retry_time (probe_service ssh service) (connections w) m
          /\ (forall j, (j < m)%nat ->
                retry_time (probe_service ssh service) (connections w) j <= timeout)).
Proof.
  assert (Hdefault : forall fuel timeout w,
            ensureServiceStarted ssh fuel service timeout NotGiven w
            = ensureServiceStarted ssh fuel service timeout (Date (clock w)) w).
  { intros fuel timeout w. destruct fuel; reflexivity. }
  split.
  - intros k fuel timeout w Hfuel Hdown Hup Hearly. rewrite Hdefault.
    apply ensureServiceStarted_up_after; try assumption. lia.
  - intros timeout w Hdown.
    destruct (ensureServiceStarted_ends ssh (Z.to_nat timeout + 1) service timeout
                (clock w) w) as [r [w' Hrun]]; [ lia | ].
    destruct (ensureServiceStarted_never_up _ _ _ _ _ _ _ Hdown Hrun) as [e Hfatal].
    destruct (ensureServiceStarted_fatal_when _ _ _ _ _ _ _ _ Hrun Hfatal)
      as [m [Hconn [Hclock [Hpast Hbefore]]]].
    exists (S (Z.to_nat timeout + 1)), m, r, e, w'.
    rewrite Hdefault, Hrun.
    repeat split; try assumption; try lia.
    intros j Hj. specialize (Hbefore j Hj). lia.
Qed.

End MorePollers.

(** The abstract class, against a timeout of 250 ms. *)
Lemma ensureStarted_failing_probes_witness :
  0 <= 250
  /\ (forall i, succeeds (probe_machine abstract_ssh 120000 i) = false)
  /\ exists (n : nat) e w',
       ensureStarted abstract_ssh 120000 (Z.to_nat (250 / 100) + 2) 250 NotGiven None epoch
       = Some (RejectedWith e, w')
       /\ 1 <= Z.of_nat n <= 250 / 100 + 1
       /\ connections w' = (connections epoch + n)%nat
       /\ TestError.message e = ensureStarted_message 250 (Z.of_nat n).
Proof.
  assert (Htimeout : 0 <= 250) by lia.
  assert (Hdown : forall i, succeeds (probe_machine abstract_ssh 120000 i) = false)
    by (intro i; reflexivity).
  split; [ exact Htimeout | split; [ exact Hdown | ] ].
  destruct (ensureStarted_failing_probes abstract_ssh 120000 250 epoch Htimeout Hdown)
    as [n [e [w' [Hrun [Hn [Hconn [_ [_ Hmsg]]]]]]]].
  exists n, e, w'. split; [ exact Hrun | split; [ exact Hn | split; [ exact Hconn | exact Hmsg ] ] ].
Defined.

(** Attempts of 20 ms against a bound of two minutes. *)
Lemma ensureStarted_bound_unused_witness :
  (forall i, Z.of_N (takes (up_at_third "echo 'Test'" i)) < 120000)
  /\ 120000 <= 2147483647
  /\ ensureStarted up_at_third 120000 3 60000 NotGiven None epoch
     = ensureStarted_unbounded up_at_third 3 60000 NotGiven None epoch.
Proof.
  assert (Hquick : forall i, Z.of_N (takes (up_at_third "echo 'Test'" i)) < 120000).
  { intro i. cbn. lia. }
  assert (Hdelay : 120000 <= 2147483647) by lia.
  split; [ exact Hquick | split; [ exact Hdelay | ] ].
  exact (ensureStarted_bound_unused up_at_third 120000 Hquick Hdelay 3 60000 NotGiven None
           epoch).
Defined.

(** A bound of 2^31 ms does not fit the timer and is cut to 1 ms: attempts
    of 20 ms are then given up, each of them, and the poller fails where the
    earlier copy of the class resolves at the third attempt. *)
Example ensureStarted_bound_cut :
  (forall i, Z.of_N (takes (up_at_third "echo 'Test'" i)) < 2147483648)
  /\ ensureStarted up_at_third 2147483648 5 250 NotGiven None epoch
     = Some (RejectedWith (new_TestError (ensureStarted_message 250 3) None),
             {| clock := 303; connections := 3; output := [] |})
  /\ exists line,
       ensureStarted_unbounded up_at_third 5 250 NotGiven None epoch
       = Some (Resolved, {| clock := 260; connections := 3; output := [line] |}).
Proof.
  split; [ intro i; cbn; lia | split; [ reflexivity | eexists; reflexivity ] ].
Qed.

(** A service that is active at the third probe. *)
Lemma ensureServiceStarted_retries_witness :
  (2 < 3)%nat
  /\ (forall i, (i < 2)%nat ->
        succeeds (probe_service up_at_third "nginx" (connections epoch + i)) = false)
  /\ succeeds (probe_service up_at_third "nginx" (connections epoch + 2)) = true
  /\ retry_time (probe_service up_at_third "nginx") (connections epoch) 2 <= 1000
  /\ ensureServiceStarted up_at_third 3 "nginx" 1000 NotGiven epoch
     = Some (Resolved, {| clock := 260; connections := 3; output := [] |}).
Proof.
  assert (Hfuel : (2 < 3)%nat) by lia.
  assert (Hdown : forall i, (i < 2)%nat ->
            succeeds (probe_service up_at_third "nginx" (connections epoch + i)) = false).
  { intros i Hi. destruct i as [| [| i]]; [ reflexivity | reflexivity | lia ]. }
  assert (Hup : succeeds (probe_service up_at_third "nginx" (connections epoch + 2)) = true)
    by reflexivity.
  assert (Hearly : retry_time (probe_service up_at_third "nginx") (connections epoch) 2
                   <= 1000) by (vm_compute; discriminate).
  split; [ exact Hfuel | split; [ exact Hdown | split; [ exact Hup | split; [ exact Hearly | ] ] ] ].
  exact (proj1 (ensureServiceStarted_retries up_at_third "nginx") 2%nat 3%nat 1000 epoch
           Hfuel Hdown Hup Hearly).
Defined.

(* ===================================================================== *)
(** ** IO: what counts as a yes *)
(* ===================================================================== *)

Lemma e_is_not_y (c : ascii) : is_e c = true -> is_y c = false.
Proof.
  unfold is_e, is_y. intro H. apply orb_true_iff in H.
  destruct H as [H | H]; apply Ascii.eqb_eq in H; subst c; reflexivity.
Qed.

Lemma yes_word_not_empty (w : string) : YesWord w -> w <> EmptyString.
Proof. intro H. destruct H; discriminate. Qed.

Lemma yes_words_not_empty (s : string) : YesWords s -> s <> EmptyString.
Proof.
  intro H. induction H as [w Hw | w rest Hw _ _].
  - exact (yes_word_not_empty w Hw).
  - destruct Hw; discriminate.
Qed.

(** A word of the group before a matched rest is matched. *)
Lemma yes_words_after_word (w rest : string) :
  YesWord w -> yes_words rest = true -> yes_words (w ++ rest) = true.
Proof.
  intros Hw Hrest. destruct Hw as [y e s Hy He Hs | y Hy]; cbn [append yes_words].
  - rewrite Hy, He, Hs, Hrest. reflexivity.
  - rewrite Hy. cbn [andb].
    destruct rest as [| e [| x rest']]; try exact Hrest.
    destruct (is_e e) eqn:He; [ | exact Hrest ].
    cbn [yes_words] in Hrest. rewrite (e_is_not_y e He) in Hrest. discriminate Hrest.
Qed.

Lemma yes_words_complete (s : string) : YesWords s -> yes_words s = true.
Proof.
  intro H. induction H as [w Hw | w rest Hw _ IH].
  - rewrite <- (yes_words_after_word w EmptyString Hw eq_refl).
    f_equal. destruct Hw; reflexivity.
  - exact (yes_words_after_word w rest Hw IH).
Qed.

Lemma yes_words_sound (n : nat) :
  forall s, (String.length s <= n)%nat -> yes_words s = true ->
            s = EmptyString \/ YesWords s.
Proof.
  induction n as [| n IH]; intros s Hlen Hs.
  - destruct s; [ left; reflexivity | simpl in Hlen; lia ].
  - destruct s as [| c rest]; [ left; reflexivity | right ].
    cbn [yes_words] in Hs. apply andb_true_iff in Hs. destruct Hs as [Hy Hs].
    cbn [String.length] in Hlen.
    assert (Hshort : forall t, yes_words t = true -> (String.length t <= n)%nat ->
                               YesWords (String c t)).
    { intros t Ht Hn. destruct (IH t Hn Ht) as [Hempty | Hwords].
      - subst t. apply words_one, word_y, Hy.
      - apply (words_more (String c EmptyString) t (word_y c Hy) Hwords). }
    destruct rest as [| e [| x rest']].
    + apply words_one, word_y, Hy.
    + apply Hshort; [ exact Hs | lia ].
    + destruct (is_e e) eqn:He.
      * apply andb_true_iff in Hs. destruct Hs as [Hx Hrest].
        cbn [String.length] in Hlen.
        destruct (IH rest' ltac:(lia) Hrest) as [Hempty | Hwords].
        -- subst rest'. apply words_one, word_yes; assumption.
        -- apply (words_more (String c (String e (String x EmptyString))) rest'
                    (word_yes c e x Hy He Hx) Hwords).
      * apply Hshort; [ exact Hs | lia ].
Qed.

(** [yesRegex.test(s)] holds exactly for the strings made of one or more of
    the words y and yes, in any mix of cases, and nothing else. *)
Theorem yesRegex_test_spec (s : string) : yesRegex_test s = true <-> YesWords s.
Proof.
  split.
  - intro H. destruct s as [| c rest]; [ discriminate H | ].
    destruct (yes_words_sound _ _ (Nat.le_refl _) H) as [Hempty | Hwords];
      [ discriminate Hempty | exact Hwords ].
  - intro H. pose proof (yes_words_not_empty s H) as Hne.
    destruct s as [| c rest]; [ congruence | ].
    exact (yes_words_complete _ H).
Qed.

(** What [yesRegex] rejects: every string with a character other than the
    letters y, e and s. *)
Lemma yes_words_letters (s : string) :
  YesWords s ->
  forall c, In c (list_ascii_of_string s) -> is_y c = true \/ is_e c = true \/ is_s c = true.
Proof.
  intro H. induction H as [w Hw | w rest Hw _ IH]; intros c Hin.
  - destruct Hw as [y e s Hy He Hs | y Hy]; simpl in Hin;
      repeat (destruct Hin as [Hin | Hin]; [ subst c; tauto | ]); contradiction.
  - destruct Hw as [y e s Hy He Hs | y Hy]; simpl in Hin;
      repeat (destruct Hin as [Hin | Hin]; [ subst c; tauto | ]);
      exact (IH c Hin).
Qed.

(* ===================================================================== *)
(** ** IO: asking *)
(* ===================================================================== *)

Lemma prompt_shape (question defaultVal : string) :
  question ++ " (" ++ fst (formatYesNo defaultVal) ++ "/" ++ snd (formatYesNo defaultVal)
  ++ ") "
  = question ++ " (" ++ (if yesRegex_test defaultVal then "Y/n" else "y/N") ++ ") ".
Proof. unfold formatYesNo. destruct (yesRegex_test defaultVal); reflexivity. Qed.

(** [yesNo] always gives an answer and changes neither the exit code nor
    the sessions.  In CI it reads nothing: the answer is the one of the CI
    default, and one line shows the question with that default in capitals.
    At a terminal it asks once; a line that is empty after trimming gives
    the answer of the console default, the letter the prompt shows in
    capitals, and any other line is judged by itself. *)
Theorem yesNo_answer (env : Env.t) (question consoleDefault ciDefault : string) (r : Run) :
  exists answer r',
    yesNo env question consoleDefault ciDefault r = Some (Ok answer, r')
    /\ exitCode r' = exitCode r
    /\ sessions r' = sessions r
    /\ (Env.isCI env = true ->
          answer = yesRegex_test ciDefault
          /\ typed r' = typed r
          /\ steps r'
             = (steps r
                ++ [Said (question ++ " (" ++ (if answer then "Y/n" else "y/N") ++ ") "
                          ++ Env.toUpperCase env ciDefault)])%list)
    /\ (Env.isCI env = false ->
          typed r' = S (typed r)
          /\ answer
             = yesRegex_test
                 (match Env.trim env (Env.answers env (typed r)) with
                  | EmptyString => consoleDefault
                  | String _ _ => Env.trim env (Env.answers env (typed r))
                  end)
          /\ exists before,
               steps r'
               = (before
                  ++ [Asked (question ++ " ("
                             ++ (if yesRegex_test consoleDefault then "Y/n" else "y/N")
                             ++ ") ")])%list).
Proof.
  unfold yesNo. destruct (Env.isCI env) eqn:Hci.
  - exists (yesRegex_test ciDefault). eexists.
    split; [ unfold job_then, step, job_ret; reflexivity | ].
    cbn [exitCode sessions typed steps].
    split; [ reflexivity | split; [ reflexivity | split; [ | discriminate ] ] ].
    intros _. split; [ reflexivity | split; [ reflexivity | ] ].
    unfold questionFormat, ciAnswerFormat. rewrite prompt_shape.
    rewrite !string_append_assoc. reflexivity.
  - unfold job_then, bell, askQuestion, step, job_ret, questionFormat.
    rewrite prompt_shape.
    destruct (Env.noBell env); eexists; eexists;
      (split; [ reflexivity | ]); cbn [exitCode sessions typed steps];
      (split; [ reflexivity | split; [ reflexivity | split; [ discriminate | ] ] ]);
      intros _; (split; [ reflexivity | split ]);
      try (destruct (Env.trim env (Env.answers env (typed r))); reflexivity);
      eexists; reflexivity.
Qed.

(* ===================================================================== *)
(** ** CloudMachineTest: the stages *)
(* ===================================================================== *)

Create HintDb calm.

Lemma calm_ret {A} (a : A) : calm_job (job_ret a).
Proof.
  intros r res r' H. inversion H; subst. split; [ reflexivity | ].
  exists []. rewrite app_nil_r. split; reflexivity.
Qed.

Lemma calm_fail {A} (f : Failure) : calm_job (@job_fail A f).
Proof.
  intros r res r' H. inversion H; subst. split; [ reflexivity | ].
  exists []. rewrite app_nil_r. split; reflexivity.
Qed.

Lemma calm_settles {A} (res0 : Result A) : calm_job (settles res0).
Proof.
  intros r res r' H. inversion H; subst. split; [ reflexivity | ].
  exists []. rewrite app_nil_r. split; reflexivity.
Qed.

Lemma calm_step (s : Step) : calm s = true -> calm_job (step s).
Proof.
  intros Hs r res r' H. inversion H; subst. split; [ reflexivity | ].
  exists [s]. split; [ reflexivity | ]. simpl. rewrite Hs. reflexivity.
Qed.

Lemma calm_then {A B} (p : Job A) (k : A -> Job B) :
  calm_job p -> (forall a, calm_job (k a)) -> calm_job (job_then p k).
Proof.
  intros Hp Hk r res r' H. unfold job_then in H.
  destruct (p r) as [[[a | f] r1] |] eqn:Hrun; [ | | discriminate H ].
  - destruct (Hp _ _ _ Hrun) as [Hcode [l1 [Hsteps Hcalm]]].
    destruct (Hk a _ _ _ H) as [Hcode' [l2 [Hsteps' Hcalm']]].
    split; [ congruence | ].
    exists (l1 ++ l2)%list. rewrite Hsteps', Hsteps, app_assoc, forallb_app, Hcalm, Hcalm'.
    split; reflexivity.
  - inversion H; subst. exact (Hp _ _ _ Hrun).
Qed.

Lemma calm_if {A} (b : bool) (j1 j2 : Job A) :
  calm_job j1 -> calm_job j2 -> calm_job (if b then j1 else j2).
Proof. destruct b; intros; assumption. Qed.

#[local] Hint Resolve calm_ret calm_fail calm_settles calm_then calm_if : calm.

Lemma calm_status (msg : string) : calm_job (status msg).
Proof. apply calm_step. reflexivity. Qed.

Lemma calm_bell (env : Env.t) : calm_job (bell env).
Proof.
  unfold bell. intros r res r' H. destruct (Env.noBell env).
  - exact (calm_ret tt r res r' H).
  - exact (calm_step Rang eq_refl r res r' H).
Qed.

Lemma calm_askQuestion (env : Env.t) (text : string) : calm_job (askQuestion env text).
Proof.
  intros r res r' H. inversion H; subst. split; [ reflexivity | ].
  exists [Asked text]. split; reflexivity.
Qed.

#[local] Hint Resolve calm_status calm_bell calm_askQuestion : calm.

Lemma calm_yesNo (env : Env.t) (q cd ci : string) : calm_job (yesNo env q cd ci).
Proof.
  unfold yesNo. destruct (Env.isCI env).
  - apply calm_then; [ apply calm_step; reflexivity | intro; apply calm_ret ].
  - auto 6 with calm.
Qed.

#[local] Hint Resolve calm_yesNo : calm.

Lemma calm_confirm_another (env : Env.t) : calm_job (confirm_another env).
Proof. unfold confirm_another. apply calm_then; [ auto with calm | ]. intros []; auto with calm. Qed.

#[local] Hint Resolve calm_confirm_another : calm.

Lemma calm_preventRunawayServers (env : Env.t) : calm_job (preventRunawayServers env).
Proof.
  unfold preventRunawayServers.
  repeat (apply calm_then; [ | intro ]);
    try (apply calm_step; reflexivity); auto with calm.
Qed.

Lemma calm_createInstance (env : Env.t) : calm_job (createInstance env).
Proof.
  unfold createInstance.
  repeat (apply calm_then; [ | intro ]);
    try (apply calm_step; reflexivity); auto with calm.
Qed.

Lemma calm_runTests (env : Env.t) : calm_job (runTests env).
Proof.
  unfold runTests. apply calm_then; [ auto with calm | ].
  intros []; [ | auto with calm ].
  apply calm_then; [ apply calm_step; reflexivity | intro; auto with calm ].
Qed.

Lemma calm_open_session (env : Env.t) : calm_job (open_session env).
Proof.
  intros r res r' H. inversion H; subst. split; [ reflexivity | ].
  exists [Session]. split; reflexivity.
Qed.

Lemma calm_manualSSH (env : Env.t) (fuel : nat) : calm_job (manualSSH env fuel).
Proof.
  induction fuel as [| fuel IH]; cbn [manualSSH].
  - intros r res r' H. discriminate H.
  - apply calm_then; [ auto with calm | ].
    intros []; [ | auto with calm ].
    apply calm_then; [ apply calm_open_session | intro; exact IH ].
Qed.

Lemma calm_destroyInstance (env : Env.t) : calm_job (destroyInstance env).
Proof.
  unfold destroyInstance. apply calm_then; [ auto with calm | ].
  intros []; [ | auto with calm ].
  repeat (apply calm_then; [ | intro ]);
    try (apply calm_step; reflexivity); auto with calm.
Qed.

Lemma calm_stages (env : Env.t) (fuel : nat) : calm_job (stages env fuel).
Proof.
  unfold stages.
  apply calm_then; [ | intros _; apply calm_then; [ | intros _; apply calm_then ] ].
  - unfold prepareEnvironment, ensureCredentials.
    apply calm_then; [ apply calm_ret | intros _; apply calm_preventRunawayServers ].
  - apply calm_createInstance.
  - apply calm_runTests.
  - intros _. apply calm_manualSSH.
Qed.

(** [yesNo] puts its question, in CI as at a terminal. *)
Lemma yesNo_mentions (env : Env.t) (q cd ci : string) (r : Run) (res : Result bool) (r' : Run) :
  yesNo env q cd ci r = Some (res, r') ->
  exists l,
    steps r' = (steps r ++ l)%list /\ existsb (mentions q) l = true.
Proof.
  unfold yesNo, questionFormat. intro H. destruct (Env.isCI env).
  - unfold job_then, step, job_ret in H. inversion H; subst. cbn [steps].
    eexists. split; [ reflexivity | ].
    cbn [existsb mentions]. rewrite !string_append_assoc, includes_here. reflexivity.
  - unfold job_then, bell, askQuestion, step, job_ret in H.
    destruct (Env.noBell env); inversion H; subst; cbn [steps].
    + eexists. split; [ reflexivity | ].
      cbn [existsb mentions]. rewrite includes_here. reflexivity.
    + rewrite <- app_assoc. eexists. split; [ reflexivity | ].
      cbn [app existsb mentions]. rewrite includes_here. reflexivity.
Qed.

(** [destroyInstance] puts its question, whatever follows. *)
Lemma destroyInstance_asks (env : Env.t) (r : Run) (res : Result unit) (r' : Run) :
  destroyInstance env r = Some (res, r') ->
  exitCode r' = exitCode r
  /\ exists l,
       steps r' = (steps r ++ l)%list
       /\ forallb calm l = true
       /\ existsb (mentions "Destroy the machine instance?") l = true.
Proof.
  intro H.
  destruct (calm_destroyInstance env r res r' H) as [Hcode [l [Hsteps Hcalm]]].
  split; [ exact Hcode | ]. exists l. split; [ exact Hsteps | split; [ exact Hcalm | ] ].
  unfold destroyInstance, job_then in H.
  destruct (yesNo env "Destroy the machine instance?" "Y" "Y" r)
    as [[[answer | f] r1] |] eqn:Hask; [ | | discriminate H ].
  - destruct (yesNo_mentions _ _ _ _ _ _ _ Hask) as [l1 [Hsteps1 Hq]].
    assert (Hrest : exists l2, steps r' = (steps r1 ++ l2)%list).
    { destruct answer.
      - assert (Hcalm' : calm_job (status "Destroying the machine instance." ;;
                                   step Destroyed ;;
                                   settles (Env.destroyInstance env))%job).
        { repeat (apply calm_then; [ | intro ]);
            try (apply calm_step; reflexivity); auto with calm. }
        destruct (Hcalm' r1 res r' H) as [_ [l2 [Hl2 _]]]. exists l2. exact Hl2.
      - inversion H; subst. exists []. rewrite app_nil_r. reflexivity. }
    destruct Hrest as [l2 Hsteps2].
    rewrite Hsteps1, <- app_assoc in Hsteps2. rewrite Hsteps in Hsteps2.
    apply app_inv_head in Hsteps2. subst l.
    rewrite existsb_app, Hq. reflexivity.
  - inversion H; subst.
    destruct (yesNo_mentions _ _ _ _ _ _ _ Hask) as [l1 [Hsteps1 Hq]].
    rewrite Hsteps in Hsteps1. apply app_inv_head in Hsteps1. subst l. exact Hq.
Qed.

Lemma calm_not_shown (l : list Step) : forallb calm l = true -> existsb is_shown l = false.
Proof.
  induction l as [| s l IH]; [ reflexivity | ].
  cbn [forallb existsb]. unfold calm at 1. intro H.
  apply andb_prop in H. destruct H as [Hs Hl]. apply andb_prop in Hs. destruct Hs as [Hs _].
  apply negb_true_iff in Hs. rewrite Hs, (IH Hl). reflexivity.
Qed.

Lemma calm_not_exit (l : list Step) :
  forallb calm l = true -> forallb (fun s => negb (is_exit s)) l = true.
Proof.
  induction l as [| s l IH]; [ reflexivity | ].
  cbn [forallb]. unfold calm at 1. intro H.
  apply andb_prop in H. destruct H as [Hs Hl]. apply andb_prop in Hs. destruct Hs as [_ Hs].
  rewrite Hs, (IH Hl). reflexivity.
Qed.

Lemma calm_no_mention (q : string) (l : list Step) (f : Failure) :
  existsb (mentions q) (l ++ [Shown f]) = existsb (mentions q) l.
Proof. rewrite existsb_app. cbn. rewrite !orb_false_r. reflexivity. Qed.

Lemma failed_code_twice (code : Z) : failed_code (failed_code code) = failed_code code.
Proof.
  unfold failed_code. destruct (code =? 0) eqn:H; [ reflexivity | rewrite H; reflexivity ].
Qed.

(** [test()], whenever it comes to an end, is fulfilled and its last two
    steps are the line with the exit code and the exit with that code; no
    exit comes before.  The question of [cleanup] is always put, also after
    a stage failed.  The exit code is the one the run started with unless
    an error was written to the console, and then a code of zero has become
    one and any other code is kept: the [exitCode] of the error itself is
    not looked at. *)
Theorem test_always_exits (env : Env.t) (fuel : nat) (r : Run) (res : Result unit) (r' : Run) :
  test env fuel r = Some (res, r') ->
  res = Ok tt
  /\ exists mid,
       steps r'
       = (steps r ++ mid
          ++ [Said ("Exiting with code " ++ show_Z (exitCode r')); Exited (exitCode r')])%list
       /\ forallb (fun s => negb (is_exit s)) mid = true
       /\ existsb (mentions "Destroy the machine instance?") mid = true
       /\ exitCode r'
          = (if existsb is_shown mid
             then (if exitCode r =? 0 then 1 else exitCode r)
             else exitCode r).
Proof.
  intro H. unfold test in H.
  unfold job_then at 1 in H. unfold job_catch at 1 in H. unfold job_then at 1 in H.
  unfold job_catch at 1 in H.
  destruct (stages env fuel r) as [[res1 r1] |] eqn:Hstages; [ | discriminate H ].
  destruct (calm_stages env fuel r res1 r1 Hstages) as [Hcode1 [l1 [Hsteps1 Hcalm1]]].
  (* the state after the first handler *)
  assert (Hfirst : exists r2 l2,
            (match res1 with
             | Ok a => Some (Ok a, r1)
             | Failed f => note_failure f r1
             end) = Some (Ok tt, r2)
            /\ steps r2 = (steps r ++ l2)%list
            /\ forallb (fun s => negb (is_exit s)) l2 = true
            /\ existsb (mentions "Destroy the machine instance?") l2
               = existsb (mentions "Destroy the machine instance?") l1
            /\ exitCode r2
               = (if existsb is_shown l2 then failed_code (exitCode r) else exitCode r)
            /\ (existsb is_shown l2 = true -> exitCode r2 = failed_code (exitCode r))).
  { destruct res1 as [[] | f].
    - exists r1, l1. rewrite (calm_not_shown _ Hcalm1).
      repeat split; auto using calm_not_exit. discriminate.
    - eexists. exists (l1 ++ [Shown f])%list. unfold note_failure, failed_code.
      split; [ reflexivity | ]. cbn [steps exitCode].
      rewrite calm_no_mention, Hsteps1, Hcode1, <- app_assoc, forallb_app, existsb_app.
      rewrite (calm_not_exit _ Hcalm1). cbn. rewrite orb_true_r.
      repeat split; reflexivity. }
  destruct Hfirst as [r2 [l2 [Hrun2 [Hsteps2 [Hexit2 [Hq2 [Hcode2 _]]]]]]].
  rewrite Hrun2 in H.
  destruct (cleanup env r2) as [[res3 r3] |] eqn:Hclean; [ | discriminate H ].
  destruct (destroyInstance_asks env r2 res3 r3 Hclean) as [Hcode3 [l3 [Hsteps3 [Hcalm3 Hq3]]]].
  assert (Hsecond : exists r4 l4,
            (match res3 with
             | Ok a => Some (Ok a, r3)
             | Failed f => note_failure f r3
             end) = Some (Ok tt, r4)
            /\ steps r4 = (steps r ++ l4)%list
            /\ forallb (fun s => negb (is_exit s)) l4 = true
            /\ existsb (mentions "Destroy the machine instance?") l4 = true
            /\ exitCode r4
               = (if existsb is_shown l4 then failed_code (exitCode r) else exitCode r)).
  { destruct res3 as [[] | f].
    - exists r3, (l2 ++ l3)%list.
      rewrite Hsteps3, Hsteps2, <- app_assoc, forallb_app, !existsb_app, Hexit2, Hq3.
      rewrite (calm_not_exit _ Hcalm3), (calm_not_shown _ Hcalm3), !orb_false_r, orb_true_r.
      repeat split; try reflexivity. rewrite Hcode3. exact Hcode2.
    - eexists. exists (l2 ++ l3 ++ [Shown f])%list. unfold note_failure.
      split; [ reflexivity | ]. cbn [steps exitCode].
      rewrite Hsteps3, Hsteps2, <- !app_assoc, !forallb_app, !existsb_app, Hexit2.
      rewrite (calm_not_exit _ Hcalm3), Hq3. cbn. rewrite !orb_true_r.
      repeat split; try reflexivity.
      rewrite Hcode3, Hcode2. fold (failed_code (exitCode r)).
      destruct (existsb is_shown l2).
      + apply failed_code_twice.
      + reflexivity. }
  destruct Hsecond as [r4 [l4 [Hrun4 [Hsteps4 [Hexit4 [Hq4 Hcode4]]]]]].
  rewrite Hrun4 in H. unfold exit_process, job_then, step in H.
  cbn [steps exitCode typed sessions] in H. inversion H; subst res r'.
  split; [ reflexivity | ]. exists l4. cbn [steps exitCode].
  split; [ rewrite Hsteps4, <- !app_assoc; reflexivity | ].
  split; [ exact Hexit4 | split; [ exact Hq4 | exact Hcode4 ] ].
Qed.

(* ===================================================================== *)
(** ** CloudMachineTest: the questions and the machine *)
(* ===================================================================== *)

Lemma after_after (l1 l2 : list Step) (n1 n2 s1 s2 : nat) (r : Run) :
  after l2 n2 s2 (after l1 n1 s1 r) = after (l1 ++ l2) (n2 + n1) (s2 + s1) r.
Proof.
  unfold after. cbn [exitCode steps typed sessions].
  rewrite <- app_assoc, !Nat.add_assoc. reflexivity.
Qed.

Lemma after_nothing (r : Run) : after [] 0 0 r = r.
Proof. destruct r. unfold after. cbn. rewrite app_nil_r. reflexivity. Qed.

Lemma machine_steps_app (l1 l2 : list Step) :
  machine_steps (l1 ++ l2) = (machine_steps l1 ++ machine_steps l2)%list.
Proof. apply filter_app. Qed.

(** How [yesNo] runs: the answer, no call of the machine, and one line read
    at a terminal, none in CI. *)
Lemma yesNo_run (env : Env.t) (q cd ci : string) :
  exists l,
    machine_steps l = []
    /\ forall r,
         yesNo env q cd ci r
         = Some (Ok (says_yes env cd ci (typed r)),
                 after l (if Env.isCI env then 0 else 1) 0 r).
Proof.
  unfold yesNo, says_yes. destruct (Env.isCI env).
  - eexists. split; [ | intro r; unfold job_then, step, job_ret, after; reflexivity ].
    reflexivity.
  - unfold bell. destruct (Env.noBell env).
    + eexists. split; [ | intro r; unfold job_then, askQuestion, job_ret, after; reflexivity ].
      reflexivity.
    + exists [Rang; Asked (questionFormat (q ++ " (" ++ fst (formatYesNo cd) ++ "/"
                                           ++ snd (formatYesNo cd) ++ ") "))].
      split; [ reflexivity | ].
      intro r. unfold job_then, askQuestion, job_ret, after, step.
      cbn [exitCode steps typed sessions]. rewrite <- app_assoc. reflexivity.
Qed.

Lemma status_run (msg : string) (r : Run) :
  status msg r = Some (Ok tt, after [Said (nl ++ "      " ++ msg ++ nl ++ "    ")] 0 0 r).
Proof. reflexivity. Qed.

Lemma step_run (s : Step) (r : Run) : step s r = Some (Ok tt, after [s] 0 0 r).
Proof. reflexivity. Qed.

(** How the question of [preventRunawayServers] ends. *)
Lemma confirm_another_run (env : Env.t) :
  exists l,
    machine_steps l = []
    /\ forall r,
         confirm_another env r
         = Some (if says_yes env "Y" "N" (typed r) then Ok tt else Failed runaway,
                 after l (if Env.isCI env then 0 else 1) 0 r).
Proof.
  destruct (yesNo_run env "Might have runaway servers.  Create another?" "Y" "N")
    as [l [Hl Hrun]].
  exists l. split; [ exact Hl | ].
  intro r. unfold confirm_another, job_then. rewrite Hrun.
  destruct (says_yes env "Y" "N" (typed r)); reflexivity.
Qed.

Lemma lines_read_asked (env : Env.t) :
  (if Env.isCI env then 0 else 1)%nat = lines_read env true.
Proof. unfold lines_read. destruct (Env.isCI env); reflexivity. Qed.

(** How [preventRunawayServers] runs on a list of instances: the first
    question is put when the list is too long, the second when an instance
    is old and the first question, if put, was answered with a yes. *)
Lemma preventRunawayServers_run (env : Env.t) (instances : list Instance) (r : Run) :
  Env.getInstances env = Ok instances ->
  let go1 := negb (too_many env instances) || says_yes env "Y" "N" (typed r) in
  let n1 := lines_read env (too_many env instances) in
  let go2 := negb (stale env instances) || says_yes env "Y" "N" (n1 + typed r) in
  exists l,
    machine_steps l = [Listed]
    /\ preventRunawayServers env r
       = Some (if go1 && go2 then Ok tt else Failed runaway,
               after l (if go1 then lines_read env (stale env instances) + n1 else n1) 0 r).
Proof.
  intros Hlist go1 n1 go2. subst go1 n1 go2.
  destruct (confirm_another_run env) as [lc [Hlc Hc]].
  unfold preventRunawayServers, job_then. rewrite step_run, Hlist. unfold settles.
  rewrite status_run, after_after.
  fold (too_many env instances). fold (stale env instances).
  rewrite lines_read_asked in Hc.
  destruct (too_many env instances) eqn:Hmany; cbn [negb orb].
  - rewrite Hc, after_after. cbn [typed after]. rewrite ?Nat.add_0_l, ?Nat.add_0_r.
    destruct (says_yes env "Y" "N" (typed r)) eqn:Hyes1; cbn [andb].
    + rewrite status_run, after_after.
      destruct (stale env instances) eqn:Hstale; cbn [negb orb].
      * rewrite Hc, after_after. cbn [typed after]. rewrite ?Nat.add_0_l, ?Nat.add_0_r.
        destruct (says_yes env "Y" "N" (lines_read env true + typed r));
          (eexists; split; [ | reflexivity ]);
          rewrite !machine_steps_app, Hlc; reflexivity.
      * unfold job_ret. eexists. split; [ | reflexivity ].
        rewrite !machine_steps_app, Hlc; reflexivity.
    + eexists. split; [ | reflexivity ].
      rewrite !machine_steps_app, Hlc; reflexivity.
  - unfold job_ret at 1. rewrite status_run, after_after.
    change (lines_read env false) with 0%nat.
    destruct (stale env instances) eqn:Hstale; cbn [negb orb andb].
    + rewrite Hc, after_after. cbn [typed after]. rewrite ?Nat.add_0_l, ?Nat.add_0_r.
      destruct (says_yes env "Y" "N" (typed r));
        (eexists; split; [ | reflexivity ]);
        rewrite !machine_steps_app, Hlc; reflexivity.
    + unfold job_ret. eexists. split; [ | reflexivity ]. reflexivity.
Qed.

Lemma preventRunawayServers_unlisted (env : Env.t) (f : Failure) (r : Run) :
  Env.getInstances env = Failed f ->
  preventRunawayServers env r = Some (Failed f, after [Listed] 0 0 r).
Proof.
  intro Hlist. unfold preventRunawayServers, job_then. rewrite step_run, Hlist. reflexivity.
Qed.

Lemma says_yes_in_CI (env : Env.t) (cd ci : string) (n : nat) :
  Env.isCI env = true -> says_yes env cd ci n = yesRegex_test ci.
Proof. intro Hci. unfold says_yes. rewrite Hci. reflexivity. Qed.

Lemma lines_read_in_CI (env : Env.t) (asked : bool) :
  Env.isCI env = true -> lines_read env asked = 0%nat.
Proof. intro Hci. unfold lines_read. rewrite Hci, andb_false_r. reflexivity. Qed.

(** [preventRunawayServers] on a list of instances that was read.  It
    calls the machine once, to list, and leaves the exit code.  Within both
    limits it is fulfilled and reads no line.  In CI a list that is too long
    or has an old instance rejects it with the error for runaway servers,
    again without reading.  It is rejected with nothing else; and at a
    terminal a list that is too long and has an old instance is let through
    only after two lines were read: the question is put twice. *)
Theorem preventRunawayServers_guard (env : Env.t) (instances : list Instance) (r : Run) :
  Env.getInstances env = Ok instances ->
  exists res l lines,
    preventRunawayServers env r = Some (res, after l lines 0 r)
    /\ machine_steps l = [Listed]
    /\ (res = Ok tt \/ res = Failed runaway)
    /\ (too_many env instances = false -> stale env instances = false ->
        res = Ok tt /\ lines = 0%nat)
    /\ (Env.isCI env = true ->
        too_many env instances || stale env instances = true ->
        res = Failed runaway /\ lines = 0%nat)
    /\ (Env.isCI env = false ->
        too_many env instances = true -> stale env instances = true ->
        res = Ok tt -> lines = 2%nat).
Proof.
  intro Hlist.
  destruct (preventRunawayServers_run env instances r Hlist) as [l [Hl Hrun]].
  cbv zeta in Hrun.
  eexists. exists l. eexists. split; [ exact Hrun | ]. split; [ exact Hl | ].
  split; [ | split; [ | split ] ].
  - destruct (_ && _); [ left | right ]; reflexivity.
  - intros Hmany Hstale. rewrite Hmany, Hstale. cbn. split; reflexivity.
  - intros Hci Hor. rewrite !says_yes_in_CI, !lines_read_in_CI by exact Hci.
    change (yesRegex_test "N") with false. rewrite !orb_false_r.
    rewrite <- negb_orb, Hor. cbn [negb]. split; [ reflexivity | ].
    destruct (negb (too_many env instances)); reflexivity.
  - intros Hci Hmany Hstale. rewrite Hmany, Hstale. unfold lines_read. rewrite Hci.
    cbn [negb orb andb].
    destruct (says_yes env "Y" "N" (typed r)); cbn [andb].
    + intros _. reflexivity.
    + discriminate.
Qed.

(** A list of twenty instances in CI, against a limit of ten. *)
Lemma preventRunawayServers_guard_witness :
  Env.getInstances (ci_env 20) = Ok (repeat {| creation := Some 0 |} 20)
  /\ exists l,
       preventRunawayServers (ci_env 20) new_run = Some (Failed runaway, after l 0 0 new_run)
       /\ machine_steps l = [Listed].
Proof.
  assert (Hlist : Env.getInstances (ci_env 20) = Ok (repeat {| creation := Some 0 |} 20))
    by reflexivity.
  split; [ exact Hlist | ].
  destruct (preventRunawayServers_guard (ci_env 20) _ new_run Hlist)
    as [res [l [lines [Hrun [Hl [_ [_ [Hci _]]]]]]]].
  destruct (Hci eq_refl eq_refl) as [Hres Hlines]. subst res lines.
  exists l. split; [ exact Hrun | exact Hl ].
Defined.

(* ===================================================================== *)
(** ** CloudMachineTest: sessions and the run in CI *)
(* ===================================================================== *)

Lemma createInstance_run (env : Env.t) (r : Run) :
  exists l,
    machine_steps l = [Created]
    /\ createInstance env r = Some (Env.createInstance env, after l 0 0 r).
Proof.
  unfold createInstance, job_then. rewrite status_run, step_run, after_after.
  eexists. split; [ | reflexivity ]. reflexivity.
Qed.

Lemma runTests_run (env : Env.t) (r : Run) :
  exists l,
    runTests env r
    = Some (if says_yes env "Y" "Y" (typed r) then Env.automatedTests env else Ok tt,
            after l (lines_read env true) 0 r)
    /\ machine_steps l = if says_yes env "Y" "Y" (typed r) then [Tested] else [].
Proof.
  destruct (yesNo_run env "Run automated tests?" "Y" "Y") as [lq [Hlq Hq]].
  unfold runTests, job_then. rewrite Hq, lines_read_asked.
  destruct (says_yes env "Y" "Y" (typed r)).
  - rewrite step_run, after_after. unfold settles.
    eexists. split; [ reflexivity | ]. rewrite machine_steps_app, Hlq. reflexivity.
  - unfold job_ret. eexists. split; [ reflexivity | exact Hlq ].
Qed.

Lemma destroyInstance_run (env : Env.t) (r : Run) :
  exists l,
    destroyInstance env r
    = Some (if says_yes env "Y" "Y" (typed r) then Env.destroyInstance env else Ok tt,
            after l (lines_read env true) 0 r)
    /\ machine_steps l = if says_yes env "Y" "Y" (typed r) then [Destroyed] else [].
Proof.
  destruct (yesNo_run env "Destroy the machine instance?" "Y" "Y") as [lq [Hlq Hq]].
  unfold destroyInstance, job_then. rewrite Hq, lines_read_asked.
  destruct (says_yes env "Y" "Y" (typed r)).
  - rewrite status_run, step_run, !after_after. unfold settles.
    eexists. split; [ reflexivity | ]. rewrite !machine_steps_app, Hlq. reflexivity.
  - unfold job_ret. eexists. split; [ reflexivity | exact Hlq ].
Qed.

Lemma open_session_run (env : Env.t) (r : Run) :
  open_session env r = Some (Env.ssh env (sessions r), after [Session] 0 1 r).
Proof. reflexivity. Qed.

(** [k] rounds of [manualSSH]: a yes and a session that ends well, [k]
    times over. *)
Lemma manualSSH_rounds (env : Env.t) (k : nat) :
  forall (fuel : nat) (r : Run),
    (forall i, (i < k)%nat ->
       says_yes env "N" "N" (i * lines_read env true + typed r) = true
       /\ Env.ssh env (i + sessions r) = Ok tt) ->
    exists l,
      machine_steps l = repeat Session k
      /\ manualSSH env (k + fuel) r
         = manualSSH env fuel (after l (k * lines_read env true) k r).
Proof.
  destruct (yesNo_run env "SSH into running machine?" "N" "N") as [lq [Hlq Hq]].
  induction k as [| k IH]; intros fuel r Hyes.
  - exists []. split; [ reflexivity | ]. cbn [Nat.add Nat.mul]. rewrite after_nothing. reflexivity.
  - destruct (Hyes 0%nat ltac:(lia)) as [Hfirst Hssh]. cbn [Nat.mul Nat.add] in Hfirst, Hssh.
    destruct (IH fuel (after (lq ++ [Session]) (lines_read env true) 1 r)) as [l [Hl Hrun]].
    { intros i Hi. destruct (Hyes (S i) ltac:(lia)) as [Hy Hs]. cbn [typed sessions after].
      split.
      - etransitivity; [ | exact Hy ]. f_equal. cbn [Nat.mul]. lia.
      - etransitivity; [ | exact Hs ]. f_equal. lia. }
    exists ((lq ++ [Session]) ++ l)%list. split.
    + rewrite !machine_steps_app, Hlq, Hl. reflexivity.
    + change (S k + fuel)%nat with (S (k + fuel)). cbn [manualSSH]. unfold job_then at 1.
      rewrite Hq, Hfirst. unfold job_then at 1.
      rewrite open_session_run. cbn [sessions after]. rewrite Nat.add_0_l, Hssh.
      rewrite after_after, lines_read_asked, Nat.add_0_l. cbn [Nat.add].
      rewrite Hrun, after_after. f_equal. f_equal.
      * cbn [Nat.mul]. lia.
      * lia.
Qed.

(** The loop of [manualSSH].  When the first [k] questions are answered
    with a yes and each session ends well, [k] sessions are opened, one
    after each yes, and nothing else is asked of the machine.  The loop then
    ends with the next answer: a no fulfils it; a yes opens one more session
    and a failure of that session is what the loop is rejected with.  A
    question costs one line at a terminal and none in CI. *)
Theorem manualSSH_sessions (env : Env.t) (k fuel : nat) (r : Run) :
  (k < fuel)%nat ->
  (forall i, (i < k)%nat ->
     says_yes env "N" "N" (i * lines_read env true + typed r) = true
     /\ Env.ssh env (i + sessions r) = Ok tt) ->
  (says_yes env "N" "N" (k * lines_read env true + typed r) = false ->
   exists l,
     manualSSH env fuel r = Some (Ok tt, after l (S k * lines_read env true) k r)
     /\ machine_steps l = repeat Session k)
  /\ (forall f,
        says_yes env "N" "N" (k * lines_read env true + typed r) = true ->
        Env.ssh env (k + sessions r) = Failed f ->
        exists l,
          manualSSH env fuel r = Some (Failed f, after l (S k * lines_read env true) (S k) r)
          /\ machine_steps l = repeat Session (S k)).
Proof.
  intros Hfuel Hyes.
  destruct (yesNo_run env "SSH into running machine?" "N" "N") as [lq [Hlq Hq]].
  destruct (manualSSH_rounds env k (fuel - k) r Hyes) as [l [Hl Hrun]].
  replace (k + (fuel - k))%nat with fuel in Hrun by lia.
  destruct (fuel - k)%nat as [| rest] eqn:Hrest; [ lia | ].
  cbn [manualSSH] in Hrun. unfold job_then at 1 in Hrun.
  rewrite Hq in Hrun. cbn [typed after] in Hrun. rewrite lines_read_asked in Hrun.
  split.
  - intro Hno. rewrite Hno in Hrun. unfold job_ret in Hrun. rewrite after_after in Hrun.
    exists (l ++ lq)%list. split.
    + rewrite Hrun. reflexivity.
    + rewrite machine_steps_app, Hlq, app_nil_r. exact Hl.
  - intros f Hone Hssh. rewrite Hone in Hrun. unfold job_then at 1 in Hrun.
    rewrite open_session_run in Hrun. cbn [sessions after] in Hrun.
    rewrite Nat.add_0_l, Hssh, !after_after in Hrun.
    exists (l ++ lq ++ [Session])%list. split.
    + rewrite Hrun. reflexivity.
    + rewrite !machine_steps_app, Hlq, Hl. cbn [app machine_steps filter is_machine].
      clear. induction k as [| k IH]; [ reflexivity | ].
      cbn [repeat app]. rewrite IH. reflexivity.
Qed.

(** Two sessions at a terminal: yes, yes, then an empty line. *)
Lemma manualSSH_sessions_witness :
  (2 < 3)%nat
  /\ (forall i, (i < 2)%nat ->
        says_yes (terminal_env ["y"; "yes"]) "N" "N"
          (i * lines_read (terminal_env ["y"; "yes"]) true + typed new_run) = true
        /\ Env.ssh (terminal_env ["y"; "yes"]) (i + sessions new_run) = Ok tt)
  /\ says_yes (terminal_env ["y"; "yes"]) "N" "N"
       (2 * lines_read (terminal_env ["y"; "yes"]) true + typed new_run) = false
  /\ exists l,
       manualSSH (terminal_env ["y"; "yes"]) 3 new_run
       = Some (Ok tt, after l (3 * lines_read (terminal_env ["y"; "yes"]) true) 2 new_run)
       /\ machine_steps l = [Session; Session].
Proof.
  assert (Hfuel : (2 < 3)%nat) by lia.
  assert (Hyes : forall i, (i < 2)%nat ->
            says_yes (terminal_env ["y"; "yes"]) "N" "N"
              (i * lines_read (terminal_env ["y"; "yes"]) true + typed new_run) = true
            /\ Env.ssh (terminal_env ["y"; "yes"]) (i + sessions new_run) = Ok tt).
  { intros i Hi. destruct i as [| [| i]]; [ split; reflexivity | split; reflexivity | lia ]. }
  assert (Hno : says_yes (terminal_env ["y"; "yes"]) "N" "N"
                  (2 * lines_read (terminal_env ["y"; "yes"]) true + typed new_run) = false)
    by reflexivity.
  split; [ exact Hfuel | split; [ exact Hyes | split; [ exact Hno | ] ] ].
  exact (proj1 (manualSSH_sessions (terminal_env ["y"; "yes"]) 2 3 new_run Hfuel Hyes) Hno).
Defined.

Lemma says_no_in_CI (env : Env.t) (cd : string) (n : nat) :
  Env.isCI env = true -> says_yes env cd "N" n = false.
Proof. intro Hci. rewrite says_yes_in_CI by exact Hci. reflexivity. Qed.

Lemma says_yes_by_default_in_CI (env : Env.t) (cd : string) (n : nat) :
  Env.isCI env = true -> says_yes env cd "Y" n = true.
Proof. intro Hci. rewrite says_yes_in_CI by exact Hci. reflexivity. Qed.

(** The guard in CI. *)
Lemma preventRunawayServers_in_CI (env : Env.t) (r : Run) :
  Env.isCI env = true ->
  exists res l,
    preventRunawayServers env r = Some (res, after l 0 0 r)
    /\ machine_steps l = [Listed]
    /\ is_ok res = guard_passes env.
Proof.
  intro Hci. unfold guard_passes.
  destruct (Env.getInstances env) as [instances | f] eqn:Hlist.
  - destruct (preventRunawayServers_run env instances r Hlist) as [l [Hl Hrun]].
    cbv zeta in Hrun.
    rewrite !says_no_in_CI, !lines_read_in_CI, !orb_false_r in Hrun by exact Hci.
    eexists. exists l. split; [ | split; [ exact Hl | ] ].
    + rewrite Hrun. f_equal. f_equal. destruct (negb (too_many env instances)); reflexivity.
    + destruct (negb (too_many env instances) && negb (stale env instances)); reflexivity.
  - exists (Failed f), [Listed].
    split; [ apply preventRunawayServers_unlisted; exact Hlist | split; reflexivity ].
Qed.

(** The stages before the first handler, in CI. *)
Lemma stages_in_CI (env : Env.t) (fuel : nat) (r : Run) :
  Env.isCI env = true ->
  exists res l,
    stages env (S fuel) r = Some (res, after l 0 0 r)
    /\ machine_steps l
       = Listed :: (if guard_passes env
                    then Created :: (if is_ok (Env.createInstance env) then [Tested] else [])
                    else [])
    /\ is_ok res
       = guard_passes env && is_ok (Env.createInstance env)
         && is_ok (Env.automatedTests env).
Proof.
  intro Hci.
  destruct (preventRunawayServers_in_CI env r Hci) as [res1 [l1 [Hrun1 [Hl1 Hres1]]]].
  unfold stages, prepareEnvironment, ensureCredentials, setup, manualSteps.
  unfold job_then at 1. unfold job_then at 1. unfold job_ret at 1. rewrite Hrun1.
  rewrite <- Hres1.
  destruct res1 as [[] | f1]; cbn [is_ok andb].
  - unfold job_then at 1.
    destruct (createInstance_run env (after l1 0 0 r)) as [l2 [Hl2 Hrun2]].
    rewrite Hrun2, after_after.
    destruct (Env.createInstance env) as [[] | f2]; cbn [is_ok andb].
    + unfold job_then at 1.
      destruct (runTests_run env (after (l1 ++ l2) (0 + 0) (0 + 0) r)) as [l3 [Hrun3 Hl3]].
      rewrite says_yes_by_default_in_CI in Hrun3, Hl3 by exact Hci.
      rewrite lines_read_in_CI in Hrun3 by exact Hci.
      rewrite Hrun3, after_after.
      destruct (Env.automatedTests env) as [[] | f3]; cbn [is_ok].
      * destruct (yesNo_run env "SSH into running machine?" "N" "N") as [lq [Hlq Hq]].
        cbn [manualSSH]. unfold job_then at 1. rewrite Hq, Hci, says_no_in_CI by exact Hci.
        unfold job_ret. rewrite after_after.
        eexists. eexists. split; [ reflexivity | split; [ | reflexivity ] ].
        rewrite !machine_steps_app, Hl1, Hl2, Hl3, Hlq. reflexivity.
      * eexists. eexists. split; [ reflexivity | split; [ | reflexivity ] ].
        rewrite !machine_steps_app, Hl1, Hl2, Hl3. reflexivity.
    + eexists. eexists. split; [ reflexivity | split; [ | reflexivity ] ].
      rewrite !machine_steps_app, Hl1, Hl2. reflexivity.
  - eexists. eexists. split; [ reflexivity | split; [ | reflexivity ] ].
    rewrite Hl1. reflexivity.
Qed.

(** A run of [test()] in CI.  It comes to its end, without reading a
    line and without a session, whatever the machine does.  The machine is
    asked for the list of instances first; an instance is created exactly
    when the guard against runaway servers lets the run through, the tests
    are run exactly when the instance was created, and the machine is asked
    to destroy the instance in every case, also when none was created.  The
    exit code is the one the run started with when the guard, the creation,
    the tests and the destruction all went well; otherwise a code of zero
    has become one. *)
Theorem test_in_CI (env : Env.t) (fuel : nat) (r : Run) :
  Env.isCI env = true ->
  let code :=
    if guard_passes env && is_ok (Env.createInstance env)
       && is_ok (Env.automatedTests env) && is_ok (Env.destroyInstance env)
    then exitCode r else failed_code (exitCode r) in
  exists mid,
    test env (S fuel) r
    = Some (Ok tt,
            {| exitCode := code;
               steps := steps r ++ mid
                        ++ [Said ("Exiting with code " ++ show_Z code); Exited code];
               typed := typed r;
               sessions := sessions r |})
    /\ machine_steps mid
       = (Listed :: (if guard_passes env
                     then Created :: (if is_ok (Env.createInstance env) then [Tested] else [])
                     else [])
          ++ [Destroyed])%list.
Proof.
  intros Hci code. subst code.
  destruct (stages_in_CI env fuel r Hci) as [res1 [l1 [Hrun1 [Hl1 Hres1]]]].
  rewrite <- Hres1. clear Hres1.
  unfold test. unfold job_then at 1. unfold job_catch at 1. unfold job_then at 1.
  unfold job_catch at 1. rewrite Hrun1.
  assert (Hclean : forall r0, exists l,
             cleanup env r0 = Some (Env.destroyInstance env, after l 0 0 r0)
             /\ machine_steps l = [Destroyed]).
  { intro r0. destruct (destroyInstance_run env r0) as [l [Hrun Hl]].
    rewrite says_yes_by_default_in_CI in Hrun, Hl by exact Hci.
    rewrite lines_read_in_CI in Hrun by exact Hci.
    exists l. split; [ exact Hrun | exact Hl ]. }
  destruct r as [code0 steps0 typed0 sessions0].
  destruct res1 as [[] | f1]; cbn [is_ok andb].
  - destruct (Hclean (after l1 0 0 {| exitCode := code0; steps := steps0; typed := typed0;
                                      sessions := sessions0 |})) as [l2 [Hrun2 Hl2]].
    rewrite Hrun2.
    destruct (Env.destroyInstance env) as [[] | f2]; cbn [is_ok].
    + exists (l1 ++ l2)%list. split.
      * unfold exit_process, job_then, step, after. cbn [exitCode steps typed sessions].
        rewrite <- !app_assoc. reflexivity.
      * rewrite machine_steps_app, Hl1, Hl2. reflexivity.
    + exists (l1 ++ l2 ++ [Shown f2])%list. split.
      * unfold note_failure, exit_process, job_then, step, after, failed_code.
        cbn [exitCode steps typed sessions]. rewrite <- !app_assoc. reflexivity.
      * rewrite !machine_steps_app, Hl1, Hl2. cbn [machine_steps filter is_machine].
        rewrite ?app_nil_r. reflexivity.
  - unfold note_failure at 1. unfold after at 1. cbn [exitCode steps typed sessions].
    match goal with
    | |- context [cleanup env ?r0] => destruct (Hclean r0) as [l2 [Hrun2 Hl2]]
    end.
    rewrite Hrun2.
    destruct (Env.destroyInstance env) as [[] | f2]; cbn [is_ok].
    + exists (l1 ++ [Shown f1] ++ l2)%list. split.
      * unfold exit_process, job_then, step, after, failed_code.
        cbn [exitCode steps typed sessions]. rewrite <- !app_assoc. reflexivity.
      * rewrite !machine_steps_app, Hl1, Hl2. cbn [machine_steps filter is_machine].
        rewrite ?app_nil_r. reflexivity.
    + exists (l1 ++ [Shown f1] ++ l2 ++ [Shown f2])%list. split.
      * unfold note_failure, exit_process, job_then, step, after.
        cbn [exitCode steps typed sessions].
        fold (failed_code code0). fold (failed_code (failed_code code0)).
        rewrite failed_code_twice, <- !app_assoc. reflexivity.
      * rewrite !machine_steps_app, Hl1, Hl2. cbn [machine_steps filter is_machine].
        rewrite ?app_nil_r. reflexivity.
Qed.

(** In CI with three instances, none of them old. *)
Lemma test_in_CI_witness :
  Env.isCI (ci_env 3) = true
  /\ exists mid,
       test (ci_env 3) 1 new_run
       = Some (Ok tt,
               {| exitCode := 0;
                  steps := mid ++ [Said "Exiting with code 0"; Exited 0];
                  typed := 0;
                  sessions := 0 |})
       /\ machine_steps mid = [Listed; Created; Tested; Destroyed].
Proof.
  assert (Hci : Env.isCI (ci_env 3) = true) by reflexivity.
  split; [ exact Hci | ].
  exact (test_in_CI (ci_env 3) 0 new_run Hci).
Defined.

(** A run at a terminal: an empty line at the question of the tests and one
    at the question of the session, and a no to the destruction. *)
Lemma test_always_exits_witness :
  exists r',
    test (terminal_env [""; ""; "n"]) 1 new_run = Some (Ok tt, r')
    /\ exists mid,
         steps r'
         = (steps new_run ++ mid
            ++ [Said ("Exiting with code " ++ show_Z (exitCode r')); Exited (exitCode r')])%list
         /\ forallb (fun s => negb (is_exit s)) mid = true
         /\ existsb (mentions "Destroy the machine instance?") mid = true
         /\ exitCode r'
            = (if existsb is_shown mid
               then (if exitCode new_run =? 0 then 1 else exitCode new_run)
               else exitCode new_run).
Proof.
  destruct (test (terminal_env [""; ""; "n"]) 1 new_run) as [[res r'] |] eqn:Hrun;
    [ | discriminate Hrun ].
  exists r'.
  destruct (test_always_exits (terminal_env [""; ""; "n"]) 1 new_run res r' Hrun)
    as [Hres Hrest].
  subst res. split; [ reflexivity | exact Hrest ].
Defined.

(* ===================================================================== *)
(** ** How long [ensureStarted] lasts *)
(* ===================================================================== *)


Section Duration.

Variable ssh : string -> nat -> Attempt.
Variable sshTimeout : Z.
Hypothesis sshTimeout_nonneg : 0 <= sshTimeout.



End Duration.


(* ===================================================================== *)
(** ** GCETestMachine: creating and destroying the instance *)
(* ===================================================================== *)


(** The pollers see the machine through the probes alone. *)
Lemma ensureStarted_by_probes (ssh ssh' : string -> nat -> Attempt) (sshTimeout : Z)
    (fuel : nat) :
  (forall n, ssh "echo 'Test'" n = ssh' "echo 'Test'" n) ->
  forall (timeout : Z) (started : Started) (failures : option Z) (w : World),
    ensureStarted ssh sshTimeout fuel timeout started failures w
    = ensureStarted ssh' sshTimeout fuel timeout started failures w.
Proof.
  intro Hsame. induction fuel as [| fuel IH]; intros timeout started failures w;
    [ reflexivity | ].
  cbn [ensureStarted]. unfold probe_machine. rewrite Hsame.
  destruct (_ >? timeout); [ reflexivity | ].
  destruct (succeeds _); [ reflexivity | ].
  rewrite IH. reflexivity.
Qed.

Section GCEProperties.

Variable exec : string -> nat -> Attempt.
Variable enter : nat -> N.

Lemma ssh_of_command (m : GCETestMachine.t) (c : ascii) (command : string) (n : nat) :
  GCETestMachine.ssh_of exec enter m (String c command) n
  = exec (GCETestMachine.ssh_command_line m (String c command)) n.
Proof. reflexivity. Qed.


(** [destroyInstance] after [createInstance] deletes the instance that
    call named, however the creation ended and whatever happened since,
    with the one command that names it; only a name that is empty, from an
    empty prefix and an empty salt, leaves it without a command.  On a
    machine that never created an instance it is fulfilled at once and runs
    nothing. *)
Theorem destroyInstance_after_createInstance (salt : string) (fuel : nat)
    (m : GCETestMachine.t) (w w2 : World) (ci : bool) (given : GivenOpts) :
  let m' := fst (GCETestMachine.createInstance exec enter salt fuel m w) in
  let name := Opts.prefix (GCETestMachine.opts m) ++ salt in
  let line := "gcloud compute instances delete " ++ dq ++ name ++ dq ++ " --zone " ++ dq
              ++ GCETestMachine.zone m ++ dq ++ " -q" in
  GCETestMachine.destroyInstance exec (GCETestMachine.new ci given) w2 = (Completed, w2)
  /\ (name = "" -> GCETestMachine.destroyInstance exec m' w2 = (Completed, w2))
  /\ (name <> "" ->
      GCETestMachine.destroyInstance exec m' w2
      = (if succeeds (exec line (connections w2)) then Completed else CommandFailed line,
         advance (Z.of_N (takes (exec line (connections w2)))) w2)).
Proof.
  intros m' name line. split; [ reflexivity | ].
  unfold GCETestMachine.destroyInstance, m', GCETestMachine.createInstance.
  cbn [fst GCETestMachine._image GCETestMachine.named].
  fold name. unfold GCETestMachine.delete_command_line.
  cbn [GCETestMachine._image GCETestMachine.zone GCETestMachine.named text_of].
  fold name. fold line.
  split.
  - intro Hempty. rewrite Hempty. reflexivity.
  - intro Hname. destruct name as [| c rest]; [ congruence | ]. reflexivity.
Qed.

End GCEProperties.

(** [createInstance] runs two commands and no other: how it settles, and
    when, depends on the cloud through the command that creates the
    instance and the connection that runs [echo 'Test'] on it alone. *)
Theorem createInstance_commands (exec exec' : string -> nat -> Attempt) (enter : nat -> N)
    (salt : string) (fuel : nat) (m : GCETestMachine.t) (w : World) :
  (forall n,
     exec (GCETestMachine.create_command_line (GCETestMachine.named salt m)) n
     = exec' (GCETestMachine.create_command_line (GCETestMachine.named salt m)) n) ->
  (forall n,
     exec (GCETestMachine.ssh_command_line (GCETestMachine.named salt m) "echo 'Test'") n
     = exec' (GCETestMachine.ssh_command_line (GCETestMachine.named salt m) "echo 'Test'") n) ->
  GCETestMachine.createInstance exec enter salt fuel m w
  = GCETestMachine.createInstance exec' enter salt fuel m w.
Proof.
  intros Hcreate Hprobe. unfold GCETestMachine.createInstance. rewrite Hcreate.
  rewrite (ensureStarted_by_probes
             (GCETestMachine.ssh_of exec enter (GCETestMachine.named salt m))
             (GCETestMachine.ssh_of exec' enter (GCETestMachine.named salt m))).
  - reflexivity.
  - intro n. rewrite !ssh_of_command. apply Hprobe.
Qed.


(** Two clouds that differ in what becomes of a deletion. *)
Lemma createInstance_commands_witness :
  (forall n,
     cloud_up_at 2
       (GCETestMachine.create_command_line
          (GCETestMachine.named "abc" (GCETestMachine.new false no_opts))) n
     = cloud_keeping_instances 2
         (GCETestMachine.create_command_line
            (GCETestMachine.named "abc" (GCETestMachine.new false no_opts))) n)
  /\ (forall n,
        cloud_up_at 2
          (GCETestMachine.ssh_command_line
             (GCETestMachine.named "abc" (GCETestMachine.new false no_opts)) "echo 'Test'") n
        = cloud_keeping_instances 2
            (GCETestMachine.ssh_command_line
               (GCETestMachine.named "abc" (GCETestMachine.new false no_opts)) "echo 'Test'") n)
  /\ GCETestMachine.createInstance (cloud_up_at 2) (fun _ => 0%N) "abc" 5
       (GCETestMachine.new false no_opts) epoch
     = GCETestMachine.createInstance (cloud_keeping_instances 2) (fun _ => 0%N) "abc" 5
         (GCETestMachine.new false no_opts) epoch.
Proof.
  assert (Hcreate : forall n,
            cloud_up_at 2
              (GCETestMachine.create_command_line
                 (GCETestMachine.named "abc" (GCETestMachine.new false no_opts))) n
            = cloud_keeping_instances 2
                (GCETestMachine.create_command_line
                   (GCETestMachine.named "abc" (GCETestMachine.new false no_opts))) n)
    by (intro n; reflexivity).
  assert (Hprobe : forall n,
            cloud_up_at 2
              (GCETestMachine.ssh_command_line
                 (GCETestMachine.named "abc" (GCETestMachine.new false no_opts))
                 "echo 'Test'") n
            = cloud_keeping_instances 2
                (GCETestMachine.ssh_command_line
                   (GCETestMachine.named "abc" (GCETestMachine.new false no_opts))
                   "echo 'Test'") n)
    by (intro n; reflexivity).
  split; [ exact Hcreate | split; [ exact Hprobe | ] ].
  exact (createInstance_commands (cloud_up_at 2) (cloud_keeping_instances 2) (fun _ => 0%N)
           "abc" 5 (GCETestMachine.new false no_opts) epoch Hcreate Hprobe).
Defined.

(* ===================================================================== *)
(** ** CloudMachineTest: the machine it is constructed with *)
(* ===================================================================== *)

Lemma show_shown (l : list Step) (f : Failure) :
  machine_steps (l ++ [Shown f]) = machine_steps l.
Proof. rewrite machine_steps_app. cbn. apply app_nil_r. Qed.

(** [test()] with the machine of the constructor, the abstract
    [TestMachine], and a limit on the instances that is not negative.  In
    CI as at a terminal the run comes to its end whatever the fuel, before
    the tests and the sessions: no instance is listed, the creation is
    rejected, and the only line read is the answer to the question of
    [cleanup].  The machine is asked to list, to create and, after a yes, to
    destroy; and the exit code is never zero. *)
Theorem test_with_abstract_machine (env : Env.t) (fuel : nat) (r : Run) :
  Env.getInstances env = abstract_getInstances ->
  Env.createInstance env = abstract_createInstance ->
  Env.destroyInstance env = abstract_destroyInstance ->
  0 <= Env.maxInstances env ->
  exists mid,
    test env fuel r
    = Some (Ok tt,
            {| exitCode := failed_code (exitCode r);
               steps := steps r ++ mid
                        ++ [Said ("Exiting with code " ++ show_Z (failed_code (exitCode r)));
                            Exited (failed_code (exitCode r))];
               typed := lines_read env true + typed r;
               sessions := sessions r |})
    /\ machine_steps mid
       = (Listed :: Created
          :: (if says_yes env "Y" "Y" (typed r) then [Destroyed] else []))
    /\ failed_code (exitCode r) <> 0.
Proof.
  intros Hlist Hcreate Hdestroy Hlimit.
  assert (Hcode : failed_code (exitCode r) <> 0).
  { unfold failed_code. destruct (Z.eqb_spec (exitCode r) 0); [ discriminate | assumption ]. }
  destruct (preventRunawayServers_run env [] r Hlist) as [l1 [Hl1 Hrun1]].
  cbv zeta in Hrun1.
  assert (Hfew : too_many env [] = false).
  { unfold too_many. cbn [List.length Z.of_nat].
    destruct (Z.gtb_spec 0 (Env.maxInstances env)); [ lia | reflexivity ]. }
  rewrite Hfew in Hrun1. change (stale env []) with false in Hrun1.
  cbn [negb orb andb] in Hrun1. change (lines_read env false) with 0%nat in Hrun1.
  cbn [Nat.add] in Hrun1.
  destruct (createInstance_run env (after l1 0 0 r)) as [l2 [Hl2 Hrun2]].
  rewrite Hcreate, after_after in Hrun2.
  assert (Hstages : stages env fuel r
                    = Some (abstract_createInstance, after (l1 ++ l2) 0 0 r)).
  { unfold stages, prepareEnvironment, ensureCredentials, setup.
    unfold job_then at 1. unfold job_then at 1. unfold job_ret at 1. rewrite Hrun1.
    unfold job_then at 1. rewrite Hrun2. reflexivity. }
  unfold test. unfold job_then at 1. unfold job_catch at 1. unfold job_then at 1.
  unfold job_catch at 1. rewrite Hstages. unfold abstract_createInstance at 1.
  unfold note_failure at 1. unfold after. cbn [exitCode steps typed sessions].
  rewrite !Nat.add_0_l. fold (failed_code (exitCode r)).
  match goal with
  | |- context [cleanup env ?r0] =>
      destruct (destroyInstance_run env r0) as [l3 [Hrun3 Hl3]]
  end.
  cbn [typed] in Hrun3, Hl3.
  unfold cleanup. rewrite Hrun3, Hdestroy.
  destruct (says_yes env "Y" "Y" (typed r)).
  - unfold abstract_destroyInstance at 1.
    exists (l1 ++ l2
            ++ [Shown (OtherFailure "Abstract TestMachine#createInstance not implemented.")]
            ++ l3
            ++ [Shown (OtherFailure "Abstract TestMachine#destroyInstance not implemented.")])%list.
    split; [ | split; [ | exact Hcode ] ].
    + unfold note_failure, exit_process, job_then, step, after.
      cbn [exitCode steps typed sessions].
      fold (failed_code (failed_code (exitCode r))).
      rewrite failed_code_twice, <- !app_assoc. reflexivity.
    + rewrite !machine_steps_app, Hl1, Hl2, Hl3. cbn [machine_steps filter is_machine app].
      reflexivity.
  - exists (l1 ++ l2
            ++ [Shown (OtherFailure "Abstract TestMachine#createInstance not implemented.")]
            ++ l3)%list.
    split; [ | split; [ | exact Hcode ] ].
    + unfold exit_process, job_then, step, after.
      cbn [exitCode steps typed sessions].
      rewrite <- !app_assoc. reflexivity.
    + rewrite !machine_steps_app, Hl1, Hl2, Hl3. cbn [machine_steps filter is_machine app].
      reflexivity.
Qed.

(** The run as constructed, with an empty line for an answer. *)
Lemma test_with_abstract_machine_witness :
  Env.getInstances (out_of_the_box []) = abstract_getInstances
  /\ Env.createInstance (out_of_the_box []) = abstract_createInstance
  /\ Env.destroyInstance (out_of_the_box []) = abstract_destroyInstance
  /\ 0 <= Env.maxInstances (out_of_the_box [])
  /\ exists mid,
       test (out_of_the_box []) 0 new_run
       = Some (Ok tt,
               {| exitCode := 1;
                  steps := mid ++ [Said "Exiting with code 1"; Exited 1];
                  typed := 1;
                  sessions := 0 |})
       /\ machine_steps mid = [Listed; Created; Destroyed]
       /\ 1 <> 0.
Proof.
  assert (Hlimit : 0 <= Env.maxInstances (out_of_the_box [])) by (vm_compute; discriminate).
  split; [ reflexivity | split; [ reflexivity | split; [ reflexivity | ] ] ].
  split; [ exact Hlimit | ].
  exact (test_with_abstract_machine (out_of_the_box []) 0 new_run
           eq_refl eq_refl eq_refl Hlimit).
Defined.


(* ===================================================================== *)
(** ** The errors of the pollers *)
(* ===================================================================== *)

Section PollerErrors.

Variable ssh : string -> nat -> Attempt.
Variable sshTimeout : Z.

Lemma ensureStarted_error (fuel : nat) :
  forall (timeout : Z) (started : Started) (failures : option Z) (w w' : World)
         (r : Poll) (e : TestError.t),
    ensureStarted ssh sshTimeout fuel timeout started failures w = Some (r, w') ->
    fatal r = Some e ->
    TestError.exitCode e = 1 /\ TestError.name e = "TestError".
Proof.
  induction fuel as [| fuel IH]; intros timeout started failures w w' r e Hrun Hfatal;
    [ discriminate Hrun | ].
  cbn [ensureStarted] in Hrun.
  destruct (_ >? timeout).
  - inversion Hrun; subst. cbn [fatal] in Hfatal. inversion Hfatal; subst.
    split; reflexivity.
  - destruct (succeeds _).
    + inversion Hrun; subst. discriminate Hfatal.
    + destruct (inside_then_fatal _ _ _ _ Hrun Hfatal) as [_ [r0 [Hrec Hfatal0]]].
      exact (IH _ _ _ _ _ _ _ Hrec Hfatal0).
Qed.

Lemma ensureServiceStarted_error (fuel : nat) :
  forall (service : string) (timeout : Z) (started : Started) (w w' : World)
         (r : Poll) (e : TestError.t),
    ensureServiceStarted ssh fuel service timeout started w = Some (r, w') ->
    fatal r = Some e ->
    TestError.exitCode e = 1 /\ TestError.name e = "TestError".
Proof.
  induction fuel as [| fuel IH]; intros service timeout started w w' r e Hrun Hfatal;
    [ discriminate Hrun | ].
  cbn [ensureServiceStarted] in Hrun.
  destruct (_ >? timeout).
  - inversion Hrun; subst. cbn [fatal] in Hfatal. inversion Hfatal; subst.
    split; reflexivity.
  - destruct (succeeds _).
    + inversion Hrun; subst. discriminate Hfatal.
    + destruct (inside_then_fatal _ _ _ _ Hrun Hfatal) as [_ [r0 [Hrec Hfatal0]]].
      exact (IH _ _ _ _ _ _ _ Hrec Hfatal0).
Qed.

End PollerErrors.

(** The exit code of a [TestError] is never zero, and it is the code
    given unless that was zero or left out, when it is one; the name is
    [TestError].  The errors of both pollers, thrown or in a rejection, are
    made without a code: whatever the arguments of the call, their exit code
    is one. *)
Theorem TestError_exit_codes :
  (forall (msg : string) (code : option Z),
     TestError.exitCode (new_TestError msg code) <> 0
     /\ (forall c, code = Some c -> c <> 0 -> TestError.exitCode (new_TestError msg code) = c)
     /\ TestError.name (new_TestError msg code) = "TestError")
  /\ (forall (ssh : string -> nat -> Attempt) (sshTimeout : Z) (fuel : nat) (timeout : Z)
             (started : Started) (failures : option Z) (w w' : World) (r : Poll)
             (e : TestError.t),
        ensureStarted ssh sshTimeout fuel timeout started failures w = Some (r, w') ->
        fatal r = Some e ->
        TestError.exitCode e = 1 /\ TestError.name e = "TestError")
  /\ (forall (ssh : string -> nat -> Attempt) (fuel : nat) (service : string) (timeout : Z)
             (started : Started) (w w' : World) (r : Poll) (e : TestError.t),
        ensureServiceStarted ssh fuel service timeout started w = Some (r, w') ->
        fatal r = Some e ->
        TestError.exitCode e = 1 /\ TestError.name e = "TestError").
Proof.
  split; [ | split ].
  - intros msg code. split; [ | split; [ | reflexivity ] ].
    + destruct code as [c |]; cbn; [ | discriminate ].
      destruct (Z.eqb_spec c 0); [ discriminate | assumption ].
    + intros c Hcode Hc. subst code. cbn.
      destruct (Z.eqb_spec c 0); [ contradiction | reflexivity ].
  - intros ssh sshTimeout fuel. apply ensureStarted_error.
  - intros ssh fuel. apply ensureServiceStarted_error.
Qed.

(** The machine that never answers, against a deadline of a quarter of a
    second. *)
Lemma TestError_exit_codes_witness :
  exists e w',
    ensureStarted never_up 120000 4 250 NotGiven None epoch = Some (RejectedWith e, w')
    /\ TestError.exitCode e = 1
    /\ TestError.name e = "TestError".
Proof.
  destruct (ensureStarted never_up 120000 4 250 NotGiven None epoch)
    as [[r w'] |] eqn:Hrun; [ | discriminate Hrun ].
  destruct r as [e | | e]; try (vm_compute in Hrun; discriminate Hrun).
  exists e, w'. split; [ reflexivity | ].
  exact (proj1 (proj2 TestError_exit_codes) never_up 120000 4%nat 250 NotGiven None
           epoch w' (RejectedWith e) e Hrun eq_refl).
Defined.
